(** * Context-aware slide narration: a shallow embedding of [src/ai_narrator.py]

    The development follows the Python module top-down: Python strings and
    the few string built-ins the narrator uses, the style registry
    [NARRATION_STYLES], the prompt builder [_build_context_aware_prompt], and
    the generation loop [narrate_slides] with its retry policy.  The slide
    dictionaries live in a heap of objects so that the in-place writes of the
    loop, and what they leave alone, can be stated.

    The modules around the narrator follow, each in a module of its name: the
    slide reader [src/pptx_reader.py], whose records are the decks of the
    narrator, the key loader [src/config.py], and the enrichment levels of
    [src/enrichment_config.py] with their prompt templates. *)

From Stdlib Require Import DecimalString QArith_base.
From stdpp Require Import gmap strings list fin_maps.

Local Open Scope Z_scope.

(** ** Python strings *)

(** A Python [str] is a sequence of Unicode code points: [len] counts code
    points and [strip] looks at code points, so a character is a number and
    not a byte. *)
Definition pystr : Type := list N.

(** The string literals of the source are all ASCII; [lit] reads one. *)
Definition lit (s : string) : pystr :=
  map Ascii.N_of_ascii (String.list_ascii_of_string s).
Arguments lit s%_string.

(** The line feed written [\n] in the source. *)
Definition nl : pystr := [10%N].

(** [str.isspace] on one character, as CPython's [_PyUnicode_IsWhitespace]:
    U+0009..U+000D, U+001C..U+001F, U+0020, U+0085, U+00A0, U+1680,
    U+2000..U+200A, U+2028, U+2029, U+202F, U+205F, U+3000. *)
Definition isspace (c : N) : bool :=
  ((9 <=? c) && (c <=? 13) || (28 <=? c) && (c <=? 32)
   || (c =? 133) || (c =? 160) || (c =? 5760)
   || (8192 <=? c) && (c <=? 8202)
   || (c =? 8232) || (c =? 8233) || (c =? 8239) || (c =? 8287)
   || (c =? 12288))%N.

Fixpoint lstrip (s : pystr) : pystr :=
  match s with
  | c :: s' => if isspace c then lstrip s' else s
  | [] => []
  end.

Definition rstrip (s : pystr) : pystr := rev (lstrip (rev s)).

(** [s.strip()] *)
Definition strip (s : pystr) : pystr := rstrip (lstrip s).

(** [len(s)] *)
Definition len {A} (l : list A) : Z := Z.of_nat (length l).

(** [s.split()]: the maximal runs of non-whitespace characters. *)
Fixpoint split_from (word : pystr) (s : pystr) : list pystr :=
  match s with
  | [] => match word with [] => [] | _ => [rev word] end
  | c :: s' =>
      if isspace c
      then match word with
           | [] => split_from [] s'
           | _ => rev word :: split_from [] s'
           end
      else split_from (c :: word) s'
  end.

Definition split (s : pystr) : list pystr := split_from [] s.

Fixpoint startswith (prefix s : pystr) : bool :=
  match prefix, s with
  | [], _ => true
  | _ :: _, [] => false
  | a :: prefix', b :: s' => (a =? b)%N && startswith prefix' s'
  end.

(** [needle in s] *)
Fixpoint contains (needle s : pystr) : bool :=
  startswith needle s
  || match s with
     | [] => false
     | _ :: s' => contains needle s'
     end.

(** [sep.join(items)] *)
Fixpoint join (sep : pystr) (items : list pystr) : pystr :=
  match items with
  | [] => []
  | [x] => x
  | x :: rest => x ++ sep ++ join sep rest
  end.

(** The slices [l[:n]] and [l[-n:]] for a literal [n > 0]. *)
Definition slice_head {A} (n : nat) (l : list A) : list A := take n l.
Definition slice_tail {A} (n : nat) (l : list A) : list A :=
  drop (length l - n) l.

(** [str(z)] for an [int], as an f-string prints it. *)
Definition str_of_int (z : Z) : pystr :=
  lit (NilZero.string_of_int (Z.to_int z)).

(** A string [needle] occurs in [s]. *)
Definition occurs_in (needle s : pystr) : Prop :=
  ∃ before after, s = before ++ needle ++ after.

(** ** The style registry *)

(** The float literals of the source (temperatures, sleep durations) are only
    stored and passed on, never computed with; they are kept as the exact
    decimal fractions the source writes. *)
Definition pyfloat : Type := Q.

Record StyleConfig := {
  name : pystr;
  description : pystr;
  style_temperature : pyfloat;
  prompt_style : pystr
}.

Definition professional : StyleConfig := {|
  name := lit "Professional Lecturer";
  description := lit "Formal, academic tone suitable for business and educational presentations";
  style_temperature := (5 # 10)%Q;
  prompt_style := lit "formal and professional, like a university professor or corporate trainer"
|}.

Definition engaging : StyleConfig := {|
  name := lit "Engaging Teacher";
  description := lit "Conversational and friendly, like your favorite teacher explaining concepts";
  style_temperature := (7 # 10)%Q;
  prompt_style := lit "conversational and engaging, like a favorite teacher who makes learning fun"
|}.

Definition enthusiastic : StyleConfig := {|
  name := lit "Enthusiastic Presenter";
  description := lit "Energetic and passionate, great for motivational or sales presentations";
  style_temperature := (8 # 10)%Q;
  prompt_style := lit "highly energetic and passionate, using vivid language and excitement"
|}.

Definition casual : StyleConfig := {|
  name := lit "Casual Explainer";
  description := lit "Relaxed and friendly, using simple language and everyday analogies";
  style_temperature := (7 # 10)%Q;
  prompt_style := lit "relaxed and friendly, using simple everyday language and relatable examples"
|}.

Definition storyteller : StyleConfig := {|
  name := lit "Story Teller";
  description := lit "Narrative style that weaves information into a compelling story";
  style_temperature := (8 # 10)%Q;
  prompt_style := lit "narrative and story-driven, connecting ideas into a flowing story"
|}.

Definition NARRATION_STYLES : gmap pystr StyleConfig :=
  list_to_map
    [ (lit "professional", professional);
      (lit "engaging", engaging);
      (lit "enthusiastic", enthusiastic);
      (lit "casual", casual);
      (lit "storyteller", storyteller) ].

(** [NARRATION_STYLES.get(style_key, NARRATION_STYLES["engaging"])] *)
Definition _get_style_config (style_key : pystr) : StyleConfig :=
  default engaging (NARRATION_STYLES !! style_key).

Definition get_available_styles : gmap pystr StyleConfig := NARRATION_STYLES.

(** ** The narrator object *)

(** One entry of [self.conversation_history]: the dictionary
    [{'slide_number': i, 'text': text, 'narration': narration}]. *)
Record ContextEntry := {
  slide_number : Z;
  text : pystr;
  narration : pystr
}.

(** The fields of [self] that the narration pass reads and writes.  The
    backend handle ([self.client] or [self.model]) is kept apart, with the
    state of the backend. *)
Record AITeacherNarrator := {
  temperature : pyfloat;
  style : pystr;
  conversation_history : list ContextEntry
}.

Definition set_history (h : list ContextEntry) (self : AITeacherNarrator)
  : AITeacherNarrator :=
  {| temperature := temperature self;
     style := style self;
     conversation_history := h |}.

(** Which Gemini SDK the import block at the top of the module found. *)
Inductive sdk_version := NEW | OLD.

Inductive exn :=
  | ImportError
  | ValueError
  | TypeError
  | AttributeError.

Inductive result (A : Type) :=
  | Return (a : A)
  | Raise (e : exn).
Arguments Return {A} a.
Arguments Raise {A} e.

(** [get_gemini_api_key], given the value of the environment variable
    [GOOGLE_API_KEY]. *)
Definition get_gemini_api_key (env_key : option pystr) : option pystr :=
  match env_key with
  | Some (c :: k) => Some (strip (c :: k))
  | _ => None
  end.

(** [AITeacherNarrator.__init__]; an omitted argument is [None] here and takes
    the default of the signature.  The construction of the SDK client that
    ends the method (lines 104 to 116), which lets through whatever the SDK
    raises, is taken to succeed: [Return] stands for a narrator whose client
    could be built. *)
Definition __init__ (SDK_VERSION : option sdk_version)
    (env_key : option pystr)
    (temperature_arg : option pyfloat) (style_arg : option pystr)
  : result AITeacherNarrator :=
  match SDK_VERSION with
  | None => Raise ImportError
  | Some _ =>
      match get_gemini_api_key env_key with
      | Some (_ :: _) =>
          Return {| temperature := default (7 # 10)%Q temperature_arg;
                    style := default (lit "engaging") style_arg;
                    conversation_history := [] |}
      | _ => Raise ValueError
      end
  end.

(** ** The prompt builder *)

(** The three return expressions of [_build_context_aware_prompt]. *)
Definition opener_prompt (slide_text : pystr) (total_slides : Z)
    (style_desc : pystr) : pystr :=
  lit "You are the presenter starting a " ++ str_of_int total_slides
    ++ lit "-slide presentation." ++ nl
  ++ lit "This is the Title Slide: '" ++ slide_text ++ lit "'" ++ nl ++ nl
  ++ lit "INSTRUCTIONS:" ++ nl
  ++ lit "1. Start with 'Good morning everyone' (or a similar warm welcome)." ++ nl
  ++ lit "2. Introduce the topic clearly." ++ nl
  ++ lit "3. Give a brief 1-sentence hook about what we will cover." ++ nl
  ++ lit "Tone: " ++ style_desc.

Definition sign_off_instruction : pystr :=
  lit "3. End with this exact sign-off: 'Thank you for your attention, and I will see you next week.'".

Definition no_greeting_instruction : pystr :=
  lit "2. Do NOT say 'Good morning' or introduce yourself.".

(** The bridging context of the closer: empty without history, otherwise the
    first 100 characters of the last entry's narration. *)
Definition closer_context (history : list ContextEntry) : pystr :=
  match last history with
  | None => []
  | Some last_slide =>
      lit "Previous slide discussed: "
      ++ slice_head 100 (narration last_slide) ++ lit "..."
  end.

Definition closer_prompt (slide_text : pystr) (context : pystr)
    (style_desc : pystr) : pystr :=
  lit "You are concluding a presentation. This is the Final Slide." ++ nl
  ++ lit "Context from previous slide: " ++ context ++ nl
  ++ lit "Final Slide Content: " ++ slide_text ++ nl ++ nl
  ++ lit "INSTRUCTIONS:" ++ nl
  ++ lit "1. Briefly summarize the main takeaway." ++ nl
  ++ no_greeting_instruction ++ nl
  ++ sign_off_instruction ++ nl
  ++ lit "Tone: " ++ style_desc.

(** One line of the body's previous context. *)
Definition context_item (prev_slide : ContextEntry) : pystr :=
  let prev_num := slide_number prev_slide in
  let prev_narration := slice_tail 150 (narration prev_slide) in
  lit "Slide " ++ str_of_int prev_num ++ lit " ended with: ..." ++ prev_narration.

Definition context_items (history : list ContextEntry) : list pystr :=
  let recent_context := slice_tail 2 history in
  map context_item recent_context.

Definition body_context (history : list ContextEntry) : pystr :=
  match history with
  | [] => []
  | _ => join nl (context_items history)
  end.

Definition body_prompt (slide_text : pystr) (slide_number total_slides : Z)
    (context : pystr) (style_desc : pystr) : pystr :=
  lit "You are narrating slide " ++ str_of_int slide_number ++ lit " of "
    ++ str_of_int total_slides ++ lit " (Middle of presentation)." ++ nl ++ nl
  ++ lit "PREVIOUS CONTEXT (flow from this):" ++ nl ++ context ++ nl ++ nl
  ++ lit "CURRENT SLIDE CONTENT:" ++ nl ++ slide_text ++ nl ++ nl
  ++ lit "STRICT INSTRUCTIONS:" ++ nl
  ++ lit "1. Do NOT say 'Good morning', 'Hello', or 'Welcome' again." ++ nl
  ++ lit "2. Do NOT introduce yourself." ++ nl
  ++ lit "3. Use a transition phrase (e.g., 'Moving on...', 'Furthermore...', 'As we can see here...') to connect to the previous context." ++ nl
  ++ lit "4. Explain the current slide content naturally." ++ nl
  ++ lit "Tone: " ++ style_desc.

Definition _build_context_aware_prompt (self : AITeacherNarrator)
    (slide_text : pystr) (slide_number total_slides : Z) (is_title : bool)
  : pystr :=
  let style_config := _get_style_config (style self) in
  let style_desc := prompt_style style_config in
  if slide_number =? 1 then
    opener_prompt slide_text total_slides style_desc
  else if slide_number =? total_slides then
    closer_prompt slide_text (closer_context (conversation_history self))
      style_desc
  else
    body_prompt slide_text slide_number total_slides
      (body_context (conversation_history self)) style_desc.

(** ** Objects, the heap and the trace of a pass *)

Definition loc : Type := positive.

(** The values a slide dictionary may hold under a key. *)
Inductive pyval :=
  | VNone
  | VInt (z : Z)
  | VStr (s : pystr)
  | VRef (l : loc).

(** The mutable objects of a pass: the slide dictionaries and the list that
    holds them.  [slides_data : List[Dict]] is a reference to a list object
    whose items are references to objects. *)
Inductive pyobj :=
  | ODict (d : gmap pystr pyval)
  | OList (items : list loc).

(** What one generation call gives back inside the [try] block: the value of
    [response.text] (which may be [None]), or an [Exception] whose [str] is
    [error_msg]. *)
Inductive response :=
  | Text (t : option pystr)
  | Raises (error_msg : pystr).

(** What a pass does to the outside, in the order it does it.  The fields [i]
    and [attempt] of a call name the iteration of the two loops that makes
    it; [config_temperature] is the temperature passed with the prompt,
    [None] when the call passes none.  Log lines are left out. *)
Inductive event :=
  | EvProgress (i total : Z)
  | EvGenerate (i attempt : Z) (prompt : pystr)
      (config_temperature : option pyfloat) (r : response)
  | EvSleep (seconds : pyfloat).

Definition key_text : pystr := lit "text".
Definition key_ai_narration : pystr := lit "ai_narration".

(** [slide[key] = v] on the dictionary at [slide].  The pass assigns to
    slides only, after reading them as dictionaries; a list is left as it
    is. *)
Definition setitem (key : pystr) (v : pyval) (o : pyobj) : pyobj :=
  match o with
  | ODict d => ODict (<[key := v]> d)
  | OList items => OList items
  end.

Definition store (slide : loc) (key : pystr) (v : pyval)
    (h : gmap loc pyobj) : gmap loc pyobj :=
  alter (setitem key v) slide h.

(** [if narration and narration.strip()] *)
Definition non_blank (narration : option pystr) : bool :=
  match narration with
  | None => false
  | Some [] => false
  | Some s => match strip s with [] => false | _ => true end
  end.

(** The two classes of errors the loop tells apart, by the tokens their
    message contains. *)
Definition is_auth_error (error_msg : pystr) : bool :=
  contains (lit "403") error_msg
  || contains (lit "PERMISSION_DENIED") error_msg.

Definition is_rate_limit (error_msg : pystr) : bool :=
  contains (lit "429") error_msg
  || contains (lit "RESOURCE_EXHAUSTED") error_msg.

(** How one iteration of the retry loop ends: by [break], or by reaching
    the end of the loop body. *)
Inductive flow := Break | Fallthrough.

Section Narration.

(** The generation backend: its state and the one operation the pass uses.
    [generate_content c prompt config] is the call of lines 214-225 with
    what [response.text] yields; the backend may answer differently at each
    call.  The backend and the progress callback are outside code: they are
    taken not to touch the slides or the narrator, and to raise nothing that
    [except Exception] lets through. *)
Context {B : Type}.
Variable SDK_VERSION : sdk_version.
Variable generate_content : B → pystr → option pyfloat → response * B.

Record world := {
  self : AITeacherNarrator;
  heap : gmap loc pyobj;
  client : B
}.

(** Computations of the pass: they read and write the world, may raise, and
    emit events. *)
Definition M (A : Type) : Type := world → result A * world * list event.

#[global] Instance M_ret : MRet M := λ A a w, (Return a, w, []).

#[global] Instance M_bind : MBind M := λ A C k m w,
  match m w with
  | (Return a, w1, e1) =>
      match k a w1 with
      | (r, w2, e2) => (r, w2, e1 ++ e2)
      end
  | (Raise e, w1, e1) => (Raise e, w1, e1)
  end.

Definition raise {A} (e : exn) : M A := λ w, (Raise e, w, []).
Definition emit (ev : event) : M unit := λ w, (Return tt, w, [ev]).
Definition get_self : M AITeacherNarrator := λ w, (Return (self w), w, []).
Definition put_self (s : AITeacherNarrator) : M unit := λ w,
  (Return tt, {| self := s; heap := heap w; client := client w |}, []).
Definition put_heap (h : gmap loc pyobj) : M unit := λ w,
  (Return tt, {| self := self w; heap := h; client := client w |}, []).

(** [time.sleep(seconds)] *)
Definition sleep (seconds : pyfloat) : M unit := emit (EvSleep seconds).

(** [slide.get(key, dflt)]: only a dictionary has [get]. *)
Definition dict_get (slide : loc) (key : pystr) (dflt : pyval) : M pyval :=
  λ w, match heap w !! slide with
       | Some (ODict d) => (Return (default dflt (d !! key)), w, [])
       | _ => (Raise AttributeError, w, [])
       end.

(** [v.strip()] on the values of [pyval]: a string is trimmed; [None], an
    [int], a list and a dictionary have no [strip].  Values of other types
    that have a [strip] of their own ([bytes], for one) are not in [pyval],
    and nothing is said of a slide that holds one. *)
Definition str_strip (v : pyval) : M pystr :=
  match v with
  | VStr s => mret (strip s)
  | _ => raise AttributeError
  end.

(** [slide["ai_narration"] = v].  The assignment always follows a
    [slide.get] that succeeded on the same object, which is therefore a
    dictionary. *)
Definition set_ai_narration (slide : loc) (v : pystr) : M unit := λ w,
  put_heap (store slide key_ai_narration (VStr v) (heap w)) w.

(** [self.conversation_history.append(entry)] *)
Definition history_append (entry : ContextEntry) : M unit := λ w,
  put_self
    (set_history (conversation_history (self w) ++ [entry]) (self w)) w.

(** The configuration passed with a prompt: the new SDK passes
    [temperature=self.temperature], the old one passes nothing. *)
Definition call_config (s : AITeacherNarrator) : option pyfloat :=
  match SDK_VERSION with
  | NEW => Some (temperature s)
  | OLD => None
  end.

(** Lines 214-225: one call of the backend. *)
Definition generate (i attempt : Z) (prompt : pystr) : M response := λ w,
  let config := call_config (self w) in
  match generate_content (client w) prompt config with
  | (r, c) =>
      (Return r,
       {| self := self w; heap := heap w; client := c |},
       [EvGenerate i attempt prompt config r])
  end.

(** The [try] statement of lines 213-260, for one [attempt]. *)
Definition attempt_body (attempt : Z) (slide : loc) (i total : Z)
    (text prompt : pystr) : M flow :=
  r ← generate i attempt prompt;
  match r with
  | Text narration =>
      if non_blank narration then
        let narration := strip (default [] narration) in
        set_ai_narration slide narration;;
        history_append {| slide_number := i;
                          text := text;
                          narration := narration |};;
        mret Break
      else
        (if attempt =? 2 then set_ai_narration slide text else mret tt);;
        mret Fallthrough
  | Raises error_msg =>
      if is_auth_error error_msg then
        set_ai_narration slide text;;
        mret Break
      else if is_rate_limit error_msg then
        sleep (5 # 1)%Q;;
        (if attempt =? 2 then set_ai_narration slide text else mret tt);;
        mret Fallthrough
      else
        (if attempt =? 2 then set_ai_narration slide text else mret tt);;
        mret Fallthrough
  end.

(** The retry loop [for attempt in (1, 2)] of lines 212-262: the
    [time.sleep(0.8)] of line 262 is the last statement of the loop body,
    which a [break] does not reach. *)
Fixpoint attempt_loop (attempts : list Z) (slide : loc) (i total : Z)
    (text prompt : pystr) : M unit :=
  match attempts with
  | [] => mret tt
  | attempt :: rest =>
      f ← attempt_body attempt slide i total text prompt;
      match f with
      | Break => mret tt
      | Fallthrough =>
          sleep (8 # 10)%Q;;
          attempt_loop rest slide i total text prompt
      end
  end.

(** The body of [for i, slide in enumerate(slides_data, 1)].
    [progress_callback] tells whether the caller supplied a callback; its
    call is the event [EvProgress]. *)
Definition narrate_slide (i total : Z) (progress_callback : bool)
    (slide : loc) : M unit :=
  raw ← dict_get slide key_text (VStr []);
  text ← str_strip raw;
  if len text <? 5 then
    set_ai_narration slide text
  else
    (if progress_callback then emit (EvProgress i total) else mret tt);;
    let is_title := (i =? 1) || (len (split text) <? 15) in
    s ← get_self;
    let prompt := _build_context_aware_prompt s text i total is_title in
    attempt_loop [1; 2] slide i total text prompt.

Fixpoint slides_loop (i total : Z) (progress_callback : bool)
    (slides : list loc) : M unit :=
  match slides with
  | [] => mret tt
  | slide :: rest =>
      narrate_slide i total progress_callback slide;;
      slides_loop (i + 1) total progress_callback rest
  end.

(** The items of the list object [slides_data], as [len] and [enumerate]
    read them; the pass never changes the list itself.  Only a list is
    modelled as the deck: [TypeError] is what [len] raises on an object that
    has no length, and a dictionary given as [slides_data], whose keys
    Python would enumerate, is not distinguished from such an object. *)
Definition list_items (slides_data : loc) : M (list loc) := λ w,
  match heap w !! slides_data with
  | Some (OList items) => (Return items, w, [])
  | _ => (Raise TypeError, w, [])
  end.

Definition narrate_slides (slides_data : loc) (progress_callback : bool)
  : M loc :=
  slides ← list_items slides_data;
  let total := len slides in
  s ← get_self;
  put_self (set_history [] s);;
  slides_loop 1 total progress_callback slides;;
  mret slides_data.

End Narration.

Arguments world B : clear implicits.
Arguments M B A : clear implicits.

(** ** Reading a world *)

(** The [text] a slide carries, as [slide.get("text", "")] sees it, when it
    is a string. *)
Definition slide_text (h : gmap loc pyobj) (slide : loc) : option pystr :=
  match h !! slide with
  | Some (ODict d) =>
      match d !! key_text with
      | None => Some []
      | Some (VStr s) => Some s
      | Some _ => None
      end
  | _ => None
  end.

(** The field [slide[key]], if the slide has it. *)
Definition slide_field (h : gmap loc pyobj) (slide : loc) (key : pystr)
  : option pyval :=
  match h !! slide with
  | Some (ODict d) => d !! key
  | _ => None
  end.

(** The input type of the pass: [slides_data] is a list of dictionaries whose
    [text], when present, is a string. *)
Definition well_typed_deck (h : gmap loc pyobj) (slides_data : loc)
    (items : list loc) : Prop :=
  h !! slides_data = Some (OList items)
  ∧ Forall (λ slide, is_Some (slide_text h slide)) items.

(** The generation calls of a trace made for slide [i]. *)
Definition is_call_for (i : Z) (ev : event) : bool :=
  match ev with
  | EvGenerate j _ _ _ _ => bool_decide (j = i)
  | _ => false
  end.

Definition calls_for (i : Z) (evs : list event) : list event :=
  filter (λ ev, is_call_for i ev = true) evs.

(** The successful generations of a trace: slide index and stored narration. *)
Definition success_of (ev : event) : option (Z * pystr) :=
  match ev with
  | EvGenerate i _ _ _ (Text narration) =>
      if non_blank narration then Some (i, strip (default [] narration))
      else None
  | _ => None
  end.

Definition successes (evs : list event) : list (Z * pystr) :=
  omap success_of evs.

Definition entry_key (e : ContextEntry) : Z * pystr :=
  (slide_number e, narration e).

(** ** Sample backends and decks *)

(** A backend that plays a script, one response per call, and answers with no
    text once the script is over. *)
Definition scripted (script : list response) (prompt : pystr)
    (config : option pyfloat) : response * list response :=
  match script with
  | r :: rest => (r, rest)
  | [] => (Text None, [])
  end.

(** A backend that gives the same response to every call. *)
Definition constant (r : response) (c : unit) (prompt : pystr)
    (config : option pyfloat) : response * unit := (r, c).

(** A slide dictionary with the scalar fields the reader of the repository
    gives it. *)
Definition slide_dict (n : Z) (t : pystr) : pyobj :=
  ODict (<[lit "slide_number" := VInt n]>
         (<[key_text := VStr t]>
          (<[lit "original_text" := VStr t]> ∅))).

Fixpoint alloc_slides (l : loc) (n : Z) (texts : list pystr)
    (h : gmap loc pyobj) : gmap loc pyobj * list loc :=
  match texts with
  | [] => (h, [])
  | t :: texts' =>
      let '(h', ls) :=
        alloc_slides (Pos.succ l) (n + 1) texts' (<[l := slide_dict n t]> h) in
      (h', l :: ls)
  end.

(** The heap of a deck with the given slide texts; the list object is at
    location 1 and the slides follow. *)
Definition deck_heap (texts : list pystr) : gmap loc pyobj :=
  let '(h, ls) := alloc_slides 2%positive 1 texts ∅ in
  <[1%positive := OList ls]> h.

Definition default_narrator : AITeacherNarrator :=
  {| temperature := (7 # 10)%Q;
     style := lit "engaging";
     conversation_history := [] |}.

Definition start {B} (s : AITeacherNarrator) (texts : list pystr) (c : B)
  : world B :=
  {| self := s; heap := deck_heap texts; client := c |}.

(** The deck of the specification's end-to-end example, a script of
    responses of every kind, and a narrator built with the professional
    style and no temperature argument. *)
Definition sample_texts : list pystr :=
  [ lit "Intro to Topic";
    lit "Topic has grown 40% since 2020";
    lit "Thank you" ].

Definition sample_slides : list loc := [2; 3; 4]%positive.

Definition sample_script : list response :=
  [ Text (Some (lit " Good morning everyone. "));
    Text None;
    Raises (lit "429 RESOURCE_EXHAUSTED");
    Raises (lit "403 PERMISSION_DENIED") ].

Definition canned : response := Text (Some (lit "Welcome, everyone.")).

Definition professional_narrator : result AITeacherNarrator :=
  __init__ (Some NEW) (Some (lit "test-key")) None (Some (lit "professional")).

(** ** Templates, as the specification names them *)

Inductive template := Opener | Closer | Body.

(** The selection rule in the words of the specification: the opener for the
    first slide, the closer for the last slide of a deck of more than one
    slide, the body otherwise. *)
Definition select_template (slide_number total_slides : Z) : template :=
  if slide_number =? 1 then Opener
  else if (slide_number =? total_slides) && (1 <? total_slides) then Closer
  else Body.

(** The text of a template for a slide. *)
Definition instantiate (t : template) (self : AITeacherNarrator)
    (slide_text : pystr) (slide_number total_slides : Z) : pystr :=
  let style_desc := prompt_style (_get_style_config (style self)) in
  match t with
  | Opener => opener_prompt slide_text total_slides style_desc
  | Closer =>
      closer_prompt slide_text (closer_context (conversation_history self))
        style_desc
  | Body =>
      body_prompt slide_text slide_number total_slides
        (body_context (conversation_history self)) style_desc
  end.

(** Which template a prompt was made from, read off its first sentence. *)
Definition template_of (prompt : pystr) : option template :=
  if startswith (lit "You are the presenter starting a ") prompt then
    Some Opener
  else if startswith (lit "You are concluding a presentation.") prompt then
    Some Closer
  else if startswith (lit "You are narrating slide ") prompt then
    Some Body
  else None.

(** ** What a pass may change in the heap *)

(** [heap_frame h h']: [h'] has the objects of [h] at the same places, the
    lists unchanged and the dictionaries changed under [ai_narration] at
    most. *)
Definition heap_frame (h h' : gmap loc pyobj) : Prop :=
  ∀ l, match h !! l with
       | Some (ODict d) =>
           ∃ d', h' !! l = Some (ODict d')
                 ∧ ∀ key, key ≠ key_ai_narration → d' !! key = d !! key
       | o => h' !! l = o
       end.

(** What an event of slide [i] looks like: its calls carry the index, the
    prompt and the configuration of the slide. *)
Definition event_of_slide (i total : Z) (prompt : pystr)
    (config : option pyfloat) (ev : event) : Prop :=
  match ev with
  | EvProgress j t => j = i ∧ t = total
  | EvGenerate j attempt p c _ =>
      j = i ∧ (attempt = 1 ∨ attempt = 2) ∧ p = prompt ∧ c = config
  | EvSleep _ => True
  end.

(** ** What a slide and a pass establish *)

(** How the loop reads one response: the five branches of lines 227-260. *)
Inductive verdict :=
  | Narrated (v : pystr)
  | Blank
  | AuthFailure
  | RateLimited
  | Failed.

Definition classify (r : response) : verdict :=
  match r with
  | Text narration =>
      if non_blank narration then Narrated (strip (default [] narration))
      else Blank
  | Raises error_msg =>
      if is_auth_error error_msg then AuthFailure
      else if is_rate_limit error_msg then RateLimited
      else Failed
  end.

(** A response that is empty or whitespace-only: no text, the empty string,
    or a string of whitespace. *)
Definition blank_response (r : response) : Prop :=
  match r with
  | Text None => True
  | Text (Some s) => strip s = []
  | Raises _ => False
  end.

Section Postconditions.

Context {B : Type}.
Variable SDK_VERSION : sdk_version.

Definition with_heap (h : gmap loc pyobj) (c : B) (w : world B) : world B :=
  {| self := self w; heap := h; client := c |}.

(** The world in which the loop over the slides starts: the history is
    empty. *)
Definition reset (w : world B) : world B :=
  {| self := set_history [] (self w); heap := heap w; client := client w |}.

(** After the retry loop of a slide with trimmed text [tx]: either no call
    succeeded, the history is as before and the narration is [tx]; or one
    call succeeded with the stored narration [v], which is also the one new
    entry of the history. *)
Definition attempts_post (slide : loc) (i total : Z) (tx prompt : pystr)
    (w w' : world B) (evs : list event) : Prop :=
  temperature (self w') = temperature (self w)
  ∧ style (self w') = style (self w)
  ∧ Forall
      (event_of_slide i total prompt (call_config SDK_VERSION (self w))) evs
  ∧ ((successes evs = []
      ∧ conversation_history (self w') = conversation_history (self w)
      ∧ heap w' = store slide key_ai_narration (VStr tx) (heap w))
     ∨ (∃ v, v ≠ []
         ∧ successes evs = [(i, v)]
         ∧ conversation_history (self w')
           = conversation_history (self w)
             ++ [{| slide_number := i; text := tx; narration := v |}]
         ∧ heap w' = store slide key_ai_narration (VStr v) (heap w))).

(** After the loop body for a slide whose [text] is [t]. *)
Definition slide_post (slide : loc) (i total : Z) (t : pystr)
    (w w' : world B) (evs : list event) : Prop :=
  let tx := strip t in
  let is_title := (i =? 1) || (len (split tx) <? 15) in
  let prompt := _build_context_aware_prompt (self w) tx i total is_title in
  temperature (self w') = temperature (self w)
  ∧ style (self w') = style (self w)
  ∧ Forall
      (event_of_slide i total prompt (call_config SDK_VERSION (self w))) evs
  ∧ (len tx < 5 → evs = [])
  ∧ ((successes evs = []
      ∧ conversation_history (self w') = conversation_history (self w)
      ∧ heap w' = store slide key_ai_narration (VStr tx) (heap w))
     ∨ (∃ v, v ≠ [] ∧ 5 ≤ len tx
         ∧ successes evs = [(i, v)]
         ∧ conversation_history (self w')
           = conversation_history (self w)
             ++ [{| slide_number := i; text := tx; narration := v |}]
         ∧ heap w' = store slide key_ai_narration (VStr v) (heap w))).

(** An entry of the history made during the loop over [slides], the first of
    which has index [i0]: it belongs to a slide of the deck whose trimmed
    text is not trivial. *)
Definition entry_of_deck (h : gmap loc pyobj) (slides : list loc) (i0 : Z)
    (e : ContextEntry) : Prop :=
  i0 ≤ slide_number e
  ∧ ∃ slide t,
      slides !! Z.to_nat (slide_number e - i0) = Some slide
      ∧ slide_text h slide = Some t
      ∧ text e = strip t
      ∧ 5 ≤ len (strip t).

(** A call made during the loop: it is for a non-trivial slide of the deck,
    carries the configuration of the narrator, and its prompt is built on the
    entries made for the slides before it. *)
Definition call_of_deck (self0 : AITeacherNarrator) (h : gmap loc pyobj)
    (slides : list loc) (i0 total : Z) (new : list ContextEntry)
    (ev : event) : Prop :=
  match ev with
  | EvGenerate i attempt p c _ =>
      i0 ≤ i ∧ (attempt = 1 ∨ attempt = 2)
      ∧ c = call_config SDK_VERSION self0
      ∧ ∃ slide t is_title,
          slides !! Z.to_nat (i - i0) = Some slide
          ∧ slide_text h slide = Some t
          ∧ 5 ≤ len (strip t)
          ∧ p = _build_context_aware_prompt
                  (set_history
                     (conversation_history self0
                      ++ filter (λ e, slide_number e < i) new) self0)
                  (strip t) i total is_title
  | _ => True
  end.

(** After the loop over [slides]. *)
Definition loop_post (i0 total : Z) (slides : list loc) (w w' : world B)
    (evs : list event) : Prop :=
  ∃ new,
    temperature (self w') = temperature (self w)
    ∧ style (self w') = style (self w)
    ∧ heap_frame (heap w) (heap w')
    ∧ (∀ l, l ∉ slides → heap w' !! l = heap w !! l)
    ∧ conversation_history (self w') = conversation_history (self w) ++ new
    ∧ map entry_key new = successes evs
    ∧ Forall (entry_of_deck (heap w) slides i0) new
    ∧ Forall (call_of_deck (self w) (heap w) slides i0 total new) evs
    ∧ (∀ slide t,
         slide ∈ slides → slide_text (heap w) slide = Some t →
         ∃ v, slide_field (heap w') slide key_ai_narration = Some (VStr v)
              ∧ (v = strip t
                 ∨ ∃ i, i0 ≤ i
                        ∧ slides !! Z.to_nat (i - i0) = Some slide
                        ∧ (i, v) ∈ successes evs)).

End Postconditions.

(** * The modules around the narrator *)

(** [if s:] on a string: it is not empty. *)
Definition truthy (s : pystr) : bool :=
  match s with
  | [] => false
  | _ :: _ => true
  end.

(** A dictionary literal whose order of insertion is read, as the list of its
    items, and [d.get(key)] on it. *)
Fixpoint alist_get {V} (d : list (pystr * V)) (key : pystr) : option V :=
  match d with
  | [] => None
  | (k, v) :: d' => if bool_decide (k = key) then Some v else alist_get d' key
  end.

(** ** The slide reader: [src/pptx_reader.py] *)

Module pptx_reader.

(** What the reader sees of a [python-pptx] presentation.  For a shape,
    [text_attr] is [None] when [hasattr(shape, "text")] is false, and the
    value of [shape.text] otherwise. *)
Record Shape := { text_attr : option pystr }.
Record Slide := { shapes : list Shape }.
Record presentation := { slides : list Slide }.

(** The dictionary the reader makes for a slide.  The reader makes fresh
    dictionaries and keeps no reference to them, so they are values here. *)
Record SlideData := {
  slide_number : Z;
  text : pystr;
  original_text : pystr;
  text_blocks : list pystr
}.

(** A call returns, or raises an [Exception] whose [str] is [message]. *)
Inductive outcome (A : Type) :=
  | Returns (a : A)
  | RaisesException (message : pystr).
Arguments Returns {A} a.
Arguments RaisesException {A} message.

Definition error_prefix : pystr :=
  lit "Error occurred while reading PowerPoint file: ".

(** The loop over [slide.shapes], with its two accumulators. *)
Fixpoint shapes_loop (shapes : list Shape) (text_blocks all_text : list pystr)
  : list pystr * list pystr :=
  match shapes with
  | [] => (text_blocks, all_text)
  | shape :: rest =>
      match text_attr shape with
      | Some shape_text =>
          if truthy (strip shape_text) then
            let text_content := strip shape_text in
            shapes_loop rest (text_blocks ++ [text_content])
              (all_text ++ [text_content])
          else shapes_loop rest text_blocks all_text
      | None => shapes_loop rest text_blocks all_text
      end
  end.

(** The body of the loop over the slides: the dictionary appended for
    [slide]. *)
Definition slide_record (slide_num : Z) (slide : Slide) : SlideData :=
  let '(text_blocks, all_text) := shapes_loop (shapes slide) [] [] in
  let combined_text :=
    match all_text with
    | [] => []
    | _ => join nl all_text
    end in
  match all_text with
  | _ :: _ =>
      {| slide_number := slide_num;
         text := combined_text;
         original_text := combined_text;
         text_blocks := text_blocks |}
  | [] =>
      {| slide_number := slide_num;
         text := [];
         original_text := [];
         text_blocks := [] |}
  end.

(** [for slide_num, slide in enumerate(prs.slides, start=1)] *)
Fixpoint slides_loop (slide_num : Z) (slides : list Slide)
    (slides_data : list SlideData) : list SlideData :=
  match slides with
  | [] => slides_data
  | slide :: rest =>
      slides_loop (slide_num + 1) rest
        (slides_data ++ [slide_record slide_num slide])
  end.

Section Reader.

(** [Presentation(file_path)] of [python-pptx]: the presentation in the file,
    or an exception.  A presentation that was opened is taken to be read to
    its end: an exception raised while its slides and shapes are read, which
    the handler of [extract_text_from_pptx] would wrap as well and which
    [get_slide_count] never meets, is not modelled. *)
Variable Presentation : pystr → outcome presentation.

Definition extract_text_from_pptx (file_path : pystr)
  : outcome (list SlideData) :=
  match Presentation file_path with
  | Returns prs => Returns (slides_loop 1 (slides prs) [])
  | RaisesException e => RaisesException (error_prefix ++ e)
  end.

Definition get_slide_count (file_path : pystr) : outcome Z :=
  match Presentation file_path with
  | Returns prs => Returns (len (slides prs))
  | RaisesException e => RaisesException (error_prefix ++ e)
  end.

End Reader.

End pptx_reader.

(** The deck a pass is given holds the dictionaries the reader made: the
    list at [slides_data] has one dictionary for each record, with the
    record's number and text under the reader's keys. *)
Definition holds_record (h : gmap loc pyobj) (slide : loc)
    (r : pptx_reader.SlideData) : Prop :=
  ∃ d, h !! slide = Some (ODict d)
       ∧ d !! lit "slide_number" = Some (VInt (pptx_reader.slide_number r))
       ∧ d !! key_text = Some (VStr (pptx_reader.text r))
       ∧ d !! lit "original_text"
         = Some (VStr (pptx_reader.original_text r)).

Definition holds_records (h : gmap loc pyobj) (slides_data : loc)
    (items : list loc) (records : list pptx_reader.SlideData) : Prop :=
  h !! slides_data = Some (OList items)
  ∧ Forall2 (holds_record h) items records.
(** ** Loading API keys: [src/config.py] *)

Module config.

(** A call returns, raises the [ValueError] of the module, or lets through
    the [OSError] of an [open] that fails. *)
Inductive outcome (A : Type) :=
  | Returns (a : A)
  | RaisesValueError
  | RaisesOSError.
Arguments Returns {A} a.
Arguments RaisesValueError {A}.
Arguments RaisesOSError {A}.

(** What is at a path: nothing, a text file that [open(path, 'r')] reads
    (its content after decoding and newline translation), or something that
    exists and cannot be opened for reading. *)
Inductive path_state :=
  | Missing
  | TextFile (content : pystr)
  | Unreadable.

(** [for line in f]: the lines of a text file, each with its line feed,
    except the last one when the file does not end with a line feed. *)
Fixpoint lines_from (line : pystr) (s : pystr) : list pystr :=
  match s with
  | [] => match line with [] => [] | _ => [rev line] end
  | c :: s' =>
      if (c =? 10)%N then rev (c :: line) :: lines_from [] s'
      else lines_from (c :: line) s'
  end.

Definition file_lines (content : pystr) : list pystr := lines_from [] content.

(** The first occurrence of the character [sep] in [s]: what is before it
    and what is after it. *)
Fixpoint find_sep (sep : N) (s : pystr) : option (pystr * pystr) :=
  match s with
  | [] => None
  | c :: s' =>
      if (c =? sep)%N then Some ([], s')
      else match find_sep sep s' with
           | Some (before, after) => Some (c :: before, after)
           | None => None
           end
  end.

(** [s.split(sep, 1)] for a separator of one character. *)
Definition split_once (sep : N) (s : pystr) : list pystr :=
  match find_sep sep s with
  | Some (before, after) => [before; after]
  | None => [s]
  end.

(** The loop over the lines of the configuration file: [Some] when the loop
    is left by [return] or by an exception, [None] when it runs to its
    end. *)
Fixpoint scan_lines (key_name : pystr) (lines : list pystr)
  : option (outcome pystr) :=
  match lines with
  | [] => None
  | line :: rest =>
      if truthy (strip line) && negb (startswith (lit "#") line) then
        if contains (lit "=") line then
          match split_once 61 (strip line) with
          | [var_name; var_value] =>
              if bool_decide (strip var_name = key_name)
              then Some (Returns (strip var_value))
              else scan_lines key_name rest
          | _ => Some RaisesValueError
          end
        else scan_lines key_name rest
      else scan_lines key_name rest
  end.

Section Environment.

(** [os.environ], after [load_dotenv], and the file system. *)
Variable environ : gmap pystr pystr.
Variable path : pystr → path_state.

(** [config_file] is [None] when the argument is omitted. *)
Definition get_api_key (key_name : pystr) (config_file : option pystr)
  : outcome pystr :=
  match environ !! key_name with
  | Some (c :: api_key) => Returns (c :: api_key)
  | _ =>
      match config_file with
      | Some (c :: file_name) =>
          match path (c :: file_name) with
          | TextFile content =>
              match scan_lines key_name (file_lines content) with
              | Some o => o
              | None => RaisesValueError
              end
          | Unreadable => RaisesOSError
          | Missing => RaisesValueError
          end
      | _ => RaisesValueError
      end
  end.

Definition get_google_api_key : outcome pystr :=
  get_api_key (lit "GOOGLE_API_KEY") None.

(** [try: return get_api_key("DEEPL_API_KEY") except ValueError: return
    None] *)
Definition get_deepl_api_key : outcome (option pystr) :=
  match get_api_key (lit "DEEPL_API_KEY") None with
  | Returns api_key => Returns (Some api_key)
  | RaisesValueError => Returns None
  | RaisesOSError => RaisesOSError
  end.

End Environment.

End config.

(** A line of a configuration file, as one writes it: an assignment
    [name=value], a comment, or a blank line. *)
Inductive config_line :=
  | Assignment (name value : pystr)
  | Comment (remark : pystr)
  | BlankLine.

Definition render_line (l : config_line) : pystr :=
  match l with
  | Assignment name value => name ++ lit "=" ++ value ++ nl
  | Comment remark => lit "#" ++ remark ++ nl
  | BlankLine => nl
  end.

Definition render_lines (ls : list config_line) : pystr :=
  concat (map render_line ls).

(** The line can be told from its text: no line feed inside it, and in an
    assignment no equals sign in the name, which does not start with the
    comment mark. *)
Definition plain_line (l : config_line) : Prop :=
  match l with
  | Assignment name value =>
      (10%N ∉ name) ∧ (61%N ∉ name) ∧ (10%N ∉ value)
      ∧ startswith (lit "#") name = false
  | Comment remark => (10%N ∉ remark)
  | BlankLine => True
  end.

(** The value of the first assignment to [key_name], names compared without
    the blanks around them. *)
Fixpoint first_assignment (key_name : pystr) (ls : list config_line)
  : option pystr :=
  match ls with
  | [] => None
  | Assignment name value :: rest =>
      if bool_decide (strip name = key_name) then Some value
      else first_assignment key_name rest
  | _ :: rest => first_assignment key_name rest
  end.
(** ** Enrichment levels: [src/enrichment_config.py] *)

Module enrichment_config.

Inductive EnrichmentLevel := NONE | MINIMAL | NORMAL | DETAILED | ACADEMIC.

(** The value of a member of the enumeration. *)
Definition value (l : EnrichmentLevel) : pystr :=
  match l with
  | NONE => lit "none"
  | MINIMAL => lit "minimal"
  | NORMAL => lit "normal"
  | DETAILED => lit "detailed"
  | ACADEMIC => lit "academic"
  end.

(** The configuration of a level; only the academic level has the key
    [add_sources]. *)
Record LevelConfig := {
  name : pystr;
  description : pystr;
  icon : pystr;
  add_examples : bool;
  add_statistics : bool;
  add_context : bool;
  add_fun_facts : bool;
  add_sources : option bool;
  max_extra_sentences : Z;
  temperature : pyfloat
}.

Definition config_none : LevelConfig := {|
  name := lit "None (No Enrichment)";
  description := lit "Original text only, no additional information";
  icon := [];
  add_examples := false;
  add_statistics := false;
  add_context := false;
  add_fun_facts := false;
  add_sources := None;
  max_extra_sentences := 0;
  temperature := (3 # 10)%Q
|}.

Definition config_minimal : LevelConfig := {|
  name := lit "Minimal";
  description := lit "Fluent narration, very little extra info";
  icon := [];
  add_examples := false;
  add_statistics := false;
  add_context := true;
  add_fun_facts := false;
  add_sources := None;
  max_extra_sentences := 1;
  temperature := (5 # 10)%Q
|}.

Definition config_normal : LevelConfig := {|
  name := lit "Normal";
  description := lit "Some explanations and simple examples";
  icon := [];
  add_examples := true;
  add_statistics := false;
  add_context := true;
  add_fun_facts := false;
  add_sources := None;
  max_extra_sentences := 3;
  temperature := (6 # 10)%Q
|}.

Definition config_detailed : LevelConfig := {|
  name := lit "Detailed";
  description := lit "Examples, statistics, and extra context";
  icon := [];
  add_examples := true;
  add_statistics := true;
  add_context := true;
  add_fun_facts := true;
  add_sources := None;
  max_extra_sentences := 5;
  temperature := (7 # 10)%Q
|}.

Definition config_academic : LevelConfig := {|
  name := lit "Academic";
  description := lit "In-depth, source-referenced content";
  icon := [];
  add_examples := true;
  add_statistics := true;
  add_context := true;
  add_fun_facts := true;
  add_sources := Some true;
  max_extra_sentences := 8;
  temperature := (7 # 10)%Q
|}.

Definition ENRICHMENT_LEVELS : list (pystr * LevelConfig) :=
  [ (lit "none", config_none);
    (lit "minimal", config_minimal);
    (lit "normal", config_normal);
    (lit "detailed", config_detailed);
    (lit "academic", config_academic) ].

(** The double quote inside a template. *)
Definition dq : pystr := [34%N].

Definition prompt_none : pystr :=
  nl
  ++ lit "You are a presentation narrator. Convert the following slide content into natural speech." ++ nl
  ++ nl
  ++ lit "RULES:" ++ nl
  ++ lit "- Do NOT add any new information" ++ nl
  ++ lit "- Do NOT add examples, statistics, or fun facts" ++ nl
  ++ lit "- Just make the text flow naturally for spoken presentation" ++ nl
  ++ lit "- Keep it concise and direct" ++ nl
  ++ nl
  ++ lit "Slide Content:" ++ nl
  ++ lit "{slide_text}" ++ nl
  ++ nl
  ++ lit "Output the narration text only, nothing else." ++ nl.

Definition prompt_minimal : pystr :=
  nl
  ++ lit "You are a presentation narrator. Convert the following slide content into natural, flowing speech." ++ nl
  ++ nl
  ++ lit "RULES:" ++ nl
  ++ lit "- Keep the core content unchanged" ++ nl
  ++ lit "- Make it conversational and easy to follow" ++ nl
  ++ lit "- You may add ONE brief transitional phrase for flow" ++ nl
  ++ lit "- Do NOT add examples or statistics" ++ nl
  ++ lit "- Keep it concise" ++ nl
  ++ nl
  ++ lit "Slide Content:" ++ nl
  ++ lit "{slide_text}" ++ nl
  ++ nl
  ++ lit "Previous Context (for flow):" ++ nl
  ++ lit "{previous_context}" ++ nl
  ++ nl
  ++ lit "Output the narration text only, nothing else." ++ nl.

Definition prompt_normal : pystr :=
  nl
  ++ lit "You are an engaging teacher narrating a presentation slide." ++ nl
  ++ nl
  ++ lit "TASK:" ++ nl
  ++ lit "- Convert the slide content into engaging spoken narration" ++ nl
  ++ lit "- Add 1-2 brief clarifying explanations where helpful" ++ nl
  ++ lit "- You may include ONE simple real-world example" ++ nl
  ++ lit "- Make it conversational but informative" ++ nl
  ++ nl
  ++ lit "RULES:" ++ nl
  ++ lit "- Stay relevant to the topic" ++ nl
  ++ lit "- Don't over-explain simple concepts" ++ nl
  ++ lit "- Maximum 3 additional sentences beyond the original content" ++ nl
  ++ nl
  ++ lit "Slide Content:" ++ nl
  ++ lit "{slide_text}" ++ nl
  ++ nl
  ++ lit "Previous Context:" ++ nl
  ++ lit "{previous_context}" ++ nl
  ++ nl
  ++ lit "Presentation Topic:" ++ nl
  ++ lit "{presentation_topic}" ++ nl
  ++ nl
  ++ lit "Output the narration text only." ++ nl.

Definition prompt_detailed : pystr :=
  nl
  ++ lit "You are an expert educator creating rich, engaging content for a video lecture." ++ nl
  ++ nl
  ++ lit "TASK:" ++ nl
  ++ lit "- Convert the slide content into comprehensive spoken narration" ++ nl
  ++ lit "- Add relevant examples from real-world applications" ++ nl
  ++ lit "- Include interesting statistics or data points when relevant" ++ nl
  ++ lit "- Add " ++ dq ++ lit "Did you know?" ++ dq ++ lit " type facts to maintain engagement" ++ nl
  ++ lit "- Connect concepts to the broader topic" ++ nl
  ++ nl
  ++ lit "ENRICHMENT GUIDELINES:" ++ nl
  ++ lit "- Add 2-3 relevant examples or case studies" ++ nl
  ++ lit "- Include 1-2 statistics or data points if applicable" ++ nl
  ++ lit "- Add context about why this matters" ++ nl
  ++ lit "- Keep the tone engaging and educational" ++ nl
  ++ nl
  ++ lit "Slide Content:" ++ nl
  ++ lit "{slide_text}" ++ nl
  ++ nl
  ++ lit "Previous Context:" ++ nl
  ++ lit "{previous_context}" ++ nl
  ++ nl
  ++ lit "Presentation Topic:" ++ nl
  ++ lit "{presentation_topic}" ++ nl
  ++ nl
  ++ lit "Output the enriched narration text only." ++ nl.

Definition prompt_academic : pystr :=
  nl
  ++ lit "You are a university professor creating lecture content with academic depth." ++ nl
  ++ nl
  ++ lit "TASK:" ++ nl
  ++ lit "- Convert the slide content into scholarly but accessible narration" ++ nl
  ++ lit "- Provide in-depth explanations with proper context" ++ nl
  ++ lit "- Reference well-known theories, researchers, or studies when relevant" ++ nl
  ++ lit "- Include historical context or evolution of concepts" ++ nl
  ++ lit "- Connect to broader academic discourse" ++ nl
  ++ nl
  ++ lit "ACADEMIC ENRICHMENT:" ++ nl
  ++ lit "- Add theoretical background where relevant" ++ nl
  ++ lit "- Mention key researchers or foundational work (e.g., " ++ dq ++ lit "As [Researcher] demonstrated in [Year]..." ++ dq ++ lit ")" ++ nl
  ++ lit "- Include relevant statistics from reputable sources" ++ nl
  ++ lit "- Explain implications and applications" ++ nl
  ++ lit "- Note any ongoing debates or recent developments" ++ nl
  ++ nl
  ++ lit "TONE:" ++ nl
  ++ lit "- Scholarly but not dry" ++ nl
  ++ lit "- Accessible to students" ++ nl
  ++ lit "- Intellectually stimulating" ++ nl
  ++ nl
  ++ lit "Slide Content:" ++ nl
  ++ lit "{slide_text}" ++ nl
  ++ nl
  ++ lit "Previous Context:" ++ nl
  ++ lit "{previous_context}" ++ nl
  ++ nl
  ++ lit "Presentation Topic:" ++ nl
  ++ lit "{presentation_topic}" ++ nl
  ++ nl
  ++ lit "Output the academically enriched narration text only." ++ nl.

Definition ENRICHMENT_PROMPTS : list (pystr * pystr) :=
  [ (lit "none", prompt_none);
    (lit "minimal", prompt_minimal);
    (lit "normal", prompt_normal);
    (lit "detailed", prompt_detailed);
    (lit "academic", prompt_academic) ].

(** *** [str.format] with keyword arguments

    The part of [str.format] that a template with named fields needs:
    literal text, the doubled braces, and fields [{name}] looked up among
    the keyword arguments, all of them strings.  A field with a conversion,
    a format specification, an attribute or an index, or with a character
    outside ASCII, is outside this part. *)
Inductive format_exn := FormatValueError | FormatKeyError | FormatIndexError.

Inductive formatted :=
  | Formatted (s : pystr)
  | FormatRaises (e : format_exn)
  | NotModelled.

Definition emit_char (c : N) (r : formatted) : formatted :=
  match r with
  | Formatted s => Formatted (c :: s)
  | _ => r
  end.

Definition emit_str (v : pystr) (r : formatted) : formatted :=
  match r with
  | Formatted s => Formatted (v ++ s)
  | _ => r
  end.

Definition is_digit (c : N) : bool := ((48 <=? c) && (c <=? 57))%N.

(** The characters [!], [:], [.] and the opening bracket, which start a
    conversion, a format specification, an attribute and an index. *)
Definition starts_lookup_or_spec (c : N) : bool :=
  ((c =? 33) || (c =? 58) || (c =? 46) || (c =? 91) || (128 <=? c))%N.

(** The value of the field [name]: an empty name or a number is a position
    among the positional arguments, of which there are none. *)
Definition field_value (kwargs : list (pystr * pystr)) (name : pystr)
  : formatted :=
  if forallb is_digit name then FormatRaises FormatIndexError
  else match alist_get kwargs name with
       | Some v => Formatted v
       | None => FormatRaises FormatKeyError
       end.

(** [field] is [None] in literal text, and inside a field it holds the
    characters of its name read so far, last first. *)
Fixpoint format_from (kwargs : list (pystr * pystr)) (field : option pystr)
    (s : pystr) : formatted :=
  match field, s with
  | None, [] => Formatted []
  | None, c :: s' =>
      if (c =? 123)%N then
        match s' with
        | d :: s'' =>
            if (d =? 123)%N then emit_char 123 (format_from kwargs None s'')
            else format_from kwargs (Some []) s'
        | [] => FormatRaises FormatValueError
        end
      else if (c =? 125)%N then
        match s' with
        | d :: s'' =>
            if (d =? 125)%N then emit_char 125 (format_from kwargs None s'')
            else FormatRaises FormatValueError
        | [] => FormatRaises FormatValueError
        end
      else emit_char c (format_from kwargs None s')
  | Some name, [] => FormatRaises FormatValueError
  | Some name, c :: s' =>
      if (c =? 125)%N then
        match field_value kwargs (rev name) with
        | Formatted v => emit_str v (format_from kwargs None s')
        | failure => failure
        end
      else if (c =? 123)%N then FormatRaises FormatValueError
      else if starts_lookup_or_spec c then NotModelled
      else format_from kwargs (Some (c :: name)) s'
  end.

(** [template.format] called with the keyword arguments [kwargs]. *)
Definition format (template : pystr) (kwargs : list (pystr * pystr))
  : formatted :=
  format_from kwargs None template.

(** *** The helper functions *)

Section Helpers.

(** [str.lower] *)
Variable lower : pystr → pystr.

Definition get_enrichment_level_config (level : pystr) : LevelConfig :=
  default config_normal (alist_get ENRICHMENT_LEVELS (lower level)).

Definition get_enrichment_prompt (level : pystr) : pystr :=
  default prompt_normal (alist_get ENRICHMENT_PROMPTS (lower level)).

Definition get_available_levels : list (pystr * LevelConfig) :=
  ENRICHMENT_LEVELS.

(** An omitted [previous_context] or [presentation_topic] is the empty
    string of the signature. *)
Definition format_prompt (level slide_text previous_context
    presentation_topic : pystr) : formatted :=
  let template := get_enrichment_prompt level in
  format template
    [ (lit "slide_text", slide_text);
      (lit "previous_context",
       if truthy previous_context then previous_context
       else lit "This is the first slide.");
      (lit "presentation_topic",
       if truthy presentation_topic then presentation_topic
       else lit "General presentation") ].

End Helpers.

(** The loop of [get_dropdown_options] over the items of
    [ENRICHMENT_LEVELS]. *)
Fixpoint options_loop (items : list (pystr * LevelConfig))
    (options : list (pystr * pystr)) : list (pystr * pystr) :=
  match items with
  | [] => options
  | (key, config) :: rest =>
      let display := name config ++ lit " - " ++ description config in
      options_loop rest (options ++ [(key, display)])
  end.

Definition get_dropdown_options : list (pystr * pystr) :=
  options_loop ENRICHMENT_LEVELS [].

End enrichment_config.

(** [str.lower] on a string of ASCII characters. *)
Definition ascii_lower (c : N) : N :=
  if ((65 <=? c) && (c <=? 90))%N then (c + 32)%N else c.

Definition is_ascii (s : pystr) : Prop := Forall (λ c, (c < 128)%N) s.

(** The keys of the two tables of the enrichment module. *)
Definition level_keys : list pystr :=
  [ lit "none"; lit "minimal"; lit "normal"; lit "detailed"; lit "academic" ].

(** ** Vocabulary of the statements *)

(** The block a shape gives to its slide: its trimmed text, when the shape
    has a text that is not blank. *)
Definition shape_block (shape : pptx_reader.Shape) : option pystr :=
  match pptx_reader.text_attr shape with
  | Some shape_text =>
      if truthy (strip shape_text) then Some (strip shape_text) else None
  | None => None
  end.

(** Whether the retry loop goes on after a response: it is left by [break]
    after a success and after an authorization failure. *)
Definition retries (v : verdict) : bool :=
  match v with
  | Narrated _ | AuthFailure => false
  | Blank | RateLimited | Failed => true
  end.

(** The sleeps that follow a call in its iteration of the retry loop: the
    backoff of a rate limit, and the pacing sleep at the end of an iteration
    that was not left by [break]. *)
Definition after_call (v : verdict) : list event :=
  match v with
  | Narrated _ | AuthFailure => []
  | RateLimited => [EvSleep (5 # 1)%Q; EvSleep (8 # 10)%Q]
  | Blank | Failed => [EvSleep (8 # 10)%Q]
  end.

(** The narration the retry loop got from the backend, if any, given the
    verdicts on the first and on the second response. *)
Definition generated (v1 v2 : verdict) : option pystr :=
  match v1 with
  | Narrated v => Some v
  | AuthFailure => None
  | Blank | RateLimited | Failed =>
      match v2 with
      | Narrated v => Some v
      | _ => None
      end
  end.

(** The events of one slide whose trimmed text is not trivial, given the two
    responses the backend has for it. *)
Definition slide_events (i total : Z) (progress_callback : bool)
    (prompt : pystr) (config : option pyfloat) (r1 r2 : response)
  : list event :=
  (if progress_callback then [EvProgress i total] else [])
  ++ EvGenerate i 1 prompt config r1
     :: after_call (classify r1)
     ++ (if retries (classify r1)
         then EvGenerate i 2 prompt config r2 :: after_call (classify r2)
         else []).

(** Counting the events of a kind in a trace. *)
Definition count (kind : event → bool) (evs : list event) : nat :=
  length (filter (λ ev, kind ev = true) evs).

Definition is_call (ev : event) : bool :=
  match ev with
  | EvGenerate _ _ _ _ _ => true
  | _ => false
  end.

Definition is_progress (ev : event) : bool :=
  match ev with
  | EvProgress _ _ => true
  | _ => false
  end.

Definition is_sleep (seconds : pyfloat) (ev : event) : bool :=
  match ev with
  | EvSleep s => Qeq_bool s seconds
  | _ => false
  end.

(** A call whose response makes the loop go on, and one whose response is a
    rate-limit error. *)
Definition is_retried_call (ev : event) : bool :=
  match ev with
  | EvGenerate _ _ _ _ r => retries (classify r)
  | _ => false
  end.

Definition is_rate_limited_call (ev : event) : bool :=
  match ev with
  | EvGenerate _ _ _ _ r =>
      match classify r with
      | RateLimited => true
      | _ => false
      end
  | _ => false
  end.

(** The world after the retry loop of a slide with trimmed text [tx], given
    the verdicts on the two responses and the states [c1] and [c2] of the
    backend after the first and the second call. *)
Definition after_attempts {B} (slide : loc) (i : Z) (tx : pystr)
    (v1 v2 : verdict) (c1 c2 : B) (w : world B) : world B :=
  {| self :=
       match generated v1 v2 with
       | Some v =>
           set_history
             (conversation_history (self w)
              ++ [{| slide_number := i; text := tx; narration := v |}])
             (self w)
       | None => self w
       end;
     heap :=
       store slide key_ai_narration (VStr (default tx (generated v1 v2)))
         (heap w);
     client := if retries v1 then c2 else c1 |}.

(** The events of the slide of index [i], whose trimmed text is [tx]: none
    when the text is trivial, and otherwise the events of its retry loop
    for some prompt and some two responses. *)
Definition segment_shape (i total : Z) (progress_callback : bool)
    (config : option pyfloat) (tx : pystr) (seg : list event) : Prop :=
  (len tx < 5 → seg = [])
  ∧ (5 ≤ len tx →
     ∃ prompt r1 r2,
       seg = slide_events i total progress_callback prompt config r1 r2).

(** What can be counted in the events of one slide. *)
Definition segment_counts (seg : list event) : Prop :=
  (count is_call seg ≤ 2)%nat
  ∧ (count is_progress seg ≤ 1)%nat
  ∧ count (is_sleep (8 # 10)%Q) seg = count is_retried_call seg
  ∧ count (is_sleep (5 # 1)%Q) seg = count is_rate_limited_call seg
  ∧ Forall (λ ev, ∀ s, ev = EvSleep s → s = (8 # 10)%Q ∨ s = (5 # 1)%Q) seg.

(** The configuration and the template that the two tables of the
    enrichment module hold for a level. *)
Definition config_of (l : enrichment_config.EnrichmentLevel)
  : enrichment_config.LevelConfig :=
  match l with
  | enrichment_config.NONE => enrichment_config.config_none
  | enrichment_config.MINIMAL => enrichment_config.config_minimal
  | enrichment_config.NORMAL => enrichment_config.config_normal
  | enrichment_config.DETAILED => enrichment_config.config_detailed
  | enrichment_config.ACADEMIC => enrichment_config.config_academic
  end.

Definition prompt_of (l : enrichment_config.EnrichmentLevel) : pystr :=
  match l with
  | enrichment_config.NONE => enrichment_config.prompt_none
  | enrichment_config.MINIMAL => enrichment_config.prompt_minimal
  | enrichment_config.NORMAL => enrichment_config.prompt_normal
  | enrichment_config.DETAILED => enrichment_config.prompt_detailed
  | enrichment_config.ACADEMIC => enrichment_config.prompt_academic
  end.

Definition all_levels : list enrichment_config.EnrichmentLevel :=
  [ enrichment_config.NONE; enrichment_config.MINIMAL;
    enrichment_config.NORMAL; enrichment_config.DETAILED;
    enrichment_config.ACADEMIC ].

(** A level allows what the level before it allows: the same additions or
    more, more extra sentences, and a temperature at least as high. *)
Definition allows_more (c1 c2 : enrichment_config.LevelConfig) : Prop :=
  (enrichment_config.add_examples c1 = true →
   enrichment_config.add_examples c2 = true)
  ∧ (enrichment_config.add_statistics c1 = true →
     enrichment_config.add_statistics c2 = true)
  ∧ (enrichment_config.add_context c1 = true →
     enrichment_config.add_context c2 = true)
  ∧ (enrichment_config.add_fun_facts c1 = true →
     enrichment_config.add_fun_facts c2 = true)
  ∧ (enrichment_config.add_sources c1 = Some true →
     enrichment_config.add_sources c2 = Some true)
  ∧ enrichment_config.max_extra_sentences c1
    < enrichment_config.max_extra_sentences c2
  ∧ (enrichment_config.temperature c1 <= enrichment_config.temperature c2)%Q.

(** The text [s] cut at the first occurrence of [needle]: what is before it
    and what is after it, if it occurs. *)
Fixpoint cut (needle s : pystr) : option (pystr * pystr) :=
  if startswith needle s then Some ([], drop (length needle) s)
  else match s with
       | [] => None
       | c :: s' =>
           match cut needle s' with
           | Some (before, after) => Some (c :: before, after)
           | None => None
           end
       end.

(** The values [format_prompt] passes for an empty context and an empty
    topic. *)
Definition context_or_default (previous_context : pystr) : pystr :=
  if truthy previous_context then previous_context
  else lit "This is the first slide.".

Definition topic_or_default (presentation_topic : pystr) : pystr :=
  if truthy presentation_topic then presentation_topic
  else lit "General presentation".

(** A text without braces. *)
Definition brace_free (s : pystr) : bool :=
  forallb (λ c, negb (c =? 123)%N && negb (c =? 125)%N) s.

(** The pieces of a template around its fields: the text before
    [{slide_text}], and what follows it, cut at [{previous_context}] and at
    [{presentation_topic}] when the template has them. *)
Definition pieces (template : pystr)
  : pystr * pystr * pystr * pystr * bool * bool :=
  match cut (lit "{slide_text}") template with
  | None => (template, [], [], [], false, false)
  | Some (a, rest) =>
      match cut (lit "{previous_context}") rest with
      | None => (a, rest, [], [], false, false)
      | Some (b, rest') =>
          match cut (lit "{presentation_topic}") rest' with
          | None => (a, b, rest', [], true, false)
          | Some (c, d) => (a, b, c, d, true, true)
          end
      end
  end.

(** The values of the model that have no [strip] method: [None], an [int],
    and a list or a dictionary.  Every other kind of Python value ([bytes],
    for one, which has a [strip] of its own) is outside [pyval]. *)
Definition has_no_strip (h : gmap loc pyobj) (v : pyval) : Prop :=
  match v with
  | VNone | VInt _ => True
  | VStr _ => False
  | VRef l => is_Some (h !! l)
  end.

(** A slide outside the input type of the pass: a list where a dictionary is
    expected (a list has no [get]), or a dictionary whose [text] is one of
    the values above. *)
Definition ill_typed_slide (h : gmap loc pyobj) (slide : loc) : Prop :=
  match h !! slide with
  | Some (OList _) => True
  | Some (ODict d) => ∃ v, d !! key_text = Some v ∧ has_no_strip h v
  | None => False
  end.

(** ** Samples for the modules around the narrator *)

Definition text_box (t : pystr) : pptx_reader.Shape :=
  {| pptx_reader.text_attr := Some t |}.

Definition picture : pptx_reader.Shape := {| pptx_reader.text_attr := None |}.

(** A presentation of four slides: a title with a picture and an empty text
    box, a slide with two text boxes, a slide without text, and the last
    slide. *)
Definition sample_presentation : pptx_reader.presentation :=
  {| pptx_reader.slides :=
       [ {| pptx_reader.shapes :=
              [text_box (lit " Intro to Topic "); picture; text_box (lit "  ")] |};
         {| pptx_reader.shapes :=
              [ text_box (lit "Topic has grown 40% since 2020");
                text_box (lit " Source: annual report ") ] |};
         {| pptx_reader.shapes := [picture] |};
         {| pptx_reader.shapes := [text_box (lit "Thank you")] |} ] |}.

(** A file system with that presentation in one file. *)
Definition sample_files (file_path : pystr)
  : pptx_reader.outcome pptx_reader.presentation :=
  if bool_decide (file_path = lit "deck.pptx")
  then pptx_reader.Returns sample_presentation
  else pptx_reader.RaisesException
         (lit "Package not found at '" ++ file_path ++ lit "'").

Definition sample_records : list pptx_reader.SlideData :=
  match pptx_reader.extract_text_from_pptx sample_files (lit "deck.pptx") with
  | pptx_reader.Returns records => records
  | pptx_reader.RaisesException _ => []
  end.

(** The deck of the sample deck with the text of its second slide replaced
    by [None]. *)
Definition broken_heap : gmap loc pyobj :=
  <[3%positive := ODict {[ key_text := VNone ]}]> (deck_heap sample_texts).

(** A configuration file, and an environment that gives one of the keys. *)
Definition sample_config : list config_line :=
  [ Comment (lit " keys of the team");
    BlankLine;
    Assignment (lit "DEEPL_API_KEY") (lit "d-123");
    Assignment (lit " GOOGLE_API_KEY ") (lit "  g-456=  ");
    Assignment (lit "GOOGLE_API_KEY") (lit "g-789") ].

Definition sample_environ : gmap pystr pystr :=
  {[ lit "DEEPL_API_KEY" := lit "d-000" ]}.

Definition sample_paths (file_name : pystr) : config.path_state :=
  if bool_decide (file_name = lit "team.env")
  then config.TextFile (render_lines sample_config)
  else config.Missing.
(** * Properties *)

(** ** Strings and slices *)

Lemma slice_tail_length {A} (n : nat) (l : list A) :
  (length (slice_tail n l) ≤ n)%nat.
Proof. unfold slice_tail. rewrite length_drop. lia. Qed.

Lemma slice_tail_suffix {A} (n : nat) (l : list A) :
  slice_tail n l `suffix_of` l.
Proof. apply suffix_drop. Qed.

Lemma slice_head_prefix {A} (n : nat) (l : list A) :
  slice_head n l `prefix_of` l.
Proof. apply prefix_take. Qed.

Lemma slice_head_length {A} (n : nat) (l : list A) :
  (length (slice_head n l) ≤ n)%nat.
Proof. unfold slice_head. rewrite length_take. lia. Qed.

Lemma occurs_in_here (needle rest : pystr) : occurs_in needle (needle ++ rest).
Proof. by exists [], rest. Qed.

Lemma occurs_in_skip (needle skipped s : pystr) :
  occurs_in needle s → occurs_in needle (skipped ++ s).
Proof.
  intros (before & after & ->).
  exists (skipped ++ before), after. by rewrite <- app_assoc.
Qed.

Ltac find_occurrence :=
  repeat first [ apply occurs_in_here | apply occurs_in_skip ].

Lemma body_context_join (history : list ContextEntry) :
  body_context history = join nl (context_items history).
Proof. by destruct history. Qed.

(** ** The prompt builder *)

Lemma select_template_cases (n total : Z) :
  1 ≤ n →
  select_template n total =
    if n =? 1 then Opener else if n =? total then Closer else Body.
Proof.
  intros Hn. unfold select_template.
  destruct (Z.eqb_spec n 1) as [|Hne]; [done|].
  destruct (Z.eqb_spec n total) as [<-|]; [|done].
  assert ((1 <? n) = true) as -> by (apply Z.ltb_lt; lia). done.
Qed.

(** C8. The builder picks its template from the position alone: for a slide
    number of at least 1, the prompt is the opener when the slide is the
    first (also in a deck of one slide), the closer when it is the last slide
    of a deck of more than one slide, and the body otherwise; the first
    sentence of the prompt shows which of the three it is. *)
Theorem build_prompt_selects_by_position (self : AITeacherNarrator)
    (slide_text : pystr) (slide_number total_slides : Z) (is_title : bool) :
  1 ≤ slide_number →
  let chosen := select_template slide_number total_slides in
  let prompt :=
    _build_context_aware_prompt self slide_text slide_number total_slides
      is_title in
  prompt = instantiate chosen self slide_text slide_number total_slides
  ∧ template_of prompt = Some chosen
  ∧ (slide_number = 1 → chosen = Opener)
  ∧ (slide_number = total_slides → 1 < total_slides → chosen = Closer)
  ∧ (slide_number ≠ 1 → slide_number ≠ total_slides → chosen = Body).
Proof.
  intros Hn chosen prompt. subst chosen prompt.
  rewrite select_template_cases by done.
  unfold _build_context_aware_prompt.
  destruct (Z.eqb_spec slide_number 1) as [->|H1].
  - repeat split; try done.
    intros <-. lia.
  - destruct (Z.eqb_spec slide_number total_slides) as [->|H2];
      repeat split; done.
Qed.

Lemma build_prompt_selects_by_position_witness :
  let self := default_narrator in
  1 ≤ 1
  ∧ template_of (_build_context_aware_prompt self (lit "Only slide") 1 1 true)
    = Some Opener
  ∧ template_of (_build_context_aware_prompt self (lit "Thank you") 3 3 true)
    = Some Closer.
Proof.
  split; [lia|].
  split.
  - apply (build_prompt_selects_by_position default_narrator
             (lit "Only slide") 1 1 true). lia.
  - apply (build_prompt_selects_by_position default_narrator
             (lit "Thank you") 3 3 true). lia.
Defined.

(** C7. In a deck of more than one slide the prompt of the last slide is the
    closer: it asks for the exact sign-off, forbids the greeting, and carries
    the first 100 characters of the narration of the last context entry (the
    most recent successful generation) when there is one. *)
Theorem closer_prompt_sign_off (self : AITeacherNarrator)
    (slide_text : pystr) (total_slides : Z) (is_title : bool) :
  1 < total_slides →
  let prompt :=
    _build_context_aware_prompt self slide_text total_slides total_slides
      is_title in
  template_of prompt = Some Closer
  ∧ occurs_in
      (lit "3. End with this exact sign-off: 'Thank you for your attention, and I will see you next week.'")
      prompt
  ∧ occurs_in (lit "2. Do NOT say 'Good morning' or introduce yourself.")
      prompt
  ∧ (∀ last_slide,
       last (conversation_history self) = Some last_slide →
       occurs_in
         (lit "Previous slide discussed: "
          ++ take 100 (narration last_slide) ++ lit "...")
         prompt)
  ∧ (conversation_history self = [] →
     occurs_in (lit "Context from previous slide: " ++ nl) prompt).
Proof.
  intros Htotal prompt. subst prompt.
  unfold _build_context_aware_prompt.
  destruct (Z.eqb_spec total_slides 1) as [->|_]; [lia|].
  rewrite Z.eqb_refl.
  unfold closer_prompt, sign_off_instruction, no_greeting_instruction.
  split; [done|].
  split; [find_occurrence|].
  split; [find_occurrence|].
  split.
  - intros last_slide Hlast. unfold closer_context. rewrite Hlast.
    unfold slice_head. find_occurrence.
  - intros Hnil. rewrite Hnil. unfold closer_context. simpl last.
    rewrite app_nil_l. do 2 apply occurs_in_skip.
    rewrite (app_assoc (lit "Context from previous slide: ") nl).
    apply occurs_in_here.
Qed.

Lemma closer_prompt_sign_off_witness :
  1 < 3
  ∧ occurs_in
      (lit "3. End with this exact sign-off: 'Thank you for your attention, and I will see you next week.'")
      (_build_context_aware_prompt default_narrator (lit "Thank you") 3 3
         true).
Proof.
  split; [lia|].
  apply (closer_prompt_sign_off default_narrator (lit "Thank you") 3 true).
  lia.
Defined.

(** The body prompt, spelled out: the previous context is one line for each
    of the last two entries of the history, and each line ends with the last
    150 characters of that entry's narration. *)
Lemma body_prompt_context (self : AITeacherNarrator) (slide_text : pystr)
    (slide_number total_slides : Z) (is_title : bool) :
  slide_number ≠ 1 → slide_number ≠ total_slides →
  let recent := slice_tail 2 (conversation_history self) in
  _build_context_aware_prompt self slide_text slide_number total_slides
    is_title
  = body_prompt slide_text slide_number total_slides
      (join nl (map context_item recent))
      (prompt_style (_get_style_config (style self)))
  ∧ (length recent ≤ 2)%nat
  ∧ recent `suffix_of` conversation_history self.
Proof.
  intros H1 H2 recent. unfold _build_context_aware_prompt.
  destruct (Z.eqb_spec slide_number 1); [done|].
  destruct (Z.eqb_spec slide_number total_slides); [done|].
  rewrite body_context_join.
  split; [done|]. split.
  - apply slice_tail_length.
  - apply slice_tail_suffix.
Qed.

Lemma context_item_tail (prev_slide : ContextEntry) :
  let tail := slice_tail 150 (narration prev_slide) in
  context_item prev_slide
  = lit "Slide " ++ str_of_int (slide_number prev_slide)
    ++ lit " ended with: ..." ++ tail
  ∧ (length tail ≤ 150)%nat
  ∧ tail `suffix_of` narration prev_slide.
Proof.
  split; [done|]. split.
  - apply slice_tail_length.
  - apply slice_tail_suffix.
Qed.

(** ** The heap *)

Lemma key_text_ne_narration : key_text ≠ key_ai_narration.
Proof. done. Qed.

Lemma store_lookup_ne (slide l : loc) key v (h : gmap loc pyobj) :
  l ≠ slide → store slide key v h !! l = h !! l.
Proof. intros. unfold store. by rewrite lookup_alter_ne. Qed.

Lemma store_lookup_dict (slide : loc) key v (h : gmap loc pyobj) d :
  h !! slide = Some (ODict d) →
  store slide key v h !! slide = Some (ODict (<[key := v]> d)).
Proof. intros Hd. unfold store. by rewrite lookup_alter_eq, Hd. Qed.

Lemma store_lookup_list (slide l : loc) key v (h : gmap loc pyobj) items :
  h !! l = Some (OList items) → store slide key v h !! l = Some (OList items).
Proof.
  intros Hl. unfold store. destruct (decide (l = slide)) as [->|].
  - by rewrite lookup_alter_eq, Hl.
  - by rewrite lookup_alter_ne.
Qed.

Lemma heap_frame_refl h : heap_frame h h.
Proof. intros l. destruct (h !! l) as [[d|]|]; eauto. Qed.

Lemma heap_frame_trans h1 h2 h3 :
  heap_frame h1 h2 → heap_frame h2 h3 → heap_frame h1 h3.
Proof.
  intros H12 H23 l. specialize (H12 l). specialize (H23 l).
  destruct (h1 !! l) as [[d|items]|].
  - destruct H12 as (d2 & Hd2 & Hsame). rewrite Hd2 in H23.
    destruct H23 as (d3 & Hd3 & Hsame'). exists d3. split; [done|].
    intros key Hkey. by rewrite Hsame', Hsame.
  - by rewrite H12 in H23.
  - by rewrite H12 in H23.
Qed.

Lemma heap_frame_store slide v h :
  heap_frame h (store slide key_ai_narration v h).
Proof.
  intros l. destruct (decide (l = slide)) as [->|Hne].
  - destruct (h !! slide) as [[d|items]|] eqn:Hl.
    + exists (<[key_ai_narration := v]> d). split.
      * by apply store_lookup_dict.
      * intros key Hkey. by rewrite lookup_insert_ne.
    + by apply store_lookup_list.
    + unfold store. by rewrite lookup_alter_eq, Hl.
  - rewrite store_lookup_ne by done. apply heap_frame_refl.
Qed.

Lemma heap_frame_slide_text h h' slide :
  heap_frame h h' → slide_text h' slide = slide_text h slide.
Proof.
  intros Hf. specialize (Hf slide). unfold slide_text.
  destruct (h !! slide) as [[d|items]|].
  - destruct Hf as (d' & -> & Hsame).
    by rewrite (Hsame key_text key_text_ne_narration).
  - by rewrite Hf.
  - by rewrite Hf.
Qed.

Lemma heap_frame_field h h' slide key :
  heap_frame h h' → key ≠ key_ai_narration →
  slide_field h' slide key = slide_field h slide key.
Proof.
  intros Hf Hkey. specialize (Hf slide). unfold slide_field.
  destruct (h !! slide) as [[d|items]|].
  - destruct Hf as (d' & -> & Hsame). by apply Hsame.
  - by rewrite Hf.
  - by rewrite Hf.
Qed.

Lemma heap_frame_list h h' l items :
  heap_frame h h' → h !! l = Some (OList items) → h' !! l = Some (OList items).
Proof. intros Hf Hl. specialize (Hf l). by rewrite Hl in Hf. Qed.

Lemma slide_text_is_dict h slide t :
  slide_text h slide = Some t → ∃ d, h !! slide = Some (ODict d).
Proof.
  unfold slide_text. destruct (h !! slide) as [[d|]|]; [eauto|done|done].
Qed.

Lemma store_narration_field h slide v t :
  slide_text h slide = Some t →
  slide_field (store slide key_ai_narration (VStr v) h) slide key_ai_narration
  = Some (VStr v).
Proof.
  intros (d & Hd)%slide_text_is_dict. unfold slide_field.
  rewrite (store_lookup_dict _ _ _ _ _ Hd). by rewrite lookup_insert_eq.
Qed.

Lemma store_other_field h slide l v key :
  l ≠ slide →
  slide_field (store slide key_ai_narration v h) l key = slide_field h l key.
Proof. intros Hne. unfold slide_field. by rewrite store_lookup_ne. Qed.

(** ** Substrings and the classes of responses *)

(** [contains] is the substring test. *)
Lemma startswith_app (prefix rest : pystr) :
  startswith prefix (prefix ++ rest) = true.
Proof.
  induction prefix as [|c prefix IH]; [done|].
  simpl. by rewrite N.eqb_refl, IH.
Qed.

Lemma startswith_inv (prefix s : pystr) :
  startswith prefix s = true → ∃ rest, s = prefix ++ rest.
Proof.
  revert s. induction prefix as [|c prefix IH]; intros s Hs.
  - by exists s.
  - destruct s as [|d s]; [done|]. simpl in Hs.
    apply andb_prop in Hs as [Hc Hs]. apply N.eqb_eq in Hc as ->.
    destruct (IH s Hs) as [rest ->]. by exists rest.
Qed.

Lemma contains_unfold (needle s : pystr) :
  contains needle s
  = startswith needle s
    || match s with [] => false | _ :: s' => contains needle s' end.
Proof. by destruct s. Qed.

Lemma contains_occurs (needle s : pystr) :
  contains needle s = true ↔ occurs_in needle s.
Proof.
  split.
  - induction s as [|c s IH]; rewrite contains_unfold; intros Hc.
    + rewrite orb_false_r in Hc.
      destruct (startswith_inv _ _ Hc) as [rest Hrest]. by exists [], rest.
    + apply orb_prop in Hc as [Hc|Hc].
      * destruct (startswith_inv _ _ Hc) as [rest Hrest]. by exists [], rest.
      * destruct (IH Hc) as (before & after & ->).
        by exists (c :: before), after.
  - intros (before & after & ->).
    induction before as [|c before IH]; rewrite contains_unfold.
    + simpl. by rewrite startswith_app.
    + simpl. rewrite IH. apply orb_true_r.
Qed.

Lemma non_blank_strip (narration : option pystr) :
  non_blank narration = true → strip (default [] narration) ≠ [].
Proof.
  destruct narration as [[|c s]|]; simpl; try done.
  by destruct (strip (c :: s)).
Qed.

Lemma blank_response_classify (r : response) :
  blank_response r → classify r = Blank.
Proof.
  destruct r as [[s|]|error_msg]; simpl; try done.
  intros Hblank. destruct s as [|c s]; [done|]. by rewrite Hblank.
Qed.

Lemma auth_error_classify (error_msg : pystr) :
  occurs_in (lit "403") error_msg
  ∨ occurs_in (lit "PERMISSION_DENIED") error_msg →
  classify (Raises error_msg) = AuthFailure.
Proof.
  intros Hauth. simpl.
  assert (is_auth_error error_msg = true) as ->; [|done].
  unfold is_auth_error. apply orb_true_iff.
  destruct Hauth as [H|H]; [left|right]; by apply contains_occurs.
Qed.

Lemma classify_narrated (r : response) (v : pystr) :
  classify r = Narrated v → v ≠ [].
Proof.
  destruct r as [narration|error_msg]; simpl.
  - destruct (non_blank narration) eqn:Hnb; [|done].
    intros [= <-]. by apply non_blank_strip.
  - destruct (is_auth_error error_msg); [done|].
    by destruct (is_rate_limit error_msg).
Qed.

(** ** Traces *)

Lemma success_of_classify i attempt prompt config r :
  success_of (EvGenerate i attempt prompt config r)
  = match classify r with Narrated v => Some (i, v) | _ => None end.
Proof.
  destruct r as [narration|error_msg]; simpl.
  - by destruct (non_blank narration).
  - destruct (is_auth_error error_msg); [done|].
    by destruct (is_rate_limit error_msg).
Qed.

Lemma successes_call i attempt prompt config r evs :
  successes (EvGenerate i attempt prompt config r :: evs)
  = match classify r with
    | Narrated v => (i, v) :: successes evs
    | _ => successes evs
    end.
Proof.
  unfold successes.
  change (omap success_of (EvGenerate i attempt prompt config r :: evs))
    with (match success_of (EvGenerate i attempt prompt config r) with
          | Some y => y :: omap success_of evs
          | None => omap success_of evs
          end).
  rewrite success_of_classify. by destruct (classify r).
Qed.

Lemma successes_sleep seconds evs :
  successes (EvSleep seconds :: evs) = successes evs.
Proof. done. Qed.

Lemma successes_progress i total evs :
  successes (EvProgress i total :: evs) = successes evs.
Proof. done. Qed.

Lemma successes_app evs1 evs2 :
  successes (evs1 ++ evs2) = successes evs1 ++ successes evs2.
Proof. apply omap_app. Qed.

Lemma success_in_trace i v evs :
  (i, v) ∈ successes evs →
  ∃ attempt prompt config r, EvGenerate i attempt prompt config r ∈ evs.
Proof.
  intros (ev & Hin & Hsucc)%list_elem_of_omap.
  destruct ev as [| j attempt p c [narration|]|]; simpl in Hsucc; try done.
  destruct (non_blank narration); [|done].
  injection Hsucc as -> _. eauto.
Qed.

Lemma calls_for_none i evs :
  (∀ ev, ev ∈ evs → is_call_for i ev = false) → calls_for i evs = [].
Proof.
  induction evs as [|ev evs IH]; intros Hnone; [done|].
  unfold calls_for. rewrite filter_cons.
  rewrite (Hnone ev) by left.
  destruct (decide (false = true)); [done|].
  apply IH. intros ev' Hin. apply Hnone. by right.
Qed.

Lemma calls_for_call i attempt prompt config r evs :
  calls_for i (EvGenerate i attempt prompt config r :: evs)
  = EvGenerate i attempt prompt config r :: calls_for i evs.
Proof.
  unfold calls_for. rewrite filter_cons. simpl.
  rewrite bool_decide_eq_true_2 by done.
  by destruct (decide (true = true)).
Qed.

Lemma calls_for_other i ev evs :
  is_call_for i ev = false → calls_for i (ev :: evs) = calls_for i evs.
Proof.
  intros Hev. unfold calls_for. rewrite filter_cons, Hev.
  by destruct (decide (false = true)).
Qed.

Lemma calls_for_app i evs1 evs2 :
  calls_for i (evs1 ++ evs2) = calls_for i evs1 ++ calls_for i evs2.
Proof. apply filter_app. Qed.

(** ** Histories and positions *)

Lemma set_history_self s : set_history (conversation_history s) s = s.
Proof. by destruct s. Qed.

Lemma set_history_congr h s1 s2 :
  temperature s1 = temperature s2 → style s1 = style s2 →
  set_history h s1 = set_history h s2.
Proof. unfold set_history. by intros -> ->. Qed.

Lemma filter_before_none (i : Z) (l : list ContextEntry) :
  Forall (λ e, i ≤ slide_number e) l →
  filter (λ e, slide_number e < i) l = [].
Proof.
  induction 1 as [|e l He _ IH]; [done|].
  rewrite filter_cons. destruct (decide (slide_number e < i)); [lia|done].
Qed.

Lemma filter_before_all (i : Z) (l : list ContextEntry) :
  Forall (λ e, slide_number e < i) l →
  filter (λ e, slide_number e < i) l = l.
Proof.
  induction 1 as [|e l He _ IH]; [done|].
  rewrite filter_cons. destruct (decide (slide_number e < i)); [|lia].
  by rewrite IH.
Qed.

Lemma position_shift {A} (s : A) (rest : list A) (i0 n : Z) x :
  i0 + 1 ≤ n →
  rest !! Z.to_nat (n - (i0 + 1)) = Some x →
  (s :: rest) !! Z.to_nat (n - i0) = Some x.
Proof.
  intros Hn Hx.
  replace (Z.to_nat (n - i0)) with (S (Z.to_nat (n - (i0 + 1)))) by lia.
  done.
Qed.

Lemma position_first {A} (s : A) (rest : list A) (i0 : Z) :
  (s :: rest) !! Z.to_nat (i0 - i0) = Some s.
Proof. by rewrite Z.sub_diag. Qed.

(** ** The retry loop and the loop body *)

Section RunProperties.

Context {B : Type}.
Variable SDK_VERSION : sdk_version.
Variable generate_content : B → pystr → option pyfloat → response * B.

Local Arguments attempt_body : simpl never.
Local Arguments successes : simpl never.

Lemma bind_run {A C} (m : M B A) (k : A → M B C) w a w1 e1 :
  m w = (Return a, w1, e1) →
  (m ≫= k) w = match k a w1 with (r, w2, e2) => (r, w2, e1 ++ e2) end.
Proof. intros Hm. unfold mbind, M_bind. by rewrite Hm. Qed.

Lemma call_config_congr s1 s2 :
  temperature s1 = temperature s2 →
  call_config SDK_VERSION s1 = call_config SDK_VERSION s2.
Proof. unfold call_config. by intros ->. Qed.

(** One iteration of the retry loop, by the class of the response. *)
Lemma attempt_body_run attempt slide i total tx prompt w r c :
  generate_content (client w) prompt (call_config SDK_VERSION (self w))
  = (r, c) →
  attempt_body SDK_VERSION generate_content attempt slide i total tx prompt w
  = let ev :=
      EvGenerate i attempt prompt (call_config SDK_VERSION (self w)) r in
    let fallback :=
      if attempt =? 2 then store slide key_ai_narration (VStr tx) (heap w)
      else heap w in
    match classify r with
    | Narrated v =>
        (Return Break,
         {| self :=
              set_history
                (conversation_history (self w)
                 ++ [{| slide_number := i; text := tx; narration := v |}])
                (self w);
            heap := store slide key_ai_narration (VStr v) (heap w);
            client := c |},
         [ev])
    | AuthFailure =>
        (Return Break,
         with_heap (store slide key_ai_narration (VStr tx) (heap w)) c w,
         [ev])
    | RateLimited =>
        (Return Fallthrough, with_heap fallback c w, [ev; EvSleep (5 # 1)%Q])
    | Blank | Failed => (Return Fallthrough, with_heap fallback c w, [ev])
    end.
Proof.
  intros Hg.
  unfold attempt_body, generate, mbind, M_bind. rewrite Hg.
  unfold classify, with_heap.
  destruct r as [narration|error_msg].
  - destruct (non_blank narration); [done|].
    by destruct (attempt =? 2).
  - destruct (is_auth_error error_msg); [done|].
    destruct (is_rate_limit error_msg); by destruct (attempt =? 2).
Qed.

Ltac solve_attempts_post Hc1 Hc2 :=
  unfold attempts_post; simpl;
  repeat first [ rewrite successes_call | rewrite successes_sleep
               | rewrite Hc1 | rewrite Hc2 ];
  change (successes []) with (@nil (Z * pystr));
  split; [done|]; split; [done|];
  split;
  [ repeat (constructor; [simpl; repeat split; auto|]); constructor
  | first [ left; done
          | right; eexists; split;
            [ first [ eapply classify_narrated, Hc1
                    | eapply classify_narrated, Hc2 ]
            | done ] ] ].

Lemma attempt_loop_post slide i total tx prompt w :
  ∃ w' evs,
    attempt_loop SDK_VERSION generate_content [1; 2] slide i total tx prompt w
    = (Return tt, w', evs)
    ∧ attempts_post SDK_VERSION slide i total tx prompt w w' evs.
Proof.
  destruct (generate_content (client w) prompt
              (call_config SDK_VERSION (self w))) as [r1 c1] eqn:Hg1.
  destruct (generate_content c1 prompt (call_config SDK_VERSION (self w)))
    as [r2 c2] eqn:Hg2.
  unfold attempt_loop, mbind, M_bind.
  rewrite (attempt_body_run _ _ _ _ _ _ _ _ _ Hg1).
  destruct (classify r1) eqn:Hc1; simpl;
    try (eexists _, _; split; [reflexivity|];
         solve_attempts_post Hc1 Hc1; fail).
  all: erewrite attempt_body_run by exact Hg2.
  all: destruct (classify r2) eqn:Hc2; simpl.
  all: eexists _, _; (split; [reflexivity|]).
  all: solve_attempts_post Hc1 Hc2.
Qed.

(** When both responses are blank the loop makes its two calls, each followed
    by the pacing sleep, and stores the text. *)
Lemma attempt_loop_blank slide i total tx prompt w r1 c1 r2 c2 :
  let config := call_config SDK_VERSION (self w) in
  generate_content (client w) prompt config = (r1, c1) →
  generate_content c1 prompt config = (r2, c2) →
  classify r1 = Blank → classify r2 = Blank →
  attempt_loop SDK_VERSION generate_content [1; 2] slide i total tx prompt w
  = (Return tt,
     with_heap (store slide key_ai_narration (VStr tx) (heap w)) c2 w,
     [EvGenerate i 1 prompt config r1; EvSleep (8 # 10)%Q;
      EvGenerate i 2 prompt config r2; EvSleep (8 # 10)%Q]).
Proof.
  intros config Hg1 Hg2 Hc1 Hc2.
  unfold attempt_loop, mbind, M_bind.
  rewrite (attempt_body_run _ _ _ _ _ _ _ _ _ Hg1), Hc1. simpl.
  erewrite attempt_body_run by exact Hg2. by rewrite Hc2.
Qed.

(** When the first response is an authorization failure the loop stops after
    its first call, without sleeping, and stores the text. *)
Lemma attempt_loop_auth slide i total tx prompt w r1 c1 :
  let config := call_config SDK_VERSION (self w) in
  generate_content (client w) prompt config = (r1, c1) →
  classify r1 = AuthFailure →
  attempt_loop SDK_VERSION generate_content [1; 2] slide i total tx prompt w
  = (Return tt,
     with_heap (store slide key_ai_narration (VStr tx) (heap w)) c1 w,
     [EvGenerate i 1 prompt config r1]).
Proof.
  intros config Hg1 Hc1.
  unfold attempt_loop, mbind, M_bind.
  by rewrite (attempt_body_run _ _ _ _ _ _ _ _ _ Hg1), Hc1.
Qed.

Lemma dict_get_text slide t (w : world B) :
  slide_text (heap w) slide = Some t →
  dict_get slide key_text (VStr []) w = (Return (VStr t), w, []).
Proof.
  unfold slide_text, dict_get.
  destruct (heap w !! slide) as [[d|]|]; [|done|done].
  destruct (d !! key_text) as [[]|]; simpl; congruence.
Qed.

(** The loop body on a slide that is not trivial: the progress notification,
    then the retry loop on the prompt built from the current history. *)
Lemma narrate_slide_nontrivial slide i total progress_callback t w :
  slide_text (heap w) slide = Some t →
  5 ≤ len (strip t) →
  narrate_slide SDK_VERSION generate_content i total progress_callback slide w
  = match
      attempt_loop SDK_VERSION generate_content [1; 2] slide i total (strip t)
        (_build_context_aware_prompt (self w) (strip t) i total
           ((i =? 1) || (len (split (strip t)) <? 15))) w
    with
    | (r, w', evs) =>
        (r, w', (if progress_callback then [EvProgress i total] else []) ++ evs)
    end.
Proof.
  intros Ht Hlong. unfold narrate_slide.
  erewrite bind_run by (by apply dict_get_text).
  erewrite bind_run by reflexivity.
  destruct (Z.ltb_spec (len (strip t)) 5) as [Hshort|_]; [lia|].
  destruct progress_callback.
  - erewrite bind_run by reflexivity.
    erewrite bind_run by reflexivity.
    by destruct (attempt_loop _ _ _ _ _ _ _ _ _) as [[r w'] evs].
  - erewrite bind_run by reflexivity.
    erewrite bind_run by reflexivity.
    by destruct (attempt_loop _ _ _ _ _ _ _ _ _) as [[r w'] evs].
Qed.

Lemma narrate_slide_trivial slide i total progress_callback t w :
  slide_text (heap w) slide = Some t →
  len (strip t) < 5 →
  narrate_slide SDK_VERSION generate_content i total progress_callback slide w
  = (Return tt,
     with_heap (store slide key_ai_narration (VStr (strip t)) (heap w))
       (client w) w,
     []).
Proof.
  intros Ht Hshort. unfold narrate_slide.
  erewrite bind_run by (by apply dict_get_text).
  erewrite bind_run by reflexivity.
  by destruct (Z.ltb_spec (len (strip t)) 5) as [_|Hlong]; [|lia].
Qed.

Lemma narrate_slide_post slide i total progress_callback t w :
  slide_text (heap w) slide = Some t →
  ∃ w' evs,
    narrate_slide SDK_VERSION generate_content i total progress_callback
      slide w
    = (Return tt, w', evs)
    ∧ slide_post SDK_VERSION slide i total t w w' evs.
Proof.
  intros Ht.
  destruct (Z.lt_ge_cases (len (strip t)) 5) as [Hshort|Hlong].
  - rewrite (narrate_slide_trivial _ _ _ _ _ _ Ht Hshort).
    eexists _, _. split; [reflexivity|].
    unfold slide_post. simpl. split_and!; try done. by left.
  - rewrite (narrate_slide_nontrivial _ _ _ _ _ _ Ht Hlong).
    destruct (attempt_loop_post slide i total (strip t)
                (_build_context_aware_prompt (self w) (strip t) i total
                   ((i =? 1) || (len (split (strip t)) <? 15))) w)
      as (w' & evs & -> & Htemp & Hstyle & Hevs & Hout).
    eexists _, _. split; [reflexivity|].
    unfold slide_post. simpl.
    split; [done|]. split; [done|]. split.
    { destruct progress_callback; [constructor; [done|]|]; exact Hevs. }
    split; [lia|].
    assert (successes
              ((if progress_callback then [EvProgress i total] else [])
               ++ evs) = successes evs) as ->.
    { by destruct progress_callback. }
    destruct Hout as [?|(v & ? & ?)]; [by left|right; eauto].
Qed.

(** The two outcomes of a slide, told together. *)
Lemma slide_post_uniform slide i total t (w w' : world B) evs :
  slide_post SDK_VERSION slide i total t w w' evs →
  ∃ new v,
    conversation_history (self w') = conversation_history (self w) ++ new
    ∧ map entry_key new = successes evs
    ∧ heap w' = store slide key_ai_narration (VStr v) (heap w)
    ∧ Forall (λ e, slide_number e = i ∧ text e = strip t
                   ∧ 5 ≤ len (strip t)) new
    ∧ (v = strip t ∨ (i, v) ∈ successes evs).
Proof.
  intros (_ & _ & _ & _
          & [(Hs & Hh & Hheap)|(v & _ & Hlen & Hs & Hh & Hheap)]).
  - exists [], (strip t). rewrite Hs, Hh, app_nil_r.
    split_and!; auto.
  - eexists [_], v. rewrite Hs. repeat split; try done.
    + by repeat constructor.
    + right. by left.
Qed.

(** ** The loop over the slides *)

Lemma slides_loop_post slides : ∀ i0 total progress_callback (w : world B),
  Forall (λ slide, is_Some (slide_text (heap w) slide)) slides →
  ∃ w' evs,
    slides_loop SDK_VERSION generate_content i0 total progress_callback
      slides w
    = (Return tt, w', evs)
    ∧ loop_post SDK_VERSION i0 total slides w w' evs.
Proof.
  induction slides as [|s rest IH]; intros i0 total cb w Htyped.
  - exists w, []. split; [done|]. exists [].
    rewrite app_nil_r. split_and!; try done.
    + apply heap_frame_refl.
    + intros slide t Hin. by apply elem_of_nil in Hin.
  - apply Forall_cons in Htyped as [[t Ht] Hrest].
    destruct (narrate_slide_post s i0 total cb t w Ht)
      as (w1 & e1 & Hstep & Hpost1).
    pose proof Hpost1 as (Htemp1 & Hstyle1 & Hev1 & Htriv1 & _).
    apply slide_post_uniform in Hpost1
      as (new1 & v1 & Hhist1 & Hkeys1 & Hheap1 & Hent1 & Hv1).
    assert (heap_frame (heap w) (heap w1)) as Hframe1.
    { rewrite Hheap1. apply heap_frame_store. }
    assert (Forall (λ slide, is_Some (slide_text (heap w1) slide)) rest)
      as Hrest1.
    { eapply Forall_impl; [exact Hrest|]. intros x Hx.
      by rewrite (heap_frame_slide_text _ _ _ Hframe1). }
    destruct (IH (i0 + 1) total cb w1 Hrest1)
      as (w' & e2 & Hloop & new2 & Htemp2 & Hstyle2 & Hframe2 & Hout2
          & Hhist2 & Hkeys2 & Hent2 & Hcalls2 & Hnarr2).
    exists w', (e1 ++ e2). split.
    { simpl. erewrite bind_run by exact Hstep. by rewrite Hloop. }
    assert (Forall (λ e, i0 ≤ slide_number e) (new1 ++ new2)) as Hge.
    { apply Forall_app. split.
      - eapply Forall_impl; [exact Hent1|]. intros e (-> & _). lia.
      - eapply Forall_impl; [exact Hent2|]. intros e (He & _). lia. }
    exists (new1 ++ new2). split_and!.
    + by rewrite Htemp2.
    + by rewrite Hstyle2.
    + by apply (heap_frame_trans _ (heap w1)).
    + intros l Hl. apply not_elem_of_cons in Hl as [Hne Hl].
      rewrite Hout2 by done. rewrite Hheap1. by apply store_lookup_ne.
    + by rewrite Hhist2, Hhist1, app_assoc.
    + by rewrite map_app, successes_app, Hkeys1, Hkeys2.
    + apply Forall_app. split.
      * eapply Forall_impl; [exact Hent1|].
        intros e (Hnum & Htext & Hlen). split; [lia|].
        exists s, t. rewrite Hnum. by rewrite position_first.
      * eapply Forall_impl; [exact Hent2|].
        intros e (Hnum & slide & t' & Hpos & Ht' & Htext & Hlen).
        split; [lia|]. exists slide, t'. split_and!; try done.
        -- by apply position_shift.
        -- by rewrite <- (heap_frame_slide_text _ _ _ Hframe1).
    + apply Forall_app. split.
      * destruct (decide (len (strip t) < 5)) as [Hshort|Hlong].
        { rewrite (Htriv1 Hshort). constructor. }
        eapply Forall_impl; [exact Hev1|].
        intros [j tot|j attempt p c r|seconds]; try done.
        intros (-> & Hattempt & -> & ->).
        split; [lia|]. split; [done|]. split; [done|].
        exists s, t, ((i0 =? 1) || (len (split (strip t)) <? 15)).
        rewrite position_first. split_and!; try done; [lia|].
        by rewrite (filter_before_none _ _ Hge), app_nil_r,
          set_history_self.
      * eapply Forall_impl; [exact Hcalls2|].
        intros [j tot|j attempt p c r|seconds]; try done.
        intros (Hj & Hattempt & -> & slide & t' & is_title & Hpos & Ht'
                & Hlen & ->).
        split; [lia|]. split; [done|].
        split; [by apply call_config_congr|].
        exists slide, t', is_title. split_and!; try done.
        -- by apply position_shift.
        -- by rewrite <- (heap_frame_slide_text _ _ _ Hframe1).
        -- rewrite filter_app, Hhist1, <- app_assoc.
           rewrite (filter_before_all j new1).
           2:{ eapply Forall_impl; [exact Hent1|].
               intros e (-> & _). lia. }
           by rewrite (set_history_congr _ (self w1) (self w) Htemp1 Hstyle1).
    + intros slide t' Hin Ht'.
      destruct (decide (slide ∈ rest)) as [Hrest_in|Hfresh].
      * destruct (Hnarr2 slide t' Hrest_in) as (v & Hv & Hsrc).
        { by rewrite (heap_frame_slide_text _ _ _ Hframe1). }
        exists v. split; [done|].
        destruct Hsrc as [->|(i & Hi & Hpos & Hsucc)]; [by left|right].
        exists i. split; [lia|]. split; [by apply position_shift|].
        rewrite successes_app. apply elem_of_app. by right.
      * apply elem_of_cons in Hin as [->|]; [|done].
        assert (t' = t) as -> by congruence.
        exists v1. split.
        -- unfold slide_field. rewrite Hout2 by done. rewrite Hheap1.
           by apply (store_narration_field _ _ _ t).
        -- destruct Hv1 as [->|Hsucc]; [by left|right].
           exists i0. split; [lia|]. split; [apply position_first|].
           rewrite successes_app. apply elem_of_app. by left.
Qed.

Lemma narrate_slides_unfold slides_data progress_callback (w : world B)
    items w' evs :
  heap w !! slides_data = Some (OList items) →
  slides_loop SDK_VERSION generate_content 1 (len items) progress_callback
    items (reset w)
  = (Return tt, w', evs) →
  narrate_slides SDK_VERSION generate_content slides_data progress_callback w
  = (Return slides_data, w', evs).
Proof.
  intros Hlist Hloop. unfold narrate_slides.
  erewrite bind_run by (unfold list_items; by rewrite Hlist).
  erewrite bind_run by reflexivity.
  erewrite bind_run by reflexivity.
  erewrite bind_run by exact Hloop.
  simpl. by rewrite app_nil_r.
Qed.

Lemma narrate_slides_post slides_data progress_callback (w : world B) items :
  well_typed_deck (heap w) slides_data items →
  ∃ w' evs,
    narrate_slides SDK_VERSION generate_content slides_data progress_callback
      w
    = (Return slides_data, w', evs)
    ∧ loop_post SDK_VERSION 1 (len items) items (reset w) w' evs.
Proof.
  intros [Hlist Htyped].
  destruct (slides_loop_post items 1 (len items) progress_callback (reset w)
              Htyped) as (w' & evs & Hloop & Hpost).
  exists w', evs. split; [|done].
  by apply (narrate_slides_unfold _ _ _ items).
Qed.

Lemma call_in_deck self0 h slides i0 total new evs i attempt p c r :
  Forall (call_of_deck SDK_VERSION self0 h slides i0 total new) evs →
  EvGenerate i attempt p c r ∈ evs →
  call_of_deck SDK_VERSION self0 h slides i0 total new
    (EvGenerate i attempt p c r).
Proof. rewrite Forall_forall. eauto. Qed.

(** ** The pass *)

(** C1. On every deck of the input type (a list of dictionaries whose text,
    when present, is a string) [narrate_slides] returns, with no exception,
    and afterwards every slide of the deck has a string under
    [ai_narration]: the trimmed text of the slide (trivial slide or
    fallback), or the narration stored by a successful generation for that
    slide. *)
Theorem narrate_slides_total slides_data progress_callback (w : world B)
    items :
  well_typed_deck (heap w) slides_data items →
  ∃ w' evs,
    narrate_slides SDK_VERSION generate_content slides_data progress_callback
      w
    = (Return slides_data, w', evs)
    ∧ ∀ slide, slide ∈ items →
        ∃ t v,
          slide_text (heap w) slide = Some t
          ∧ slide_field (heap w') slide key_ai_narration = Some (VStr v)
          ∧ (v = strip t
             ∨ ∃ i, 1 ≤ i
                    ∧ items !! Z.to_nat (i - 1) = Some slide
                    ∧ (i, v) ∈ successes evs).
Proof.
  intros Hdeck.
  destruct (narrate_slides_post _ progress_callback _ _ Hdeck)
    as (w' & evs & Hrun & new & _ & _ & _ & _ & _ & _ & _ & _ & Hnarr).
  exists w', evs. split; [done|].
  intros slide Hin. destruct Hdeck as [_ Htyped].
  rewrite Forall_forall in Htyped.
  destruct (Htyped slide Hin) as [t Ht].
  destruct (Hnarr slide t Hin Ht) as (v & Hv & Hsrc). eauto.
Qed.

(** C10. [narrate_slides] returns the reference it was given; the list
    behind it holds the same slides in the same order; in every dictionary
    only the key [ai_narration] may have changed, so [slide_number], [text]
    and every other field are as before; and no object outside the deck is
    touched. *)
Theorem narrate_slides_frame slides_data progress_callback (w : world B)
    items :
  well_typed_deck (heap w) slides_data items →
  ∃ w' evs,
    narrate_slides SDK_VERSION generate_content slides_data progress_callback
      w
    = (Return slides_data, w', evs)
    ∧ heap w' !! slides_data = Some (OList items)
    ∧ (∀ l key, key ≠ key_ai_narration →
         slide_field (heap w') l key = slide_field (heap w) l key)
    ∧ (∀ l, slide_text (heap w') l = slide_text (heap w) l)
    ∧ (∀ l, l ∉ items → heap w' !! l = heap w !! l)
    ∧ (∀ l, is_Some (heap w' !! l) ↔ is_Some (heap w !! l)).
Proof.
  intros Hdeck.
  destruct (narrate_slides_post _ progress_callback _ _ Hdeck)
    as (w' & evs & Hrun & new & _ & _ & Hframe & Hout & _).
  exists w', evs. split; [done|]. simpl in Hframe, Hout.
  destruct Hdeck as [Hlist _]. split_and!.
  - by apply (heap_frame_list (heap w)).
  - intros l key Hkey. by apply heap_frame_field.
  - intros l. by apply heap_frame_slide_text.
  - done.
  - intros l. specialize (Hframe l).
    destruct (heap w !! l) as [[d|its]|].
    + destruct Hframe as (d' & -> & _). split; eauto.
    + by rewrite Hframe.
    + by rewrite Hframe.
Qed.

(** C5 (amended). For a slide whose trimmed text has fewer than 5 characters,
    after the pass the narration is the trimmed text, no generation call was
    made for the slide, and the history has no entry for it. *)
Theorem trivial_slide_passthrough slides_data progress_callback
    (w : world B) items :
  well_typed_deck (heap w) slides_data items →
  ∃ w' evs,
    narrate_slides SDK_VERSION generate_content slides_data progress_callback
      w
    = (Return slides_data, w', evs)
    ∧ ∀ (j : nat) slide t,
        items !! j = Some slide →
        slide_text (heap w) slide = Some t →
        len (strip t) < 5 →
        slide_field (heap w') slide key_ai_narration = Some (VStr (strip t))
        ∧ calls_for (Z.of_nat j + 1) evs = []
        ∧ Forall (λ e, slide_number e ≠ Z.of_nat j + 1)
            (conversation_history (self w')).
Proof.
  intros Hdeck.
  destruct (narrate_slides_post _ progress_callback _ _ Hdeck)
    as (w' & evs & Hrun & new & _ & _ & _ & _ & Hhist & _ & Hent & Hcalls
        & Hnarr).
  exists w', evs. split; [done|]. simpl in Hhist, Hent, Hcalls, Hnarr.
  intros j slide t Hj Ht Hshort. split_and!.
  - destruct (Hnarr slide t) as (v & Hv & [->|(i & Hi & Hpos & Hsucc)]);
      [by eapply list_elem_of_lookup_2|done|done|].
    apply success_in_trace in Hsucc as (attempt & p & c & r & Hin).
    destruct (call_in_deck _ _ _ _ _ _ _ _ _ _ _ _ Hcalls Hin)
      as (_ & _ & _ & slide' & t' & _ & Hpos' & Ht' & Hlong & _).
    rewrite Hpos in Hpos'. injection Hpos' as <-.
    rewrite Ht in Ht'. injection Ht' as <-. lia.
  - apply calls_for_none.
    intros [| i attempt p c r|] Hin; simpl; try done.
    apply bool_decide_eq_false. intros ->.
    destruct (call_in_deck _ _ _ _ _ _ _ _ _ _ _ _ Hcalls Hin)
      as (_ & _ & _ & slide' & t' & _ & Hpos' & Ht' & Hlong & _).
    replace (Z.to_nat (Z.of_nat j + 1 - 1)) with j in Hpos' by lia.
    rewrite Hj in Hpos'. injection Hpos' as <-.
    rewrite Ht in Ht'. injection Ht' as <-. lia.
  - rewrite Hhist. simpl. eapply Forall_impl; [exact Hent|].
    intros e (_ & slide' & t' & Hpos' & Ht' & _ & Hlong) Hnum.
    rewrite Hnum in Hpos'.
    replace (Z.to_nat (Z.of_nat j + 1 - 1)) with j in Hpos' by lia.
    rewrite Hj in Hpos'. injection Hpos' as <-.
    rewrite Ht in Ht'. injection Ht' as <-. lia.
Qed.

(** C4 (amended). The temperature of a generation call is the narrator's
    own, [self.temperature], whatever its style: with the new SDK every call
    of a pass carries it, and no call carries any other temperature. *)
Theorem generation_uses_narrator_temperature slides_data progress_callback
    (w : world B) items :
  well_typed_deck (heap w) slides_data items →
  ∃ w' evs,
    narrate_slides SDK_VERSION generate_content slides_data progress_callback
      w
    = (Return slides_data, w', evs)
    ∧ ∀ i attempt prompt config r,
        EvGenerate i attempt prompt config r ∈ evs →
        (SDK_VERSION = NEW → config = Some (temperature (self w)))
        ∧ (∀ t, config = Some t → t = temperature (self w)).
Proof.
  intros Hdeck.
  destruct (narrate_slides_post _ progress_callback _ _ Hdeck)
    as (w' & evs & Hrun & new & _ & _ & _ & _ & _ & _ & _ & Hcalls & _).
  exists w', evs. split; [done|].
  intros i attempt prompt config r Hin.
  destruct (call_in_deck _ _ _ _ _ _ _ _ _ _ _ _ Hcalls Hin)
    as (_ & _ & -> & _).
  split.
  - by intros ->.
  - destruct SDK_VERSION; simpl; congruence.
Qed.

(** The call made with the old SDK, [self.model.generate_content(prompt)],
    is given no configuration: [self.temperature] does not reach it. *)
Lemma old_sdk_call_without_temperature slides_data progress_callback
    (w : world B) items :
  SDK_VERSION = OLD →
  well_typed_deck (heap w) slides_data items →
  ∃ w' evs,
    narrate_slides SDK_VERSION generate_content slides_data progress_callback
      w
    = (Return slides_data, w', evs)
    ∧ ∀ i attempt prompt config r,
        EvGenerate i attempt prompt config r ∈ evs → config = None.
Proof.
  intros Hsdk Hdeck.
  destruct (narrate_slides_post _ progress_callback _ _ Hdeck)
    as (w' & evs & Hrun & new & _ & _ & _ & _ & _ & _ & _ & Hcalls & _).
  exists w', evs. split; [done|].
  intros i attempt prompt config r Hin.
  destruct (call_in_deck _ _ _ _ _ _ _ _ _ _ _ _ Hcalls Hin)
    as (_ & _ & -> & _).
  by rewrite Hsdk.
Qed.

(** C6. After a pass the history holds exactly the successful generations,
    in order, each for a slide of the deck that is not trivial; and the
    prompt of every call for a body slide (index neither 1 nor the number of
    slides) carries as previous context one line for each of the last two
    entries made before that slide, at most two lines, each ending with the
    last 150 characters at most of the entry's narration. *)
Theorem body_prompt_context_window slides_data progress_callback
    (w : world B) items :
  well_typed_deck (heap w) slides_data items →
  ∃ w' evs,
    narrate_slides SDK_VERSION generate_content slides_data progress_callback
      w
    = (Return slides_data, w', evs)
    ∧ let history := conversation_history (self w') in
      map entry_key history = successes evs
      ∧ Forall (entry_of_deck (heap w) items 1) history
      ∧ ∀ i attempt prompt config r,
          EvGenerate i attempt prompt config r ∈ evs →
          i ≠ 1 → i ≠ len items →
          let before := filter (λ e, slide_number e < i) history in
          let recent := slice_tail 2 before in
          (length recent ≤ 2)%nat
          ∧ recent `suffix_of` before
          ∧ (∃ slide_text,
               prompt
               = body_prompt slide_text i (len items)
                   (join nl (map context_item recent))
                   (prompt_style (_get_style_config (style (self w)))))
          ∧ Forall
              (λ e, ∃ tail,
                 context_item e
                 = lit "Slide " ++ str_of_int (slide_number e)
                   ++ lit " ended with: ..." ++ tail
                 ∧ (length tail ≤ 150)%nat
                 ∧ tail `suffix_of` narration e)
              recent.
Proof.
  intros Hdeck.
  destruct (narrate_slides_post _ progress_callback _ _ Hdeck)
    as (w' & evs & Hrun & new & _ & _ & _ & _ & Hhist & Hkeys & Hent
        & Hcalls & _).
  exists w', evs. split; [done|].
  simpl in Hhist, Hent, Hcalls. rewrite Hhist.
  split; [done|]. split; [done|].
  intros i attempt prompt config r Hin Hfirst Hlast.
  destruct (call_in_deck _ _ _ _ _ _ _ _ _ _ _ _ Hcalls Hin)
    as (_ & _ & _ & slide & t & is_title & _ & _ & _ & ->).
  simpl.
  destruct (body_prompt_context
              (set_history (filter (λ e, slide_number e < i) new)
                 (set_history [] (self w)))
              (strip t) i (len items) is_title Hfirst Hlast)
    as (Hprompt & Hlen & Hsuffix).
  split; [done|]. split; [done|]. split; [by exists (strip t)|].
  apply Forall_forall. intros e _.
  exists (slice_tail 150 (narration e)). apply context_item_tail.
Qed.

(** ** One slide *)

(** C3 (amended). When the first generation call for a slide whose trimmed
    text has at least 5 characters raises an error whose message contains 403
    or PERMISSION_DENIED, the loop body makes that call and no other, does
    not sleep, leaves the history as it was, and stores the trimmed text as
    narration. *)
Theorem auth_failure_single_call slide i total progress_callback t
    (w : world B) error_msg c :
  slide_text (heap w) slide = Some t →
  5 ≤ len (strip t) →
  let prompt :=
    _build_context_aware_prompt (self w) (strip t) i total
      ((i =? 1) || (len (split (strip t)) <? 15)) in
  let config := call_config SDK_VERSION (self w) in
  generate_content (client w) prompt config = (Raises error_msg, c) →
  occurs_in (lit "403") error_msg
  ∨ occurs_in (lit "PERMISSION_DENIED") error_msg →
  ∃ w' evs,
    narrate_slide SDK_VERSION generate_content i total progress_callback
      slide w
    = (Return tt, w', evs)
    ∧ evs = (if progress_callback then [EvProgress i total] else [])
            ++ [EvGenerate i 1 prompt config (Raises error_msg)]
    ∧ length (calls_for i evs) = 1%nat
    ∧ slide_field (heap w') slide key_ai_narration = Some (VStr (strip t))
    ∧ conversation_history (self w') = conversation_history (self w).
Proof.
  intros Ht Hlong prompt config Hg1 Hauth.
  rewrite (narrate_slide_nontrivial _ _ _ _ _ _ Ht Hlong).
  rewrite (attempt_loop_auth _ _ _ _ _ _ _ _ Hg1
             (auth_error_classify _ Hauth)).
  eexists _, _. split; [reflexivity|]. split_and!.
  - done.
  - rewrite calls_for_app.
    assert (calls_for i
              (if progress_callback then [EvProgress i total] else []) = [])
      as -> by (by destruct progress_callback).
    simpl app. by rewrite calls_for_call.
  - by apply (store_narration_field _ _ _ t).
  - done.
Qed.

(** ** More on the loop body *)

Lemma rate_limit_classify (error_msg : pystr) :
  is_auth_error error_msg = false →
  occurs_in (lit "429") error_msg
  ∨ occurs_in (lit "RESOURCE_EXHAUSTED") error_msg →
  classify (Raises error_msg) = RateLimited.
Proof.
  intros Hnot Hrate. simpl. rewrite Hnot.
  assert (is_rate_limit error_msg = true) as ->; [|done].
  unfold is_rate_limit. apply orb_true_iff.
  destruct Hrate as [H|H]; [left|right]; by apply contains_occurs.
Qed.

Lemma text_classify (s : pystr) :
  strip s ≠ [] → classify (Text (Some s)) = Narrated (strip s).
Proof.
  intros Hs. simpl. destruct s as [|c s]; [done|].
  by destruct (strip (c :: s)).
Qed.

(** Rate-limit backoff: after a first call that fails with a rate-limit
    error the loop sleeps 5 seconds, then the pacing 0.8 seconds, and makes
    the second call with the same prompt. *)
Theorem rate_limit_backoff slide i total progress_callback t (w : world B)
    error_msg c1 :
  slide_text (heap w) slide = Some t →
  5 ≤ len (strip t) →
  let prompt :=
    _build_context_aware_prompt (self w) (strip t) i total
      ((i =? 1) || (len (split (strip t)) <? 15)) in
  let config := call_config SDK_VERSION (self w) in
  generate_content (client w) prompt config = (Raises error_msg, c1) →
  is_auth_error error_msg = false →
  occurs_in (lit "429") error_msg
  ∨ occurs_in (lit "RESOURCE_EXHAUSTED") error_msg →
  ∃ w' rest,
    narrate_slide SDK_VERSION generate_content i total progress_callback
      slide w
    = (Return tt, w',
       (if progress_callback then [EvProgress i total] else [])
       ++ EvGenerate i 1 prompt config (Raises error_msg)
          :: EvSleep (5 # 1)%Q
          :: EvSleep (8 # 10)%Q
          :: EvGenerate i 2 prompt config
               (fst (generate_content c1 prompt config))
          :: rest).
Proof.
  intros Ht Hlong prompt config Hg1 Hnot Hrate.
  rewrite (narrate_slide_nontrivial _ _ _ _ _ _ Ht Hlong).
  fold prompt.
  destruct (generate_content c1 prompt config) as [r2 c2] eqn:Hg2.
  unfold attempt_loop, mbind, M_bind.
  rewrite (attempt_body_run _ _ _ _ _ _ _ _ _ Hg1).
  rewrite (rate_limit_classify _ Hnot Hrate). simpl.
  erewrite attempt_body_run by exact Hg2.
  destruct (classify r2); simpl; eexists _, _; reflexivity.
Qed.

(** A success ends the retry loop: one call, no sleep, the trimmed response
    stored as narration and appended to the history. *)
Theorem success_stops_retrying slide i total progress_callback t
    (w : world B) s c1 :
  slide_text (heap w) slide = Some t →
  5 ≤ len (strip t) →
  let prompt :=
    _build_context_aware_prompt (self w) (strip t) i total
      ((i =? 1) || (len (split (strip t)) <? 15)) in
  let config := call_config SDK_VERSION (self w) in
  generate_content (client w) prompt config = (Text (Some s), c1) →
  strip s ≠ [] →
  ∃ w',
    narrate_slide SDK_VERSION generate_content i total progress_callback
      slide w
    = (Return tt, w',
       (if progress_callback then [EvProgress i total] else [])
       ++ [EvGenerate i 1 prompt config (Text (Some s))])
    ∧ slide_field (heap w') slide key_ai_narration = Some (VStr (strip s))
    ∧ conversation_history (self w')
      = conversation_history (self w)
        ++ [{| slide_number := i; text := strip t; narration := strip s |}].
Proof.
  intros Ht Hlong prompt config Hg1 Hs.
  rewrite (narrate_slide_nontrivial _ _ _ _ _ _ Ht Hlong).
  fold prompt.
  unfold attempt_loop, mbind, M_bind.
  rewrite (attempt_body_run _ _ _ _ _ _ _ _ _ Hg1).
  rewrite (text_classify _ Hs). simpl.
  eexists. split; [reflexivity|]. split; [|done].
  by apply (store_narration_field _ _ _ t).
Qed.

(** ** Each slide is one run of the loop body *)

Lemma slides_loop_runs slides : ∀ i0 total progress_callback (w : world B),
  Forall (λ slide, is_Some (slide_text (heap w) slide)) slides →
  ∃ w' evs,
    slides_loop SDK_VERSION generate_content i0 total progress_callback
      slides w
    = (Return tt, w', evs)
    ∧ ∀ (j : nat) slide,
        slides !! j = Some slide →
        ∃ wj wj' ej,
          narrate_slide SDK_VERSION generate_content (i0 + Z.of_nat j) total
            progress_callback slide wj
          = (Return tt, wj', ej)
          ∧ calls_for (i0 + Z.of_nat j) evs = calls_for (i0 + Z.of_nat j) ej
          ∧ heap_frame (heap w) (heap wj)
          ∧ temperature (self wj) = temperature (self w)
          ∧ style (self wj) = style (self w)
          ∧ (∀ l, l ∉ drop (S j) slides → heap w' !! l = heap wj' !! l).
Proof.
  induction slides as [|s rest IH]; intros i0 total cb w Htyped.
  - exists w, []. split; [done|]. intros j slide Hj. by destruct j.
  - apply Forall_cons in Htyped as [[t Ht] Hrest].
    destruct (narrate_slide_post s i0 total cb t w Ht)
      as (w1 & e1 & Hstep & Hpost1).
    pose proof Hpost1 as (Htemp1 & Hstyle1 & Hev1 & _).
    apply slide_post_uniform in Hpost1 as (_ & v1 & _ & _ & Hheap1 & _).
    assert (heap_frame (heap w) (heap w1)) as Hframe1.
    { rewrite Hheap1. apply heap_frame_store. }
    assert (Forall (λ slide, is_Some (slide_text (heap w1) slide)) rest)
      as Hrest1.
    { eapply Forall_impl; [exact Hrest|]. intros x Hx.
      by rewrite (heap_frame_slide_text _ _ _ Hframe1). }
    destruct (slides_loop_post rest (i0 + 1) total cb w1 Hrest1)
      as (w' & e2 & Hloop & new2 & _ & _ & _ & Hout2 & _ & _ & _ & Hcalls2
          & _).
    destruct (IH (i0 + 1) total cb w1 Hrest1)
      as (w'' & e2' & Hloop' & Hruns).
    rewrite Hloop in Hloop'. injection Hloop' as <- <-.
    exists w', (e1 ++ e2). split.
    { simpl. erewrite bind_run by exact Hstep. by rewrite Hloop. }
    intros [|j] slide Hj; simpl in Hj.
    + injection Hj as <-. exists w, w1, e1.
      rewrite Z.add_0_r. split_and!; try done.
      * rewrite calls_for_app, (calls_for_none i0 e2), app_nil_r; [done|].
        intros [| i attempt p c r|] Hin; simpl; try done.
        apply bool_decide_eq_false.
        destruct (call_in_deck _ _ _ _ _ _ _ _ _ _ _ _ Hcalls2 Hin)
          as (Hi & _). lia.
      * apply heap_frame_refl.
    + destruct (Hruns j slide Hj)
        as (wj & wj' & ej & Hrun & Hcallsj & Hframej & Htempj & Hstylej
            & Houtj).
      exists wj, wj', ej.
      replace (i0 + Z.of_nat (S j)) with (i0 + 1 + Z.of_nat j) by lia.
      split_and!; try done.
      * rewrite calls_for_app, (calls_for_none _ e1); [done|].
        intros ev Hin. rewrite Forall_forall in Hev1.
        specialize (Hev1 ev Hin).
        destruct ev as [| i attempt p c r|]; simpl; try done.
        apply bool_decide_eq_false. destruct Hev1 as (-> & _). lia.
      * by apply (heap_frame_trans _ (heap w1)).
      * by rewrite Htempj.
      * by rewrite Hstylej.
Qed.

(** Every slide of a deck is processed by one run of the loop body, started
    in a world with the texts and the narrator settings of the start of the
    pass; the calls of the pass for its index are the calls of that run; and
    what the run leaves in the heap stays until the end of the pass, except
    in the slides that come later in the deck. *)
Theorem pass_runs_loop_body_once slides_data progress_callback (w : world B)
    items :
  well_typed_deck (heap w) slides_data items →
  ∃ w' evs,
    narrate_slides SDK_VERSION generate_content slides_data progress_callback
      w
    = (Return slides_data, w', evs)
    ∧ ∀ (j : nat) slide,
        items !! j = Some slide →
        ∃ wj wj' ej,
          narrate_slide SDK_VERSION generate_content (1 + Z.of_nat j)
            (len items) progress_callback slide wj
          = (Return tt, wj', ej)
          ∧ calls_for (1 + Z.of_nat j) evs = calls_for (1 + Z.of_nat j) ej
          ∧ (∀ l, slide_text (heap wj) l = slide_text (heap w) l)
          ∧ temperature (self wj) = temperature (self w)
          ∧ style (self wj) = style (self w)
          ∧ (∀ l, l ∉ drop (S j) items → heap w' !! l = heap wj' !! l).
Proof.
  intros [Hlist Htyped].
  destruct (slides_loop_runs items 1 (len items) progress_callback (reset w)
              Htyped) as (w' & evs & Hloop & Hruns).
  exists w', evs. split; [by apply (narrate_slides_unfold _ _ _ items)|].
  intros j slide Hj.
  destruct (Hruns j slide Hj)
    as (wj & wj' & ej & Hrun & Hcalls & Hframe & Htemp & Hstyle & Hout).
  exists wj, wj', ej. split_and!; try done.
  intros l. by apply heap_frame_slide_text.
Qed.

(** Every call of a pass is for an index between 1 and the number of slides,
    and its prompt is the template the position selects; for the last slide
    of a deck of more than one slide it carries the sign-off instruction and
    the first 100 characters of the most recent successful narration. *)
Theorem pass_prompts_by_position slides_data progress_callback (w : world B)
    items :
  well_typed_deck (heap w) slides_data items →
  ∃ w' evs,
    narrate_slides SDK_VERSION generate_content slides_data progress_callback
      w
    = (Return slides_data, w', evs)
    ∧ ∀ i attempt prompt config r,
        EvGenerate i attempt prompt config r ∈ evs →
        1 ≤ i ≤ len items
        ∧ template_of prompt = Some (select_template i (len items))
        ∧ (i = len items → 1 < i →
           occurs_in sign_off_instruction prompt
           ∧ ∀ last_slide,
               last (filter (λ e, slide_number e < i)
                       (conversation_history (self w')))
               = Some last_slide →
               occurs_in
                 (lit "Previous slide discussed: "
                  ++ take 100 (narration last_slide) ++ lit "...")
                 prompt).
Proof.
  intros Hdeck.
  destruct (narrate_slides_post _ progress_callback _ _ Hdeck)
    as (w' & evs & Hrun & new & _ & _ & _ & _ & Hhist & _ & _ & Hcalls & _).
  exists w', evs. split; [done|].
  simpl in Hhist, Hcalls. rewrite Hhist.
  intros i attempt prompt config r Hin.
  destruct (call_in_deck _ _ _ _ _ _ _ _ _ _ _ _ Hcalls Hin)
    as (Hi & _ & _ & slide & t & is_title & Hpos & _ & _ & ->).
  apply lookup_lt_Some in Hpos.
  assert (1 ≤ i ≤ len items) as Hrange by (unfold len; lia).
  split; [done|].
  rewrite select_template_cases by lia.
  unfold _build_context_aware_prompt.
  destruct (Z.eqb_spec i 1) as [->|Hne1].
  - split; [done|]. lia.
  - destruct (Z.eqb_spec i (len items)) as [Hlast|Hnot]; [|done].
    split; [done|]. intros _ _. simpl.
    unfold closer_prompt. split; [find_occurrence|].
    intros last_slide Hl. unfold closer_context. rewrite Hl.
    unfold slice_head. find_occurrence.
Qed.

(** The first event of the retry loop is the first call, with the response
    the backend gives in the current world. *)
Lemma attempt_loop_first_call slide i total tx prompt (w : world B) r1 c1 :
  let config := call_config SDK_VERSION (self w) in
  generate_content (client w) prompt config = (r1, c1) →
  ∃ w' rest,
    attempt_loop SDK_VERSION generate_content [1; 2] slide i total tx prompt w
    = (Return tt, w', EvGenerate i 1 prompt config r1 :: rest).
Proof.
  intros config Hg1.
  destruct (generate_content c1 prompt config) as [r2 c2] eqn:Hg2.
  unfold attempt_loop, mbind, M_bind.
  rewrite (attempt_body_run _ _ _ _ _ _ _ _ _ Hg1).
  destruct (classify r1); simpl; try (eexists _, _; reflexivity).
  all: erewrite attempt_body_run by exact Hg2.
  all: destruct (classify r2); simpl; eexists _, _; reflexivity.
Qed.

(** Authorization failure, seen from the pass: when the first call for a
    slide raises an error whose message contains 403 or PERMISSION_DENIED,
    it is the only call for that slide, and the trimmed text is the slide's
    narration at the end of the pass unless the same slide object comes
    again later in the deck. *)
Theorem auth_failure_in_pass slides_data progress_callback (w : world B)
    items :
  well_typed_deck (heap w) slides_data items →
  ∃ w' evs,
    narrate_slides SDK_VERSION generate_content slides_data progress_callback
      w
    = (Return slides_data, w', evs)
    ∧ ∀ (j : nat) slide t attempt prompt config error_msg rest,
        items !! j = Some slide →
        slide_text (heap w) slide = Some t →
        calls_for (1 + Z.of_nat j) evs
        = EvGenerate (1 + Z.of_nat j) attempt prompt config (Raises error_msg)
          :: rest →
        occurs_in (lit "403") error_msg
        ∨ occurs_in (lit "PERMISSION_DENIED") error_msg →
        attempt = 1 ∧ rest = []
        ∧ (slide ∉ drop (S j) items →
           slide_field (heap w') slide key_ai_narration
           = Some (VStr (strip t))).
Proof.
  intros [Hlist Htyped].
  destruct (slides_loop_runs items 1 (len items) progress_callback (reset w)
              Htyped) as (w' & evs & Hloop & Hruns).
  exists w', evs. split; [by apply (narrate_slides_unfold _ _ _ items)|].
  intros j slide t attempt prompt config error_msg rest Hj Ht Hfirst Hauth.
  destruct (Hruns j slide Hj)
    as (wj & wj' & ej & Hj_run & Hcalls & Hframe & _ & _ & Hout).
  rewrite Hcalls in Hfirst. clear Hcalls.
  assert (slide_text (heap wj) slide = Some t) as Htj.
  { by rewrite (heap_frame_slide_text _ _ _ Hframe). }
  destruct (Z.lt_ge_cases (len (strip t)) 5) as [Hshort|Hlong].
  { rewrite (narrate_slide_trivial _ _ _ _ _ _ Htj Hshort) in Hj_run.
    injection Hj_run as _ <-. done. }
  rewrite (narrate_slide_nontrivial _ _ _ _ _ _ Htj Hlong) in Hj_run.
  set (i := 1 + Z.of_nat j) in *.
  set (p := _build_context_aware_prompt _ _ _ _ _) in Hj_run.
  assert (calls_for i
            (if progress_callback then [EvProgress i (len items)] else [])
          = []) as Hprogress by (by destruct progress_callback).
  destruct (generate_content (client wj) p (call_config SDK_VERSION (self wj)))
    as [r1 c1] eqn:Hg1.
  destruct (attempt_loop_first_call slide i (len items) (strip t) p wj r1 c1
              Hg1) as (w1 & rest1 & Hattempts).
  assert (r1 = Raises error_msg ∧ attempt = 1) as [-> ->].
  { rewrite Hattempts in Hj_run. injection Hj_run as _ <-.
    rewrite calls_for_app, Hprogress, app_nil_l, calls_for_call in Hfirst.
    by injection Hfirst as <- _ _ <- _. }
  clear Hattempts.
  rewrite (attempt_loop_auth _ _ _ _ _ _ _ _ Hg1
             (auth_error_classify _ Hauth)) in Hj_run.
  injection Hj_run as <- <-.
  rewrite calls_for_app, Hprogress, app_nil_l, calls_for_call in Hfirst.
  split; [done|]. split; [by injection Hfirst as <-|].
  intros Hlater. unfold slide_field. rewrite (Hout slide Hlater). simpl.
  by apply (store_narration_field _ _ _ t).
Qed.

(** ** A backend that never answers *)

Section BlankBackend.

Hypothesis backend_blank :
  ∀ c prompt config, blank_response (fst (generate_content c prompt config)).

Lemma narrate_slide_blank slide i total progress_callback t (w : world B) :
  slide_text (heap w) slide = Some t →
  ∃ w' evs,
    narrate_slide SDK_VERSION generate_content i total progress_callback
      slide w
    = (Return tt, w', evs)
    ∧ successes evs = []
    ∧ heap w' = store slide key_ai_narration (VStr (strip t)) (heap w)
    ∧ (5 ≤ len (strip t) → length (calls_for i evs) = 2%nat).
Proof.
  intros Ht.
  destruct (Z.lt_ge_cases (len (strip t)) 5) as [Hshort|Hlong].
  - rewrite (narrate_slide_trivial _ _ _ _ _ _ Ht Hshort).
    eexists _, _. split; [reflexivity|]. split_and!; try done. lia.
  - rewrite (narrate_slide_nontrivial _ _ _ _ _ _ Ht Hlong).
    set (prompt := _build_context_aware_prompt _ _ _ _ _).
    destruct (generate_content (client w) prompt
                (call_config SDK_VERSION (self w))) as [r1 c1] eqn:Hg1.
    destruct (generate_content c1 prompt (call_config SDK_VERSION (self w)))
      as [r2 c2] eqn:Hg2.
    assert (classify r1 = Blank) as Hc1.
    { apply blank_response_classify.
      pose proof (backend_blank (client w) prompt
                    (call_config SDK_VERSION (self w))) as Hb.
      by rewrite Hg1 in Hb. }
    assert (classify r2 = Blank) as Hc2.
    { apply blank_response_classify.
      pose proof (backend_blank c1 prompt
                    (call_config SDK_VERSION (self w))) as Hb.
      by rewrite Hg2 in Hb. }
    rewrite (attempt_loop_blank _ _ _ _ _ _ _ _ _ _ Hg1 Hg2 Hc1 Hc2).
    eexists _, _. split; [reflexivity|]. split_and!.
    + rewrite successes_app.
      assert (successes
                (if progress_callback then [EvProgress i total] else [])
              = []) as -> by (by destruct progress_callback).
      simpl app.
      by rewrite successes_call, Hc1, successes_sleep, successes_call, Hc2.
    + done.
    + intros _. rewrite calls_for_app.
      assert (calls_for i
                (if progress_callback then [EvProgress i total] else [])
              = []) as -> by (by destruct progress_callback).
      simpl app. rewrite calls_for_call, calls_for_other by done.
      by rewrite calls_for_call, calls_for_other by done.
Qed.

Lemma slides_loop_blank slides : ∀ i0 total progress_callback (w : world B),
  Forall (λ slide, is_Some (slide_text (heap w) slide)) slides →
  ∃ w' evs,
    slides_loop SDK_VERSION generate_content i0 total progress_callback
      slides w
    = (Return tt, w', evs)
    ∧ successes evs = [].
Proof.
  induction slides as [|s rest IH]; intros i0 total cb w Htyped.
  - by exists w, [].
  - apply Forall_cons in Htyped as [[t Ht] Hrest].
    destruct (narrate_slide_blank s i0 total cb t w Ht)
      as (w1 & e1 & Hstep & Hnone1 & Hheap1 & _).
    assert (Forall (λ slide, is_Some (slide_text (heap w1) slide)) rest)
      as Hrest1.
    { eapply Forall_impl; [exact Hrest|]. intros x Hx.
      rewrite Hheap1.
      by rewrite (heap_frame_slide_text _ _ _ (heap_frame_store _ _ _)). }
    destruct (IH (i0 + 1) total cb w1 Hrest1) as (w' & e2 & Hloop & Hnone2).
    exists w', (e1 ++ e2). split.
    + simpl. erewrite bind_run by exact Hstep. by rewrite Hloop.
    + by rewrite successes_app, Hnone1, Hnone2.
Qed.

(** C2 (amended). With a backend whose every response is empty or
    whitespace-only, a pass makes exactly 2 generation calls for every slide
    whose trimmed text has at least 5 characters, and every slide ends with
    its trimmed text as narration; the history stays empty. *)
Theorem blank_backend_two_calls slides_data progress_callback (w : world B)
    items :
  well_typed_deck (heap w) slides_data items →
  ∃ w' evs,
    narrate_slides SDK_VERSION generate_content slides_data progress_callback
      w
    = (Return slides_data, w', evs)
    ∧ conversation_history (self w') = []
    ∧ ∀ (j : nat) slide t,
        items !! j = Some slide →
        slide_text (heap w) slide = Some t →
        slide_field (heap w') slide key_ai_narration = Some (VStr (strip t))
        ∧ (5 ≤ len (strip t) →
           length (calls_for (1 + Z.of_nat j) evs) = 2%nat).
Proof.
  intros Hdeck.
  destruct (narrate_slides_post _ progress_callback _ _ Hdeck)
    as (w' & evs & Hrun & new & _ & _ & _ & _ & Hhist & Hkeys & _ & _
        & Hnarr).
  destruct Hdeck as [Hlist Htyped].
  destruct (slides_loop_runs items 1 (len items) progress_callback (reset w)
              Htyped) as (w2 & evs2 & Hloop & Hruns).
  rewrite (narrate_slides_unfold _ _ _ items _ _ Hlist Hloop) in Hrun.
  injection Hrun as -> ->.
  destruct (slides_loop_blank items 1 (len items) progress_callback (reset w)
              Htyped) as (w3 & evs3 & Hloop3 & Hnone').
  rewrite Hloop in Hloop3. injection Hloop3 as <- <-.
  exists w', evs. split; [by apply (narrate_slides_unfold _ _ _ items)|].
  split.
  { rewrite Hhist. simpl. rewrite Hnone' in Hkeys. by destruct new. }
  intros j slide t Hj Ht. simpl in Hnarr. split.
  - destruct (Hnarr slide t) as (v & Hv & [->|(i & _ & _ & Hsucc)]);
      [by eapply list_elem_of_lookup_2|done|done|].
    rewrite Hnone' in Hsucc. by apply elem_of_nil in Hsucc.
  - intros Hlong.
    destruct (Hruns j slide Hj)
      as (wj & wj' & ej & Hj_run & -> & Hframe & _).
    destruct (narrate_slide_blank slide (1 + Z.of_nat j) (len items)
                progress_callback t wj)
      as (wj'' & ej' & Hj_run' & _ & _ & Hcount).
    { by rewrite (heap_frame_slide_text _ _ _ Hframe). }
    rewrite Hj_run in Hj_run'. injection Hj_run' as _ <-. by apply Hcount.
Qed.

End BlankBackend.

End RunProperties.

(** ** The theorems at work on sample decks *)

Lemma sample_deck_well_typed :
  well_typed_deck (deck_heap sample_texts) 1%positive sample_slides.
Proof.
  split; [by vm_compute|].
  repeat constructor; eexists; vm_compute; reflexivity.
Qed.

Lemma padded_deck_well_typed (t : pystr) :
  well_typed_deck (deck_heap [t]) 1%positive [2%positive].
Proof.
  split; [by vm_compute|].
  repeat constructor. by exists t.
Qed.

Lemma narrate_slides_total_witness :
  well_typed_deck (deck_heap sample_texts) 1%positive sample_slides
  ∧ ∃ w' evs,
      narrate_slides NEW scripted 1%positive true
        (start default_narrator sample_texts sample_script)
      = (Return 1%positive, w', evs)
      ∧ ∀ slide, slide ∈ sample_slides →
          ∃ v, slide_field (heap w') slide key_ai_narration = Some (VStr v).
Proof.
  split; [exact sample_deck_well_typed|].
  destruct (narrate_slides_total NEW scripted 1%positive true
              (start default_narrator sample_texts sample_script)
              sample_slides sample_deck_well_typed)
    as (w' & evs & Hrun & Hnarr).
  exists w', evs. split; [done|].
  intros slide Hin. destruct (Hnarr slide Hin) as (t & v & _ & Hv & _).
  by exists v.
Defined.

Lemma narrate_slides_frame_witness :
  well_typed_deck (deck_heap sample_texts) 1%positive sample_slides
  ∧ ∃ w' evs,
      narrate_slides NEW scripted 1%positive true
        (start default_narrator sample_texts sample_script)
      = (Return 1%positive, w', evs)
      ∧ heap w' !! 1%positive = Some (OList sample_slides)
      ∧ (∀ l key, key ≠ key_ai_narration →
           slide_field (heap w') l key
           = slide_field (deck_heap sample_texts) l key).
Proof.
  split; [exact sample_deck_well_typed|].
  destruct (narrate_slides_frame NEW scripted 1%positive true
              (start default_narrator sample_texts sample_script)
              sample_slides sample_deck_well_typed)
    as (w' & evs & Hrun & Hlist & Hfields & _).
  by exists w', evs.
Defined.

Lemma trivial_slide_passthrough_witness :
  well_typed_deck (deck_heap [lit " ab "]) 1%positive [2%positive]
  ∧ ∃ w' evs,
      narrate_slides NEW scripted 1%positive true
        (start default_narrator [lit " ab "] sample_script)
      = (Return 1%positive, w', evs)
      ∧ slide_field (heap w') 2%positive key_ai_narration
        = Some (VStr (strip (lit " ab ")))
      ∧ calls_for 1 evs = [].
Proof.
  split; [apply padded_deck_well_typed|].
  destruct (trivial_slide_passthrough NEW scripted 1%positive true
              (start default_narrator [lit " ab "] sample_script)
              [2%positive] (padded_deck_well_typed _))
    as (w' & evs & Hrun & Hslides).
  exists w', evs. split; [done|].
  destruct (Hslides 0%nat 2%positive (lit " ab ")) as (Hn & Hc & _);
    [reflexivity|by vm_compute|by vm_compute|].
  by split.
Defined.

(** C5, as stated, fails on a slide whose text is padded with blanks: the
    narration is the trimmed text and differs from the [text] field. *)
Lemma trivial_slide_not_verbatim :
  let w := start default_narrator [lit " ab "] tt in
  ∃ w' evs,
    narrate_slides NEW (constant canned) 1%positive false w
    = (Return 1%positive, w', evs)
    ∧ slide_field (heap w) 2%positive key_text = Some (VStr (lit " ab "))
    ∧ len (strip (lit " ab ")) < 5
    ∧ slide_field (heap w') 2%positive key_ai_narration
      = Some (VStr (lit "ab"))
    ∧ lit "ab" ≠ lit " ab ".
Proof.
  eexists _, _. split; [vm_compute; reflexivity|].
  by vm_compute.
Qed.

Lemma generation_uses_narrator_temperature_witness :
  well_typed_deck (deck_heap sample_texts) 1%positive sample_slides
  ∧ ∃ w' evs,
      narrate_slides NEW scripted 1%positive true
        (start default_narrator sample_texts sample_script)
      = (Return 1%positive, w', evs)
      ∧ ∀ i attempt prompt config r,
          EvGenerate i attempt prompt config r ∈ evs →
          config = Some (7 # 10)%Q.
Proof.
  split; [exact sample_deck_well_typed|].
  destruct (generation_uses_narrator_temperature NEW scripted 1%positive true
              (start default_narrator sample_texts sample_script)
              sample_slides sample_deck_well_typed)
    as (w' & evs & Hrun & Hcalls).
  exists w', evs. split; [exact Hrun|].
  intros i attempt prompt config r Hin.
  exact (proj1 (Hcalls i attempt prompt config r Hin) eq_refl).
Defined.

(** C4, as stated, fails for a narrator built with the professional style and
    the default temperature: the style configures 0.5 and the call is made
    with 0.7. *)
Lemma style_temperature_not_used :
  ∃ narrator,
    professional_narrator = Return narrator
    ∧ style narrator = lit "professional"
    ∧ style_temperature (_get_style_config (style narrator)) = (5 # 10)%Q
    ∧ (∃ w' prompt r,
         narrate_slides NEW (constant canned) 1%positive false
           (start narrator [lit "Intro to Topic"] tt)
         = (Return 1%positive, w',
            [EvGenerate 1 1 prompt (Some (7 # 10)%Q) r]))
    ∧ (7 # 10)%Q ≠ (5 # 10)%Q.
Proof.
  eexists. split; [reflexivity|].
  split; [reflexivity|]. split; [by vm_compute|]. split; [|done].
  eexists _, _, _. vm_compute. reflexivity.
Qed.

(** With the old SDK the same call is made with no configuration at all:
    the narrator's temperature is not passed on. *)
Lemma old_sdk_drops_temperature :
  ∃ w' prompt r,
    narrate_slides OLD (constant canned) 1%positive false
      (start default_narrator [lit "Intro to Topic"] tt)
    = (Return 1%positive, w', [EvGenerate 1 1 prompt None r]).
Proof.
  eexists _, _, _. vm_compute. reflexivity.
Qed.

Lemma body_prompt_context_window_witness :
  well_typed_deck (deck_heap sample_texts) 1%positive sample_slides
  ∧ ∃ w' evs,
      narrate_slides NEW (constant canned) 1%positive true
        (start default_narrator sample_texts tt)
      = (Return 1%positive, w', evs)
      ∧ map entry_key (conversation_history (self w')) = successes evs.
Proof.
  split; [exact sample_deck_well_typed|].
  destruct (body_prompt_context_window NEW (constant canned) 1%positive true
              (start default_narrator sample_texts tt)
              sample_slides sample_deck_well_typed)
    as (w' & evs & Hrun & Hkeys & _).
  by exists w', evs.
Defined.

Lemma blank_backend_two_calls_witness :
  let backend := constant (Text (Some (lit "   "))) in
  (∀ c prompt config, blank_response (fst (backend c prompt config)))
  ∧ well_typed_deck (deck_heap sample_texts) 1%positive sample_slides
  ∧ ∃ w' evs,
      narrate_slides NEW backend 1%positive true
        (start default_narrator sample_texts tt)
      = (Return 1%positive, w', evs)
      ∧ length (calls_for 2 evs) = 2%nat
      ∧ slide_field (heap w') 3%positive key_ai_narration
        = Some (VStr (strip (lit "Topic has grown 40% since 2020"))).
Proof.
  assert (∀ (c : unit) prompt config,
            blank_response
              (fst (constant (Text (Some (lit "   "))) c prompt config)))
    as Hblank by (intros; by vm_compute).
  split; [exact Hblank|]. split; [exact sample_deck_well_typed|].
  destruct (blank_backend_two_calls NEW (constant (Text (Some (lit "   "))))
              Hblank 1%positive true (start default_narrator sample_texts tt)
              sample_slides sample_deck_well_typed)
    as (w' & evs & Hrun & _ & Hslides).
  exists w', evs. split; [done|].
  destruct (Hslides 1%nat 3%positive (lit "Topic has grown 40% since 2020"))
    as (Hnarr & Hcount); [reflexivity|by vm_compute|].
  split; [|done]. apply Hcount. by vm_compute.
Defined.

(** C2, as stated, fails on a slide whose text is padded with blanks: two
    calls are made, and the narration is the trimmed text, not the [text]
    field. *)
Lemma blank_fallback_not_verbatim :
  let w := start default_narrator [lit "  Hello world  "] tt in
  let backend := constant (Text (Some (lit "   "))) in
  ∃ w' evs,
    narrate_slides NEW backend 1%positive false w
    = (Return 1%positive, w', evs)
    ∧ (∀ c prompt config, blank_response (fst (backend c prompt config)))
    ∧ slide_field (heap w) 2%positive key_text
      = Some (VStr (lit "  Hello world  "))
    ∧ 5 ≤ len (strip (lit "  Hello world  "))
    ∧ length (calls_for 1 evs) = 2%nat
    ∧ slide_field (heap w') 2%positive key_ai_narration
      = Some (VStr (lit "Hello world"))
    ∧ lit "Hello world" ≠ lit "  Hello world  ".
Proof.
  eexists _, _. split; [vm_compute; reflexivity|].
  split; [intros; by vm_compute|].
  by vm_compute.
Qed.

Lemma auth_failure_single_call_witness :
  let w := start default_narrator [lit "Hello world"] tt in
  let error_msg := lit "403 PERMISSION_DENIED" in
  let backend := constant (Raises error_msg) in
  slide_text (heap w) 2%positive = Some (lit "Hello world")
  ∧ 5 ≤ len (strip (lit "Hello world"))
  ∧ (occurs_in (lit "403") error_msg
     ∨ occurs_in (lit "PERMISSION_DENIED") error_msg)
  ∧ ∃ w' evs,
      narrate_slide NEW backend 1 1 false 2%positive w = (Return tt, w', evs)
      ∧ length (calls_for 1 evs) = 1%nat
      ∧ slide_field (heap w') 2%positive key_ai_narration
        = Some (VStr (strip (lit "Hello world"))).
Proof.
  assert (occurs_in (lit "403") (lit "403 PERMISSION_DENIED")
          ∨ occurs_in (lit "PERMISSION_DENIED") (lit "403 PERMISSION_DENIED"))
    as Hauth by (left; by apply contains_occurs).
  split; [by vm_compute|]. split; [by vm_compute|]. split; [exact Hauth|].
  destruct (auth_failure_single_call NEW
              (constant (Raises (lit "403 PERMISSION_DENIED")))
              2%positive 1 1 false (lit "Hello world")
              (start default_narrator [lit "Hello world"] tt)
              (lit "403 PERMISSION_DENIED") tt)
    as (w' & evs & Hrun & _ & Hcalls & Hnarr & _);
    [by vm_compute|by vm_compute|reflexivity|exact Hauth|].
  by exists w', evs.
Defined.

(** C3, as stated, fails on a slide whose text is padded with blanks: one
    call is made, and the narration is the trimmed text, not the [text]
    field. *)
Lemma auth_fallback_not_verbatim :
  let w := start default_narrator [lit "  Hello world  "] tt in
  let error_msg := lit "403 PERMISSION_DENIED" in
  ∃ w' evs,
    narrate_slides NEW (constant (Raises error_msg)) 1%positive false w
    = (Return 1%positive, w', evs)
    ∧ contains (lit "403") error_msg = true
    ∧ slide_field (heap w) 2%positive key_text
      = Some (VStr (lit "  Hello world  "))
    ∧ length (calls_for 1 evs) = 1%nat
    ∧ slide_field (heap w') 2%positive key_ai_narration
      = Some (VStr (lit "Hello world"))
    ∧ lit "Hello world" ≠ lit "  Hello world  ".
Proof.
  eexists _, _. split; [vm_compute; reflexivity|].
  by vm_compute.
Qed.

(** C9, on the code: a generation that succeeds, and one that fails with an
    authorization error, leave the retry loop by [break], so the pass goes on
    to the next slide without any sleep.  With a backend that always
    succeeds, and with one that always raises the authorization error, the
    pass over two slides is two calls and nothing else. *)
Theorem no_pacing_after_break :
  let deck := [lit "Intro to Topic"; lit "Topic has grown 40% since 2020"] in
  let denied := Raises (lit "403 PERMISSION_DENIED") in
  (∃ w' p1 p2,
     narrate_slides NEW (constant canned) 1%positive false
       (start default_narrator deck tt)
     = (Return 1%positive, w',
        [ EvGenerate 1 1 p1 (Some (7 # 10)%Q) canned;
          EvGenerate 2 1 p2 (Some (7 # 10)%Q) canned ]))
  ∧ (∃ w' p1 p2,
       narrate_slides NEW (constant denied) 1%positive false
         (start default_narrator deck tt)
       = (Return 1%positive, w',
          [ EvGenerate 1 1 p1 (Some (7 # 10)%Q) denied;
            EvGenerate 2 1 p2 (Some (7 # 10)%Q) denied ])).
Proof.
  split; eexists _, _, _; vm_compute; reflexivity.
Qed.

(** Registry lookups: the five keys give their configuration, and any other
    key gives the configuration of the engaging style. *)
Theorem style_lookup_total (style_key : pystr) :
  _get_style_config (lit "professional") = professional
  ∧ _get_style_config (lit "engaging") = engaging
  ∧ _get_style_config (lit "enthusiastic") = enthusiastic
  ∧ _get_style_config (lit "casual") = casual
  ∧ _get_style_config (lit "storyteller") = storyteller
  ∧ (style_key ∉ [ lit "professional"; lit "engaging"; lit "enthusiastic";
                   lit "casual"; lit "storyteller" ] →
     _get_style_config style_key = engaging).
Proof.
  split_and!; try by vm_compute.
  intros Hnew.
  repeat (apply not_elem_of_cons in Hnew as [? Hnew]).
  unfold _get_style_config, NARRATION_STYLES, list_to_map. cbn [foldr fst snd].
  by rewrite !lookup_insert_ne, lookup_empty.
Qed.

Lemma style_lookup_total_witness :
  (lit "formal" ∉ [ lit "professional"; lit "engaging"; lit "enthusiastic";
                    lit "casual"; lit "storyteller" ])
  ∧ _get_style_config (lit "formal") = engaging.
Proof.
  assert (lit "formal" ∉ [ lit "professional"; lit "engaging";
                           lit "enthusiastic"; lit "casual";
                           lit "storyteller" ]) as Hnew.
  { intros Hin.
    repeat (apply elem_of_cons in Hin as [?|Hin]; [done|]).
    by apply elem_of_nil in Hin. }
  split; [exact Hnew|].
  by apply (style_lookup_total (lit "formal")).
Defined.

Lemma rate_limit_backoff_witness :
  let w := start default_narrator [lit "Hello world"] tt in
  let error_msg := lit "429 RESOURCE_EXHAUSTED" in
  let backend := constant (Raises error_msg) in
  is_auth_error error_msg = false
  ∧ ∃ w' prompt rest,
      narrate_slide NEW backend 1 1 false 2%positive w
      = (Return tt, w',
         EvGenerate 1 1 prompt (Some (7 # 10)%Q) (Raises error_msg)
         :: EvSleep (5 # 1)%Q :: EvSleep (8 # 10)%Q
         :: EvGenerate 1 2 prompt (Some (7 # 10)%Q) (Raises error_msg)
         :: rest).
Proof.
  split; [by vm_compute|].
  destruct (rate_limit_backoff NEW
              (constant (Raises (lit "429 RESOURCE_EXHAUSTED")))
              2%positive 1 1 false (lit "Hello world")
              (start default_narrator [lit "Hello world"] tt)
              (lit "429 RESOURCE_EXHAUSTED") tt)
    as (w' & rest & Hrun);
    [by vm_compute|by vm_compute|reflexivity|by vm_compute| |].
  { left. by apply contains_occurs. }
  eexists _, _, _. exact Hrun.
Defined.

Lemma success_stops_retrying_witness :
  let w := start default_narrator [lit "Hello world"] tt in
  strip (lit " Good morning everyone. ") ≠ []
  ∧ ∃ w' prompt,
      narrate_slide NEW (constant (Text (Some (lit " Good morning everyone. "))))
        1 1 false 2%positive w
      = (Return tt, w',
         [EvGenerate 1 1 prompt (Some (7 # 10)%Q)
            (Text (Some (lit " Good morning everyone. ")))])
      ∧ slide_field (heap w') 2%positive key_ai_narration
        = Some (VStr (lit "Good morning everyone.")).
Proof.
  assert (strip (lit " Good morning everyone. ") ≠ []) as Hs
    by (by vm_compute).
  split; [exact Hs|].
  destruct (success_stops_retrying NEW
              (constant (Text (Some (lit " Good morning everyone. "))))
              2%positive 1 1 false (lit "Hello world")
              (start default_narrator [lit "Hello world"] tt)
              (lit " Good morning everyone. ") tt)
    as (w' & Hrun & Hnarr & _);
    [by vm_compute|by vm_compute|reflexivity|exact Hs|].
  eexists _, _. split; [exact Hrun|exact Hnarr].
Defined.

Lemma pass_runs_loop_body_once_witness :
  well_typed_deck (deck_heap sample_texts) 1%positive sample_slides
  ∧ ∃ w' evs,
      narrate_slides NEW scripted 1%positive true
        (start default_narrator sample_texts sample_script)
      = (Return 1%positive, w', evs)
      ∧ ∃ wj wj' ej,
          narrate_slide NEW scripted 2 3 true 3%positive wj
          = (Return tt, wj', ej)
          ∧ calls_for 2 evs = calls_for 2 ej.
Proof.
  split; [exact sample_deck_well_typed|].
  destruct (pass_runs_loop_body_once NEW scripted 1%positive true
              (start default_narrator sample_texts sample_script)
              sample_slides sample_deck_well_typed)
    as (w' & evs & Hrun & Hruns).
  exists w', evs. split; [done|].
  destruct (Hruns 1%nat 3%positive eq_refl)
    as (wj & wj' & ej & Hj & Hcalls & _).
  by exists wj, wj', ej.
Defined.

Lemma pass_prompts_by_position_witness :
  well_typed_deck (deck_heap sample_texts) 1%positive sample_slides
  ∧ ∃ w' evs,
      narrate_slides NEW (constant canned) 1%positive true
        (start default_narrator sample_texts tt)
      = (Return 1%positive, w', evs)
      ∧ ∀ i attempt prompt config r,
          EvGenerate i attempt prompt config r ∈ evs →
          template_of prompt = Some (select_template i 3).
Proof.
  split; [exact sample_deck_well_typed|].
  destruct (pass_prompts_by_position NEW (constant canned) 1%positive true
              (start default_narrator sample_texts tt)
              sample_slides sample_deck_well_typed)
    as (w' & evs & Hrun & Hprompts).
  exists w', evs. split; [done|].
  intros i attempt prompt config r Hin.
  by destruct (Hprompts i attempt prompt config r Hin) as (_ & Ht & _).
Defined.

(** The end-to-end example of the specification: three slides and a backend
    that returns the same text at every call.  The first call is an opener;
    the second, a body prompt, carries the end of the first narration; the
    third, the closer, carries the beginning of the second narration and the
    sign-off; and the three narrations are the canned text. *)
Theorem end_to_end_example :
  ∃ w' p1 p2 p3,
    narrate_slides NEW (constant canned) 1%positive false
      (start default_narrator sample_texts tt)
    = (Return 1%positive, w',
       [ EvGenerate 1 1 p1 (Some (7 # 10)%Q) canned;
         EvGenerate 2 1 p2 (Some (7 # 10)%Q) canned;
         EvGenerate 3 1 p3 (Some (7 # 10)%Q) canned ])
    ∧ template_of p1 = Some Opener
    ∧ template_of p2 = Some Body
    ∧ contains (lit "Slide 1 ended with: ...Welcome, everyone.") p2 = true
    ∧ template_of p3 = Some Closer
    ∧ contains (lit "Previous slide discussed: Welcome, everyone....") p3
      = true
    ∧ contains sign_off_instruction p3 = true
    ∧ Forall
        (λ slide,
           slide_field (heap w') slide key_ai_narration
           = Some (VStr (lit "Welcome, everyone.")))
        sample_slides.
Proof.
  eexists _, _, _, _. split; [vm_compute; reflexivity|].
  split_and!; try by vm_compute.
  repeat constructor; by vm_compute.
Qed.

Lemma auth_failure_in_pass_witness :
  let denied := Raises (lit "403 PERMISSION_DENIED") in
  well_typed_deck (deck_heap sample_texts) 1%positive sample_slides
  ∧ ∃ w' evs,
      narrate_slides NEW (constant denied) 1%positive true
        (start default_narrator sample_texts tt)
      = (Return 1%positive, w', evs)
      ∧ ∀ attempt prompt config error_msg rest,
          calls_for 2 evs
          = EvGenerate 2 attempt prompt config (Raises error_msg) :: rest →
          occurs_in (lit "403") error_msg
          ∨ occurs_in (lit "PERMISSION_DENIED") error_msg →
          attempt = 1 ∧ rest = [].
Proof.
  split; [exact sample_deck_well_typed|].
  destruct (auth_failure_in_pass NEW
              (constant (Raises (lit "403 PERMISSION_DENIED"))) 1%positive
              true (start default_narrator sample_texts tt) sample_slides
              sample_deck_well_typed)
    as (w' & evs & Hrun & Hslides).
  exists w', evs. split; [done|].
  intros attempt prompt config error_msg rest Hfirst Hauth.
  destruct (Hslides 1%nat 3%positive (lit "Topic has grown 40% since 2020")
              attempt prompt config error_msg rest)
    as (Hattempt & Hrest & _); [reflexivity|by vm_compute|done|done|].
  by split.
Defined.
(** * More properties: the pass, and the modules around the narrator *)

(** ** Trimming *)

Lemma lstrip_length (s : pystr) : (length (lstrip s) ≤ length s)%nat.
Proof.
  induction s as [|c s IH]; simpl; [done|].
  destruct (isspace c); simpl; lia.
Qed.

Lemma lstrip_fixed (s : pystr) :
  lstrip s = s ↔ match s with c :: _ => isspace c = false | [] => True end.
Proof.
  destruct s as [|c s]; simpl; [done|].
  destruct (isspace c) eqn:Hc; [|done].
  split; [|done]. intros Hs.
  pose proof (lstrip_length s) as Hlen. rewrite Hs in Hlen. simpl in Hlen. lia.
Qed.

Lemma lstrip_head (s : pystr) :
  match lstrip s with c :: _ => isspace c = false | [] => True end.
Proof.
  induction s as [|c s IH]; simpl; [done|].
  by destruct (isspace c) eqn:Hc.
Qed.

Lemma lstrip_idemp (s : pystr) : lstrip (lstrip s) = lstrip s.
Proof. apply lstrip_fixed, lstrip_head. Qed.

Lemma lstrip_space (a : pystr) :
  Forall (λ c, isspace c = true) a → lstrip a = [].
Proof. induction 1 as [|c a Hc _ IH]; simpl; [done|]. by rewrite Hc. Qed.

Lemma lstrip_app_nonspace (a b : pystr) (c : N) :
  isspace c = false → lstrip (a ++ c :: b) = lstrip a ++ c :: b.
Proof.
  intros Hc. induction a as [|d a IH]; simpl.
  - by rewrite Hc.
  - by destruct (isspace d).
Qed.

Lemma rstrip_app_nonspace (a b : pystr) (c : N) :
  isspace c = false → rstrip (a ++ c :: b) = a ++ c :: rstrip b.
Proof.
  intros Hc. unfold rstrip.
  rewrite rev_app_distr. simpl rev. rewrite <- app_assoc. simpl app.
  rewrite (lstrip_app_nonspace _ _ _ Hc).
  rewrite rev_app_distr. simpl rev.
  by rewrite rev_involutive, <- app_assoc.
Qed.

Lemma rstrip_idemp (s : pystr) : rstrip (rstrip s) = rstrip s.
Proof. unfold rstrip. by rewrite rev_involutive, lstrip_idemp. Qed.

Lemma rstrip_space (a : pystr) :
  Forall (λ c, isspace c = true) a → rstrip a = [].
Proof.
  intros Ha. unfold rstrip. rewrite lstrip_space; [done|].
  apply Forall_forall. intros c Hin. rewrite Forall_forall in Ha.
  apply Ha. apply list_elem_of_In. apply in_rev. by apply list_elem_of_In.
Qed.

Lemma rstrip_snoc_space (s : pystr) (c : N) :
  isspace c = true → rstrip (s ++ [c]) = rstrip s.
Proof.
  intros Hc. unfold rstrip. rewrite rev_app_distr. simpl. by rewrite Hc.
Qed.

(** A string is blanks, then what [lstrip] keeps. *)
Lemma lstrip_split (s : pystr) :
  ∃ blanks, s = blanks ++ lstrip s ∧ Forall (λ c, isspace c = true) blanks.
Proof.
  induction s as [|c s (blanks & Hs & Hblanks)]; simpl.
  - by exists [].
  - destruct (isspace c) eqn:Hc.
    + exists (c :: blanks). split; [by rewrite Hs at 1|by constructor].
    + by exists [].
Qed.

Lemma lstrip_rstrip (s : pystr) : lstrip (rstrip s) = rstrip (lstrip s).
Proof.
  destruct (lstrip_split s) as (blanks & Hs & Hblanks).
  pose proof (lstrip_head s) as Hhead.
  destruct (lstrip s) as [|c y] eqn:Hl.
  - rewrite app_nil_r in Hs. subst blanks.
    by rewrite (rstrip_space _ Hblanks).
  - rewrite Hs.
    rewrite (rstrip_app_nonspace blanks y c Hhead).
    rewrite (lstrip_app_nonspace blanks (rstrip y) c Hhead).
    rewrite (lstrip_space _ Hblanks).
    symmetry. exact (rstrip_app_nonspace [] y c Hhead).
Qed.

Lemma strip_idemp (s : pystr) : strip (strip s) = strip s.
Proof.
  unfold strip. by rewrite lstrip_rstrip, lstrip_idemp, rstrip_idemp.
Qed.

Lemma strip_lstrip (s : pystr) : strip (lstrip s) = strip s.
Proof. unfold strip. by rewrite lstrip_idemp. Qed.

Lemma strip_rstrip (s : pystr) : strip (rstrip s) = strip s.
Proof. unfold strip. by rewrite lstrip_rstrip, rstrip_idemp. Qed.

(** The first and the last character of a trimmed string are not blank. *)
Lemma strip_head (s : pystr) :
  match strip s with c :: _ => isspace c = false | [] => True end.
Proof.
  unfold strip. rewrite <- lstrip_rstrip. apply lstrip_head.
Qed.

Lemma strip_last (s : pystr) :
  match last (strip s) with Some c => isspace c = false | None => True end.
Proof.
  unfold strip, rstrip.
  pose proof (lstrip_head (rev (lstrip s))) as Hhead.
  destruct (lstrip (rev (lstrip s))) as [|c y]; [done|].
  simpl rev. by rewrite last_snoc.
Qed.

(** A string that starts and ends with a character that is not blank is its
    own trimming. *)
Lemma strip_fixed (s : pystr) :
  match s with c :: _ => isspace c = false | [] => True end →
  match last s with Some c => isspace c = false | None => True end →
  strip s = s.
Proof.
  intros Hhead Hlast. unfold strip.
  rewrite (proj2 (lstrip_fixed s) Hhead).
  destruct s as [|c y] using rev_ind; [done|].
  rewrite last_snoc in Hlast.
  replace (y ++ [c]) with (y ++ c :: []) by done.
  by rewrite (rstrip_app_nonspace y [] c Hlast).
Qed.

Lemma join_head (sep x : pystr) (rest : list pystr) :
  ∃ tail, join sep (x :: rest) = x ++ tail.
Proof.
  destruct rest as [|y rest]; simpl.
  - exists []. by rewrite app_nil_r.
  - by eexists.
Qed.

Lemma join_last (sep : pystr) (items : list pystr) (x : pystr) :
  last items = Some x → ∃ front, join sep items = front ++ x.
Proof.
  induction items as [|y items IH]; [done|].
  destruct items as [|z items].
  - intros [= ->]. by exists [].
  - intros Hlast. destruct (IH Hlast) as [front Hfront].
    exists (y ++ sep ++ front).
    change (join sep (y :: z :: items)) with (y ++ sep ++ join sep (z :: items)).
    by rewrite Hfront, <- !app_assoc.
Qed.

(** Joining trimmed, non-empty blocks gives a trimmed text. *)
Lemma strip_join (sep : pystr) (blocks : list pystr) :
  Forall (λ b, b ≠ [] ∧ strip b = b) blocks →
  strip (join sep blocks) = join sep blocks.
Proof.
  intros Hblocks.
  destruct blocks as [|x rest]; [done|].
  apply strip_fixed.
  - destruct (join_head sep x rest) as [tail ->].
    apply Forall_cons in Hblocks as [[Hx Hstrip] _].
    pose proof (strip_head x) as Hhead. rewrite Hstrip in Hhead.
    by destruct x.
  - destruct (last (x :: rest)) as [z|] eqn:Hlast.
    2:{ by apply last_None in Hlast. }
    destruct (join_last sep _ _ Hlast) as [front ->].
    rewrite Forall_forall in Hblocks.
    destruct (Hblocks z) as [Hz Hstrip].
    { apply last_Some in Hlast as [l' Hl']. rewrite Hl'.
      apply elem_of_app. right. by left. }
    pose proof (strip_last z) as Hl. rewrite Hstrip in Hl.
    destruct z as [|d z' _] using rev_ind; [done|].
    rewrite app_assoc, last_snoc. by rewrite last_snoc in Hl.
Qed.

(** ** The slide reader *)

Lemma shapes_loop_step (shape : pptx_reader.Shape)
    (rest : list pptx_reader.Shape) (text_blocks all_text : list pystr) :
  pptx_reader.shapes_loop (shape :: rest) text_blocks all_text
  = match shape_block shape with
    | Some b =>
        pptx_reader.shapes_loop rest (text_blocks ++ [b]) (all_text ++ [b])
    | None => pptx_reader.shapes_loop rest text_blocks all_text
    end.
Proof.
  simpl. unfold shape_block.
  destruct (pptx_reader.text_attr shape) as [shape_text|]; [|done].
  by destruct (truthy (strip shape_text)).
Qed.

Lemma shapes_loop_blocks (shapes : list pptx_reader.Shape) :
  ∀ text_blocks all_text,
    pptx_reader.shapes_loop shapes text_blocks all_text
    = (text_blocks ++ omap shape_block shapes,
       all_text ++ omap shape_block shapes).
Proof.
  induction shapes as [|shape rest IH]; intros text_blocks all_text.
  - simpl. by rewrite !app_nil_r.
  - rewrite shapes_loop_step.
    change (omap shape_block (shape :: rest))
      with (match shape_block shape with
            | Some b => b :: omap shape_block rest
            | None => omap shape_block rest
            end).
    destruct (shape_block shape) as [b|]; rewrite IH; [|done].
    by rewrite <- !app_assoc.
Qed.

Lemma slide_record_blocks (slide_num : Z) (slide : pptx_reader.Slide) :
  let blocks := omap shape_block (pptx_reader.shapes slide) in
  pptx_reader.slide_record slide_num slide
  = {| pptx_reader.slide_number := slide_num;
       pptx_reader.text := join nl blocks;
       pptx_reader.original_text := join nl blocks;
       pptx_reader.text_blocks := blocks |}.
Proof.
  unfold pptx_reader.slide_record. rewrite shapes_loop_blocks. simpl.
  by destruct (omap shape_block (pptx_reader.shapes slide)).
Qed.

Lemma slides_loop_records (slides : list pptx_reader.Slide) :
  ∀ slide_num slides_data,
    pptx_reader.slides_loop slide_num slides slides_data
    = slides_data
      ++ imap (λ j, pptx_reader.slide_record (slide_num + Z.of_nat j)) slides.
Proof.
  induction slides as [|slide rest IH]; intros slide_num slides_data; simpl.
  - by rewrite app_nil_r.
  - rewrite IH, <- app_assoc. simpl. rewrite Z.add_0_r.
    do 2 f_equal. apply imap_ext. intros j x _. simpl. f_equal. lia.
Qed.

Lemma shape_block_trimmed (shape : pptx_reader.Shape) (b : pystr) :
  shape_block shape = Some b → b ≠ [] ∧ strip b = b.
Proof.
  unfold shape_block.
  destruct (pptx_reader.text_attr shape) as [shape_text|]; [|done].
  destruct (truthy (strip shape_text)) eqn:Htruthy; [|done].
  intros [= <-]. split; [|apply strip_idemp].
  by destruct (strip shape_text).
Qed.

Lemma blocks_trimmed (shapes : list pptx_reader.Shape) :
  Forall (λ b, b ≠ [] ∧ strip b = b) (omap shape_block shapes).
Proof.
  apply Forall_forall. intros b (shape & _ & Hb)%list_elem_of_omap.
  by apply (shape_block_trimmed shape).
Qed.

Lemma join_nil_inv (sep : pystr) (blocks : list pystr) :
  Forall (λ b, b ≠ []) blocks → join sep blocks = [] → blocks = [].
Proof.
  intros Hblocks Hjoin. destruct blocks as [|x rest]; [done|].
  apply Forall_cons in Hblocks as [Hx _].
  destruct (join_head sep x rest) as [tail Htail].
  rewrite Htail in Hjoin. by apply app_eq_nil in Hjoin as [? _].
Qed.

Lemma extract_records Presentation (file_path : pystr) prs :
  Presentation file_path = pptx_reader.Returns prs →
  pptx_reader.extract_text_from_pptx Presentation file_path
  = pptx_reader.Returns
      (imap (λ j, pptx_reader.slide_record (1 + Z.of_nat j))
         (pptx_reader.slides prs)).
Proof.
  intros Hopen. unfold pptx_reader.extract_text_from_pptx.
  by rewrite Hopen, slides_loop_records.
Qed.

(** The reader gives one record for each slide of the presentation, in the
    order of the slides and numbered from 1, also for a slide without text.
    The blocks of a record are the trimmed texts of the shapes that have a
    text that is not blank, in the order of the shapes; its text is the
    blocks joined by line feeds, and [original_text] is a copy of it. *)
Theorem extract_one_record_per_slide Presentation (file_path : pystr) prs :
  Presentation file_path = pptx_reader.Returns prs →
  ∃ records,
    pptx_reader.extract_text_from_pptx Presentation file_path
    = pptx_reader.Returns records
    ∧ length records = length (pptx_reader.slides prs)
    ∧ ∀ (j : nat) slide,
        pptx_reader.slides prs !! j = Some slide →
        ∃ r, records !! j = Some r
             ∧ pptx_reader.slide_number r = 1 + Z.of_nat j
             ∧ pptx_reader.text_blocks r
               = omap shape_block (pptx_reader.shapes slide)
             ∧ pptx_reader.text r = join nl (pptx_reader.text_blocks r)
             ∧ pptx_reader.original_text r = pptx_reader.text r.
Proof.
  intros Hopen. eexists. split; [by apply extract_records|].
  split; [by rewrite length_imap|].
  intros j slide Hj. eexists. split.
  { rewrite list_lookup_imap, Hj. reflexivity. }
  by rewrite slide_record_blocks.
Qed.

Lemma slide_record_trimmed (slide_num : Z) (slide : pptx_reader.Slide) :
  let r := pptx_reader.slide_record slide_num slide in
  strip (pptx_reader.text r) = pptx_reader.text r
  ∧ Forall (λ b, b ≠ [] ∧ strip b = b) (pptx_reader.text_blocks r)
  ∧ (pptx_reader.text r = [] ↔ pptx_reader.text_blocks r = []).
Proof.
  rewrite slide_record_blocks. simpl.
  pose proof (blocks_trimmed (pptx_reader.shapes slide)) as Hblocks.
  split_and!.
  - by apply strip_join.
  - done.
  - split; [|by intros ->].
    apply join_nil_inv. eapply Forall_impl; [exact Hblocks|]. by intros b [].
Qed.

(** The text of a record has no blank at either end, and neither has any of
    its blocks, none of which is empty; the text is empty exactly when the
    slide gave no block. *)
Theorem extract_text_trimmed Presentation (file_path : pystr) records :
  pptx_reader.extract_text_from_pptx Presentation file_path
  = pptx_reader.Returns records →
  Forall
    (λ r, strip (pptx_reader.text r) = pptx_reader.text r
          ∧ Forall (λ b, b ≠ [] ∧ strip b = b) (pptx_reader.text_blocks r)
          ∧ (pptx_reader.text r = [] ↔ pptx_reader.text_blocks r = []))
    records.
Proof.
  unfold pptx_reader.extract_text_from_pptx.
  destruct (Presentation file_path) as [prs|e]; [|done].
  intros [= <-]. rewrite slides_loop_records. simpl.
  apply Forall_forall. intros r Hr.
  apply list_elem_of_lookup in Hr as [j Hr].
  rewrite list_lookup_imap in Hr.
  destruct (pptx_reader.slides prs !! j) as [slide|]; [|done].
  injection Hr as <-. apply slide_record_trimmed.
Qed.

(** Whenever [extract_text_from_pptx] returns, [get_slide_count] returns for
    the same file the number of records it returned; and when opening the
    file fails, both raise the exception with the same message, the fixed
    prefix followed by the message of the failure.  Nothing is said of a
    file that opens and whose slides cannot be read. *)
Theorem slide_count_matches_records Presentation (file_path : pystr) :
  (∀ records,
     pptx_reader.extract_text_from_pptx Presentation file_path
     = pptx_reader.Returns records →
     pptx_reader.get_slide_count Presentation file_path
     = pptx_reader.Returns (len records))
  ∧ (∀ e,
       Presentation file_path = pptx_reader.RaisesException e →
       let message :=
         lit "Error occurred while reading PowerPoint file: " ++ e in
       pptx_reader.extract_text_from_pptx Presentation file_path
       = pptx_reader.RaisesException message
       ∧ pptx_reader.get_slide_count Presentation file_path
         = pptx_reader.RaisesException message).
Proof.
  unfold pptx_reader.get_slide_count, pptx_reader.extract_text_from_pptx.
  split.
  - intros records. destruct (Presentation file_path) as [prs|e]; [|done].
    intros [= <-]. rewrite slides_loop_records.
    unfold len. simpl. by rewrite length_imap.
  - intros e ->. done.
Qed.

(** ** From the reader to the narrator *)

Ltac find_suffix := repeat first [ reflexivity | apply suffix_app_r ].

(** Every prompt carries the text of its slide as it is, and ends with the
    tone of the narrator's style. *)
Lemma prompt_carries_text_and_tone (self : AITeacherNarrator)
    (slide_text : pystr) (slide_number total_slides : Z) (is_title : bool) :
  let prompt :=
    _build_context_aware_prompt self slide_text slide_number total_slides
      is_title in
  occurs_in slide_text prompt
  ∧ (lit "Tone: " ++ prompt_style (_get_style_config (style self)))
    `suffix_of` prompt.
Proof.
  unfold _build_context_aware_prompt.
  destruct (slide_number =? 1); [|destruct (slide_number =? total_slides)].
  - unfold opener_prompt. split; [find_occurrence|find_suffix].
  - unfold closer_prompt. split; [find_occurrence|find_suffix].
  - unfold body_prompt. split; [find_occurrence|find_suffix].
Qed.

Lemma holds_record_text h slide r :
  holds_record h slide r → slide_text h slide = Some (pptx_reader.text r).
Proof.
  intros (d & Hd & _ & Ht & _). unfold slide_text. by rewrite Hd, Ht.
Qed.

Lemma holds_records_well_typed h slides_data items records :
  holds_records h slides_data items records →
  well_typed_deck h slides_data items.
Proof.
  intros [Hlist Hrecords]. split; [done|].
  apply Forall_forall. intros slide Hin.
  apply list_elem_of_lookup in Hin as [j Hj].
  destruct (Forall2_lookup_l _ _ _ _ _ Hrecords Hj) as (r & _ & Hr).
  rewrite (holds_record_text _ _ _ Hr). eauto.
Qed.

(** The dictionaries of the reader are distinct objects: they hold distinct
    slide numbers. *)
Lemma holds_records_positions h slides_data items records (j k : nat) slide :
  holds_records h slides_data items records →
  (∀ (j : nat) r,
     records !! j = Some r → pptx_reader.slide_number r = 1 + Z.of_nat j) →
  items !! j = Some slide → items !! k = Some slide → j = k.
Proof.
  intros [_ Hrecords] Hnumbers Hj Hk.
  destruct (Forall2_lookup_l _ _ _ _ _ Hrecords Hj)
    as (rj & Hrj & d & Hd & Hnj & _).
  destruct (Forall2_lookup_l _ _ _ _ _ Hrecords Hk)
    as (rk & Hrk & d' & Hd' & Hnk & _).
  rewrite Hd in Hd'. injection Hd' as <-.
  rewrite Hnj in Hnk. injection Hnk as Hn.
  rewrite (Hnumbers _ _ Hrj), (Hnumbers _ _ Hrk) in Hn. lia.
Qed.

Lemma extract_numbers Presentation (file_path : pystr) records :
  pptx_reader.extract_text_from_pptx Presentation file_path
  = pptx_reader.Returns records →
  ∀ (j : nat) r,
    records !! j = Some r →
    pptx_reader.slide_number r = 1 + Z.of_nat j
    ∧ pptx_reader.original_text r = pptx_reader.text r
    ∧ strip (pptx_reader.text r) = pptx_reader.text r.
Proof.
  unfold pptx_reader.extract_text_from_pptx.
  destruct (Presentation file_path) as [prs|e]; [|done].
  intros [= <-] j r. rewrite slides_loop_records. simpl.
  rewrite list_lookup_imap.
  destruct (pptx_reader.slides prs !! j) as [slide|]; [|done].
  intros [= <-]. split_and!.
  - by rewrite slide_record_blocks.
  - by rewrite slide_record_blocks.
  - apply slide_record_trimmed.
Qed.

Section ReaderAndNarrator.

Context {B : Type}.
Variable SDK_VERSION : sdk_version.
Variable generate_content : B → pystr → option pyfloat → response * B.

(** A pass over the deck that the reader extracted from a file.  The pass
    returns; the index under which a slide is narrated is the slide number
    the reader gave it; a fallback narration is the [text] of the slide as
    it is, since the reader trimmed it; a slide with fewer than 5 characters
    of text gets its text and no call; every call for a slide carries its
    text in the prompt; and [text] and [original_text] are left as the
    reader wrote them. *)
Theorem narrate_extracted_deck Presentation (file_path : pystr) records
    slides_data progress_callback (w : world B) items :
  pptx_reader.extract_text_from_pptx Presentation file_path
  = pptx_reader.Returns records →
  holds_records (heap w) slides_data items records →
  ∃ w' evs,
    narrate_slides SDK_VERSION generate_content slides_data progress_callback
      w
    = (Return slides_data, w', evs)
    ∧ ∀ (j : nat) slide r,
        items !! j = Some slide → records !! j = Some r →
        let i := pptx_reader.slide_number r in
        let t := pptx_reader.text r in
        i = 1 + Z.of_nat j
        ∧ slide_field (heap w') slide key_text = Some (VStr t)
        ∧ slide_field (heap w') slide (lit "original_text") = Some (VStr t)
        ∧ (∃ v, slide_field (heap w') slide key_ai_narration = Some (VStr v)
                ∧ (v = t ∨ (i, v) ∈ successes evs))
        ∧ (len t < 5 →
           slide_field (heap w') slide key_ai_narration = Some (VStr t)
           ∧ calls_for i evs = [])
        ∧ (∀ attempt prompt config answer,
             EvGenerate i attempt prompt config answer ∈ evs →
             5 ≤ len t ∧ occurs_in t prompt).
Proof.
  intros Hextract Hholds.
  pose proof (holds_records_well_typed _ _ _ _ Hholds) as Hdeck.
  destruct (narrate_slides_post SDK_VERSION generate_content _
              progress_callback _ _ Hdeck)
    as (w' & evs & Hrun & new & _ & _ & Hframe & _ & _ & _ & _ & Hcalls
        & Hnarr).
  exists w', evs. split; [done|]. simpl in Hframe, Hcalls, Hnarr.
  intros j slide r Hj Hr i t.
  destruct (extract_numbers _ _ _ Hextract j r Hr)
    as (Hi & Horiginal & Hstrip).
  fold t in Hstrip.
  pose proof Hholds as [_ Hrecords].
  destruct (Forall2_lookup_l _ _ _ _ _ Hrecords Hj) as (r' & Hr' & Hrec).
  assert (r' = r) as -> by congruence.
  pose proof (holds_record_text _ _ _ Hrec) as Ht. fold t in Ht.
  assert (∀ i' attempt p c answer,
            EvGenerate i' attempt p c answer ∈ evs → i' = i →
            5 ≤ len t ∧ occurs_in t p) as Hcall.
  { intros i' attempt p c answer Hin ->.
    destruct (call_in_deck _ _ _ _ _ _ _ _ _ _ _ _ _ Hcalls Hin)
      as (_ & _ & _ & slide' & t' & is_title & Hpos & Ht' & Hlong & ->).
    replace (Z.to_nat (i - 1)) with j in Hpos by lia.
    assert (slide' = slide) as -> by congruence.
    assert (t' = t) as -> by congruence.
    rewrite Hstrip in Hlong |- *. split; [done|].
    apply prompt_carries_text_and_tone. }
  assert (∀ v, (∃ i', 1 ≤ i' ∧ items !! Z.to_nat (i' - 1) = Some slide
                      ∧ (i', v) ∈ successes evs) →
               (i, v) ∈ successes evs) as Hmine.
  { intros v (i' & Hi' & Hpos & Hsucc).
    assert (Z.to_nat (i' - 1) = j) as Hsame.
    { eapply holds_records_positions; [exact Hholds| |exact Hpos|exact Hj].
      intros k rk Hk. by destruct (extract_numbers _ _ _ Hextract k rk Hk). }
    replace i with i' by lia. done. }
  destruct (Hnarr slide t) as (v & Hv & Hsrc);
    [by eapply list_elem_of_lookup_2|done|].
  rewrite Hstrip in Hsrc.
  destruct Hrec as (d & Hd & _ & Hdt & Hdo).
  split_and!.
  - done.
  - rewrite (heap_frame_field _ _ _ _ Hframe key_text_ne_narration).
    unfold slide_field. by rewrite Hd.
  - rewrite (heap_frame_field _ _ _ _ Hframe) by done.
    unfold slide_field. rewrite Hd, Hdo. by rewrite Horiginal.
  - exists v. split; [done|].
    destruct Hsrc as [->|Hsucc]; [by left|right; by apply Hmine].
  - intros Hshort. split.
    + destruct Hsrc as [->|Hsucc]; [done|].
      apply Hmine in Hsucc.
      apply success_in_trace in Hsucc as (attempt & p & c & answer & Hin).
      destruct (Hcall _ _ _ _ _ Hin eq_refl). lia.
    + apply calls_for_none.
      intros [| i' attempt p c answer|] Hin; simpl; try done.
      apply bool_decide_eq_false. intros ->.
      destruct (Hcall _ _ _ _ _ Hin eq_refl). lia.
  - intros attempt p c answer Hin. by apply (Hcall _ _ _ _ _ Hin).
Qed.

End ReaderAndNarrator.

(** ** The retry loop, response by response *)

Section RetryLoop.

Context {B : Type}.
Variable SDK_VERSION : sdk_version.
Variable generate_content : B → pystr → option pyfloat → response * B.

Local Arguments attempt_body : simpl never.
Local Arguments successes : simpl never.

Lemma attempt_loop_run slide i total tx prompt (w : world B) r1 c1 r2 c2 :
  let config := call_config SDK_VERSION (self w) in
  generate_content (client w) prompt config = (r1, c1) →
  generate_content c1 prompt config = (r2, c2) →
  attempt_loop SDK_VERSION generate_content [1; 2] slide i total tx prompt w
  = (Return tt,
     after_attempts slide i tx (classify r1) (classify r2) c1 c2 w,
     EvGenerate i 1 prompt config r1
     :: after_call (classify r1)
     ++ (if retries (classify r1)
         then EvGenerate i 2 prompt config r2 :: after_call (classify r2)
         else [])).
Proof.
  intros config Hg1 Hg2.
  unfold attempt_loop, mbind, M_bind, after_attempts.
  rewrite (attempt_body_run _ _ _ _ _ _ _ _ _ _ _ Hg1).
  destruct (classify r1) eqn:Hc1; simpl; try (by destruct w).
  all: erewrite attempt_body_run by exact Hg2.
  all: destruct (classify r2) eqn:Hc2; simpl; by destruct w.
Qed.

(** The retry loop, response by response.  The second call is made exactly
    when the first response is neither a success nor an authorization
    failure; each call that does not end the loop is followed by the pacing
    sleep, after the backoff when it met a rate limit; the narration is the
    first success, and the trimmed text when there is none; and a success
    adds its entry to the history. *)
Theorem retry_loop_outcome slide i total progress_callback t (w : world B)
    r1 c1 r2 c2 :
  slide_text (heap w) slide = Some t →
  5 ≤ len (strip t) →
  let prompt :=
    _build_context_aware_prompt (self w) (strip t) i total
      ((i =? 1) || (len (split (strip t)) <? 15)) in
  let config := call_config SDK_VERSION (self w) in
  generate_content (client w) prompt config = (r1, c1) →
  generate_content c1 prompt config = (r2, c2) →
  let made := generated (classify r1) (classify r2) in
  ∃ w',
    narrate_slide SDK_VERSION generate_content i total progress_callback
      slide w
    = (Return tt, w',
       slide_events i total progress_callback prompt config r1 r2)
    ∧ slide_field (heap w') slide key_ai_narration
      = Some (VStr (default (strip t) made))
    ∧ conversation_history (self w')
      = conversation_history (self w)
        ++ match made with
           | Some v =>
               [{| slide_number := i; text := strip t; narration := v |}]
           | None => []
           end
    ∧ client w' = if retries (classify r1) then c2 else c1.
Proof.
  intros Ht Hlong prompt config Hg1 Hg2 made.
  rewrite (narrate_slide_nontrivial _ _ _ _ _ _ _ _ Ht Hlong).
  fold prompt.
  rewrite (attempt_loop_run _ _ _ _ _ _ _ _ _ _ Hg1 Hg2).
  eexists. split; [reflexivity|]. split_and!.
  - by apply (store_narration_field _ _ _ t).
  - simpl. fold made. destruct made; [done|by rewrite app_nil_r].
  - done.
Qed.

Lemma after_attempts_settings slide i tx v1 v2 (c1 c2 : B) (w : world B) :
  let w' := after_attempts slide i tx v1 v2 c1 c2 w in
  temperature (self w') = temperature (self w)
  ∧ style (self w') = style (self w).
Proof. simpl. by destruct (generated v1 v2). Qed.

(** The loop body on any slide of the input type: how its trace looks, and
    what it leaves. *)
Lemma narrate_slide_segment slide i total progress_callback t (w : world B) :
  slide_text (heap w) slide = Some t →
  ∃ w' seg,
    narrate_slide SDK_VERSION generate_content i total progress_callback
      slide w
    = (Return tt, w', seg)
    ∧ segment_shape i total progress_callback
        (call_config SDK_VERSION (self w)) (strip t) seg
    ∧ heap_frame (heap w) (heap w')
    ∧ temperature (self w') = temperature (self w)
    ∧ style (self w') = style (self w).
Proof.
  intros Ht.
  destruct (Z.lt_ge_cases (len (strip t)) 5) as [Hshort|Hlong].
  - rewrite (narrate_slide_trivial _ _ _ _ _ _ _ _ Ht Hshort).
    eexists _, _. split; [reflexivity|]. split_and!; try done.
    + split; [done|lia].
    + apply heap_frame_store.
  - rewrite (narrate_slide_nontrivial _ _ _ _ _ _ _ _ Ht Hlong).
    set (prompt := _build_context_aware_prompt _ _ _ _ _).
    destruct (generate_content (client w) prompt
                (call_config SDK_VERSION (self w))) as [r1 c1] eqn:Hg1.
    destruct (generate_content c1 prompt (call_config SDK_VERSION (self w)))
      as [r2 c2] eqn:Hg2.
    rewrite (attempt_loop_run _ _ _ _ _ _ _ _ _ _ Hg1 Hg2).
    eexists _, _. split; [reflexivity|]. split_and!.
    + split; [lia|]. intros _. by exists prompt, r1, r2.
    + apply heap_frame_store.
    + apply after_attempts_settings.
    + apply after_attempts_settings.
Qed.

(** The trace of the loop over the slides is the traces of the slides, one
    after the other. *)
Lemma slides_loop_segments slides :
  ∀ i0 total progress_callback (w : world B),
    Forall (λ slide, is_Some (slide_text (heap w) slide)) slides →
    ∃ w' segs,
      slides_loop SDK_VERSION generate_content i0 total progress_callback
        slides w
      = (Return tt, w', concat segs)
      ∧ length segs = length slides
      ∧ ∀ (j : nat) slide t seg,
          slides !! j = Some slide →
          slide_text (heap w) slide = Some t →
          segs !! j = Some seg →
          segment_shape (i0 + Z.of_nat j) total progress_callback
            (call_config SDK_VERSION (self w)) (strip t) seg.
Proof.
  induction slides as [|s rest IH]; intros i0 total cb w Htyped.
  - exists w, []. split; [done|]. split; [done|]. by intros [|j].
  - apply Forall_cons in Htyped as [[t Ht] Hrest].
    destruct (narrate_slide_segment s i0 total cb t w Ht)
      as (w1 & seg1 & Hstep & Hshape1 & Hframe1 & Htemp1 & Hstyle1).
    assert (Forall (λ slide, is_Some (slide_text (heap w1) slide)) rest)
      as Hrest1.
    { eapply Forall_impl; [exact Hrest|]. intros x Hx.
      by rewrite (heap_frame_slide_text _ _ _ Hframe1). }
    destruct (IH (i0 + 1) total cb w1 Hrest1)
      as (w' & segs & Hloop & Hlen & Hshapes).
    exists w', (seg1 :: segs). split.
    { simpl. erewrite bind_run by exact Hstep. by rewrite Hloop. }
    split; [simpl; by rewrite Hlen|].
    intros [|j] slide t' seg Hj Ht' Hseg; simpl in Hj, Hseg.
    + injection Hj as <-. injection Hseg as <-.
      assert (t' = t) as -> by congruence.
      by rewrite Z.add_0_r.
    + replace (i0 + Z.of_nat (S j)) with (i0 + 1 + Z.of_nat j) by lia.
      rewrite (call_config_congr SDK_VERSION (self w) (self w1)) by done.
      apply (Hshapes j slide t' seg Hj); [|done].
      by rewrite (heap_frame_slide_text _ _ _ Hframe1).
Qed.

End RetryLoop.

(** ** Counting the events of a pass *)

Lemma count_nil kind : count kind [] = 0%nat.
Proof. done. Qed.

Lemma count_cons kind ev evs :
  count kind (ev :: evs)
  = ((if kind ev then 1 else 0) + count kind evs)%nat.
Proof.
  unfold count. rewrite filter_cons.
  destruct (kind ev); by destruct (decide _).
Qed.

Lemma count_app kind evs1 evs2 :
  count kind (evs1 ++ evs2) = (count kind evs1 + count kind evs2)%nat.
Proof. unfold count. by rewrite filter_app, length_app. Qed.

Lemma slide_events_counts i total progress_callback prompt config r1 r2 :
  segment_counts
    (slide_events i total progress_callback prompt config r1 r2).
Proof.
  unfold segment_counts, slide_events.
  destruct (classify r1) eqn:Hc1; destruct (classify r2) eqn:Hc2;
    destruct progress_callback; cbn [after_call retries app].
  all: rewrite ?count_cons, ?count_nil.
  all: cbn [is_call is_progress is_sleep is_retried_call
            is_rate_limited_call].
  all: rewrite ?Hc1, ?Hc2.
  all: split_and!; try (cbn; lia).
  all: repeat (constructor; [intros s [= <-]; auto|]); try constructor.
  all: by intros s.
Qed.

Lemma segment_shape_counts i total progress_callback config tx seg :
  segment_shape i total progress_callback config tx seg → segment_counts seg.
Proof.
  intros [Hshort Hlong].
  destruct (Z.lt_ge_cases (len tx) 5) as [H|H].
  - rewrite (Hshort H). unfold segment_counts. rewrite !count_nil.
    split_and!; try lia. constructor.
  - destruct (Hlong H) as (prompt & r1 & r2 & ->).
    apply slide_events_counts.
Qed.

Lemma concat_counts (segs : list (list event)) :
  Forall segment_counts segs →
  (count is_call (concat segs) ≤ 2 * length segs)%nat
  ∧ (count is_progress (concat segs) ≤ length segs)%nat
  ∧ count (is_sleep (8 # 10)%Q) (concat segs)
    = count is_retried_call (concat segs)
  ∧ count (is_sleep (5 # 1)%Q) (concat segs)
    = count is_rate_limited_call (concat segs)
  ∧ Forall (λ ev, ∀ s, ev = EvSleep s → s = (8 # 10)%Q ∨ s = (5 # 1)%Q)
      (concat segs).
Proof.
  induction 1 as [|seg segs (Hc & Hp & Hs & Hb & Hd) _ (IHc & IHp & IHs & IHb & IHd)];
    simpl.
  - rewrite !count_nil. split_and!; try lia. constructor.
  - rewrite !count_app. split_and!; try lia. by apply Forall_app.
Qed.

Section PassTraces.

Context {B : Type}.
Variable SDK_VERSION : sdk_version.
Variable generate_content : B → pystr → option pyfloat → response * B.

Lemma pass_segments slides_data progress_callback (w : world B) items :
  well_typed_deck (heap w) slides_data items →
  ∃ w' segs,
    narrate_slides SDK_VERSION generate_content slides_data progress_callback
      w
    = (Return slides_data, w', concat segs)
    ∧ length segs = length items
    ∧ ∀ (j : nat) slide t seg,
        items !! j = Some slide →
        slide_text (heap w) slide = Some t →
        segs !! j = Some seg →
        segment_shape (1 + Z.of_nat j) (len items) progress_callback
          (call_config SDK_VERSION (self w)) (strip t) seg.
Proof.
  intros [Hlist Htyped].
  destruct (slides_loop_segments SDK_VERSION generate_content items 1
              (len items) progress_callback (reset w) Htyped)
    as (w' & segs & Hloop & Hlen & Hshapes).
  exists w', segs. split; [by apply (narrate_slides_unfold _ _ _ _ _ items)|].
  split; [done|]. exact Hshapes.
Qed.

(** The trace of a pass is made of one segment for each slide, in the order
    of the deck.  The segment of a slide whose trimmed text is trivial is
    empty.  The segment of any other slide is the progress notification,
    when the caller gave a callback, then the first call, then, when its
    response is neither a success nor an authorization failure, its sleeps
    and the second call with the same prompt and configuration, followed
    again by its sleeps when it does not succeed. *)
Theorem pass_trace_segments slides_data progress_callback (w : world B)
    items :
  well_typed_deck (heap w) slides_data items →
  ∃ w' segs,
    narrate_slides SDK_VERSION generate_content slides_data progress_callback
      w
    = (Return slides_data, w', concat segs)
    ∧ length segs = length items
    ∧ ∀ (j : nat) slide t seg,
        items !! j = Some slide →
        slide_text (heap w) slide = Some t →
        segs !! j = Some seg →
        let i := 1 + Z.of_nat j in
        (len (strip t) < 5 → seg = [])
        ∧ (5 ≤ len (strip t) →
           ∃ prompt r1 r2,
             let config := call_config SDK_VERSION (self w) in
             seg
             = (if progress_callback then [EvProgress i (len items)] else [])
               ++ EvGenerate i 1 prompt config r1
                  :: after_call (classify r1)
                  ++ (if retries (classify r1)
                      then EvGenerate i 2 prompt config r2
                           :: after_call (classify r2)
                      else [])).
Proof.
  intros Hdeck.
  destruct (pass_segments _ progress_callback _ _ Hdeck)
    as (w' & segs & Hrun & Hlen & Hshapes).
  exists w', segs. split; [done|]. split; [done|].
  intros j slide t seg Hj Ht Hseg. exact (Hshapes j slide t seg Hj Ht Hseg).
Qed.

(** What a pass costs.  It makes at most two calls for each slide and at
    most one progress notification; it sleeps the 0.8 seconds of pacing once
    for each call whose response is neither a success nor an authorization
    failure, the 5 seconds of backoff once for each call that met a rate
    limit, and never otherwise. *)
Theorem pass_cost slides_data progress_callback (w : world B) items :
  well_typed_deck (heap w) slides_data items →
  ∃ w' evs,
    narrate_slides SDK_VERSION generate_content slides_data progress_callback
      w
    = (Return slides_data, w', evs)
    ∧ (count is_call evs ≤ 2 * length items)%nat
    ∧ (count is_progress evs ≤ length items)%nat
    ∧ count (is_sleep (8 # 10)%Q) evs = count is_retried_call evs
    ∧ count (is_sleep (5 # 1)%Q) evs = count is_rate_limited_call evs
    ∧ Forall (λ ev, ∀ s, ev = EvSleep s → s = (8 # 10)%Q ∨ s = (5 # 1)%Q)
        evs.
Proof.
  intros Hdeck.
  destruct (pass_segments _ progress_callback _ _ Hdeck)
    as (w' & segs & Hrun & Hlen & Hshapes).
  exists w', (concat segs). split; [done|].
  rewrite <- Hlen. apply concat_counts.
  apply Forall_forall. intros seg Hin.
  apply list_elem_of_lookup in Hin as [j Hseg].
  destruct Hdeck as [_ Htyped].
  destruct (lookup_lt_is_Some_2 items j) as [slide Hj].
  { rewrite <- Hlen. by eapply lookup_lt_Some. }
  rewrite Forall_forall in Htyped.
  destruct (Htyped slide) as [t Ht]; [by eapply list_elem_of_lookup_2|].
  eapply segment_shape_counts. exact (Hshapes j slide t seg Hj Ht Hseg).
Qed.

End PassTraces.

(** ** The order of the history *)

Lemma successes_concat (segs : list (list event)) :
  successes (concat segs) = concat (map successes segs).
Proof.
  induction segs as [|seg segs IH]; [done|].
  simpl. by rewrite successes_app, IH.
Qed.

Lemma slide_events_successes i total progress_callback prompt config r1 r2 :
  let numbers :=
    map fst
      (successes (slide_events i total progress_callback prompt config r1 r2))
  in
  numbers = [] ∨ numbers = [i].
Proof.
  unfold slide_events. rewrite successes_app.
  assert (successes (if progress_callback then [EvProgress i total] else [])
          = []) as -> by (by destruct progress_callback).
  rewrite app_nil_l, successes_call.
  destruct (classify r1) eqn:Hc1; cbn [after_call retries app].
  all: rewrite ?successes_sleep; try (by right); try (by left).
  all: rewrite successes_call.
  all: destruct (classify r2) eqn:Hc2; cbn [after_call].
  all: rewrite ?successes_sleep; try (by right); by left.
Qed.

Lemma segment_shape_successes i total progress_callback config tx seg :
  segment_shape i total progress_callback config tx seg →
  map fst (successes seg) = [] ∨ map fst (successes seg) = [i].
Proof.
  intros [Hshort Hlong].
  destruct (Z.lt_ge_cases (len tx) 5) as [H|H].
  - rewrite (Hshort H). by left.
  - destruct (Hlong H) as (prompt & r1 & r2 & ->).
    apply slide_events_successes.
Qed.

(** Lists of numbers of which the one of position [j] is empty or holds
    [i0 + j] only: put end to end they are in strictly increasing order. *)
Lemma concat_in_order (ls : list (list Z)) :
  ∀ i0,
    (∀ (j : nat) l, ls !! j = Some l → l = [] ∨ l = [i0 + Z.of_nat j]) →
    (∀ (j k : nat) a b,
       concat ls !! j = Some a → concat ls !! k = Some b →
       (j < k)%nat → a < b)
    ∧ Forall (λ n, i0 ≤ n < i0 + len ls) (concat ls)
    ∧ (length (concat ls) ≤ length ls)%nat.
Proof.
  induction ls as [|l ls IH]; intros i0 Hls.
  - split_and!; [by intros [|j]|constructor|done].
  - destruct (IH (i0 + 1)) as (Hsorted & Hrange & Hlength).
    { intros j l' Hj. replace (i0 + 1 + Z.of_nat j) with (i0 + Z.of_nat (S j))
        by lia. by apply Hls. }
    assert (Forall (λ n, i0 + 1 ≤ n < i0 + len (l :: ls)) (concat ls))
      as Hrange'.
    { eapply Forall_impl; [exact Hrange|]. intros n Hn.
      unfold len in *. simpl length. lia. }
    destruct (Hls 0%nat l eq_refl) as [->| ->]; simpl.
    + split_and!; [done| |lia].
      eapply Forall_impl; [exact Hrange'|]. intros n Hn.
      unfold len in *. simpl length in *. lia.
    + rewrite Z.add_0_r. split_and!.
      * intros [|j] [|k] a b Ha Hb Hjk; simpl in Ha, Hb; try lia.
        -- injection Ha as <-. rewrite Forall_forall in Hrange'.
           destruct (Hrange' b); [by eapply list_elem_of_lookup_2|lia].
        -- apply (Hsorted j k a b Ha Hb). lia.
      * constructor; [unfold len; simpl length; lia|].
        eapply Forall_impl; [exact Hrange'|]. intros n Hn.
        unfold len in *. simpl length in *. lia.
      * lia.
Qed.

Section HistoryOrder.

Context {B : Type}.
Variable SDK_VERSION : sdk_version.
Variable generate_content : B → pystr → option pyfloat → response * B.

(** After a pass the history holds at most one entry for each slide, in the
    order of the deck: the slide numbers of its entries are strictly
    increasing, between 1 and the number of slides. *)
Theorem history_in_slide_order slides_data progress_callback (w : world B)
    items :
  well_typed_deck (heap w) slides_data items →
  ∃ w' evs,
    narrate_slides SDK_VERSION generate_content slides_data progress_callback
      w
    = (Return slides_data, w', evs)
    ∧ let numbers := map slide_number (conversation_history (self w')) in
      (∀ (j k : nat) a b,
         numbers !! j = Some a → numbers !! k = Some b →
         (j < k)%nat → a < b)
      ∧ Forall (λ n, 1 ≤ n ≤ len items) numbers
      ∧ (length numbers ≤ length items)%nat.
Proof.
  intros Hdeck.
  destruct (narrate_slides_post SDK_VERSION generate_content _
              progress_callback _ _ Hdeck)
    as (w' & evs & Hrun & new & _ & _ & _ & _ & Hhist & Hkeys & _).
  destruct (pass_segments SDK_VERSION generate_content _ progress_callback _
              _ Hdeck)
    as (w2 & segs & Hrun2 & Hlen & Hshapes).
  rewrite Hrun in Hrun2. injection Hrun2 as <- ->.
  exists w', (concat segs). split; [done|].
  simpl in Hhist. rewrite Hhist. simpl.
  assert (map slide_number new
          = concat (map (λ seg, map fst (successes seg)) segs)) as ->.
  { transitivity (map fst (successes (concat segs))).
    - rewrite <- Hkeys, map_map. done.
    - clear. induction segs as [|seg segs IH]; [done|].
      simpl. by rewrite successes_app, map_app, IH. }
  destruct (concat_in_order (map (λ seg, map fst (successes seg)) segs) 1)
    as (Hsorted & Hrange & Hlength).
  { intros j l Hj. rewrite list_lookup_fmap in Hj.
    destruct (segs !! j) as [seg|] eqn:Hseg; [|done].
    injection Hj as <-.
    destruct Hdeck as [_ Htyped].
    destruct (lookup_lt_is_Some_2 items j) as [slide Hslide].
    { rewrite <- Hlen. by eapply lookup_lt_Some. }
    rewrite Forall_forall in Htyped.
    destruct (Htyped slide) as [t Ht]; [by eapply list_elem_of_lookup_2|].
    eapply segment_shape_successes.
    exact (Hshapes j slide t seg Hslide Ht Hseg). }
  split; [done|].
  assert (length (map (λ seg, map fst (successes seg)) segs) = length items)
    as Hsame.
  { by rewrite length_map, Hlen. }
  split.
  - eapply Forall_impl; [exact Hrange|]. intros n Hn.
    unfold len in Hn. rewrite Hsame in Hn. unfold len. lia.
  - by rewrite <- Hsame.
Qed.

End HistoryOrder.

(** ** What a pass stores, and what it sends *)

Lemma success_trimmed (i : Z) (v : pystr) (evs : list event) :
  (i, v) ∈ successes evs → strip v = v ∧ v ≠ [].
Proof.
  intros (ev & _ & Hsucc)%list_elem_of_omap.
  destruct ev as [| j attempt p c [narration|]|]; simpl in Hsucc; try done.
  destruct (non_blank narration) eqn:Hnb; [|done].
  injection Hsucc as _ <-. split; [apply strip_idemp|].
  by apply non_blank_strip.
Qed.

Section PassContents.

Context {B : Type}.
Variable SDK_VERSION : sdk_version.
Variable generate_content : B → pystr → option pyfloat → response * B.

(** Whatever the backend answers, what a pass stores is trimmed: after the
    pass the narration of every slide has no blank at either end, and it is
    empty only when the text of the slide is blank; and every entry of the
    history holds a narration that is trimmed and not empty, for a text that
    is trimmed and has at least 5 characters. *)
Theorem narrations_are_trimmed slides_data progress_callback (w : world B)
    items :
  well_typed_deck (heap w) slides_data items →
  ∃ w' evs,
    narrate_slides SDK_VERSION generate_content slides_data progress_callback
      w
    = (Return slides_data, w', evs)
    ∧ (∀ slide t,
         slide ∈ items → slide_text (heap w) slide = Some t →
         ∃ v, slide_field (heap w') slide key_ai_narration = Some (VStr v)
              ∧ strip v = v
              ∧ (v = [] → strip t = []))
    ∧ Forall
        (λ e, strip (narration e) = narration e ∧ narration e ≠ []
              ∧ strip (text e) = text e ∧ 5 ≤ len (text e))
        (conversation_history (self w')).
Proof.
  intros Hdeck.
  destruct (narrate_slides_post SDK_VERSION generate_content _
              progress_callback _ _ Hdeck)
    as (w' & evs & Hrun & new & _ & _ & _ & _ & Hhist & Hkeys & Hent & _
        & Hnarr).
  exists w', evs. split; [done|]. simpl in Hhist, Hent, Hnarr. split.
  - intros slide t Hin Ht.
    destruct (Hnarr slide t Hin Ht) as (v & Hv & Hsrc).
    exists v. split; [done|].
    destruct Hsrc as [->|(i & _ & _ & Hsucc)].
    + split; [apply strip_idemp|done].
    + by destruct (success_trimmed _ _ _ Hsucc).
  - rewrite Hhist. simpl. apply Forall_forall. intros e He.
    assert ((slide_number e, narration e) ∈ successes evs) as Hsucc.
    { rewrite <- Hkeys. apply (list_elem_of_fmap_2 entry_key _ _ He). }
    destruct (success_trimmed _ _ _ Hsucc) as [Hstrip Hne].
    rewrite Forall_forall in Hent.
    destruct (Hent e He) as (_ & slide & t & _ & _ & -> & Hlong).
    split_and!; try done. apply strip_idemp.
Qed.

(** Every call of a pass is for a slide of the deck whose trimmed text is
    not trivial, and its prompt carries that trimmed text as it is and ends
    with the tone of the narrator's style. *)
Theorem pass_prompts_carry_slide_text slides_data progress_callback
    (w : world B) items :
  well_typed_deck (heap w) slides_data items →
  ∃ w' evs,
    narrate_slides SDK_VERSION generate_content slides_data progress_callback
      w
    = (Return slides_data, w', evs)
    ∧ ∀ i attempt prompt config r,
        EvGenerate i attempt prompt config r ∈ evs →
        ∃ slide t,
          items !! Z.to_nat (i - 1) = Some slide
          ∧ slide_text (heap w) slide = Some t
          ∧ 5 ≤ len (strip t)
          ∧ occurs_in (strip t) prompt
          ∧ (lit "Tone: " ++ prompt_style (_get_style_config (style (self w))))
            `suffix_of` prompt.
Proof.
  intros Hdeck.
  destruct (narrate_slides_post SDK_VERSION generate_content _
              progress_callback _ _ Hdeck)
    as (w' & evs & Hrun & new & _ & _ & _ & _ & _ & _ & _ & Hcalls & _).
  exists w', evs. split; [done|]. simpl in Hcalls.
  intros i attempt prompt config r Hin.
  destruct (call_in_deck _ _ _ _ _ _ _ _ _ _ _ _ _ Hcalls Hin)
    as (_ & _ & _ & slide & t & is_title & Hpos & Ht & Hlong & ->).
  exists slide, t. split_and!; try done.
  - apply prompt_carries_text_and_tone.
  - apply (prompt_carries_text_and_tone
             (set_history _ (set_history [] (self w)))).
Qed.

(** ** A deck that is not of the input type *)

Lemma narrate_slide_ill_typed slide i total progress_callback (w : world B) :
  slide_text (heap w) slide = None →
  narrate_slide SDK_VERSION generate_content i total progress_callback slide
    w
  = (Raise AttributeError, w, []).
Proof.
  unfold slide_text, narrate_slide, dict_get, mbind, M_bind.
  destruct (heap w !! slide) as [[d|]|]; try done.
  by destruct (d !! key_text) as [[]|].
Qed.

Lemma slides_loop_app rest total progress_callback before :
  ∀ i0 (w w1 : world B) e1,
    slides_loop SDK_VERSION generate_content i0 total progress_callback
      before w
    = (Return tt, w1, e1) →
    slides_loop SDK_VERSION generate_content i0 total progress_callback
      (before ++ rest) w
    = match
        slides_loop SDK_VERSION generate_content (i0 + len before) total
          progress_callback rest w1
      with
      | (r, w2, e2) => (r, w2, e1 ++ e2)
      end.
Proof.
  induction before as [|s before IH]; intros i0 w w1 e1 Hrun.
  - injection Hrun as <- <-. simpl. rewrite Z.add_0_r.
    by destruct (slides_loop _ _ _ _ _ _ _) as [[r w2] e2].
  - simpl in Hrun |- *. unfold mbind, M_bind in Hrun |- *.
    destruct (narrate_slide _ _ _ _ _ _ _) as [[[[]|e] wa] ea]; [|done].
    destruct (slides_loop _ _ (i0 + 1) _ _ before wa) as [[rb wb] eb] eqn:Hb.
    injection Hrun as -> -> <-.
    rewrite (IH _ _ _ _ Hb).
    replace (i0 + 1 + len before) with (i0 + len (s :: before))
      by (unfold len; simpl length; lia).
    destruct (slides_loop _ _ _ _ _ rest w1) as [[r w2] e2].
    by rewrite app_assoc.
Qed.

Lemma ill_typed_slide_text (h : gmap loc pyobj) slide :
  ill_typed_slide h slide → slide_text h slide = None.
Proof.
  unfold ill_typed_slide, slide_text.
  destruct (h !! slide) as [[d|items]|]; try done.
  intros (v & -> & Hv). by destruct v.
Qed.

(** When a slide of the deck is a list instead of a dictionary, or a
    dictionary whose [text] is [None], an [int], a list or a dictionary, the
    pass raises [AttributeError] at that slide.  The slides before it have
    their narration by then; no call is made for that slide or a later one,
    and nothing but the slides before it has changed. *)
Theorem narrate_slides_ill_typed slides_data progress_callback (w : world B)
    before bad after :
  heap w !! slides_data = Some (OList (before ++ bad :: after)) →
  Forall (λ slide, is_Some (slide_text (heap w) slide)) before →
  ill_typed_slide (heap w) bad →
  ∃ w' evs,
    narrate_slides SDK_VERSION generate_content slides_data progress_callback
      w
    = (Raise AttributeError, w', evs)
    ∧ (∀ i attempt prompt config r,
         EvGenerate i attempt prompt config r ∈ evs → 1 ≤ i ≤ len before)
    ∧ (∀ l, l ∉ before → heap w' !! l = heap w !! l)
    ∧ (∀ slide, slide ∈ before →
         ∃ v, slide_field (heap w') slide key_ai_narration = Some (VStr v)).
Proof.
  intros Hlist Htyped Hbad%ill_typed_slide_text.
  set (total := len (before ++ bad :: after)).
  destruct (slides_loop_post SDK_VERSION generate_content before 1 total
              progress_callback (reset w) Htyped)
    as (w1 & e1 & Hloop & new & _ & _ & Hframe & Hout & _ & _ & _ & Hcalls
        & Hnarr).
  simpl in Hframe, Hout, Hcalls, Hnarr.
  exists w1, e1. split.
  - unfold narrate_slides.
    erewrite bind_run by (unfold list_items; by rewrite Hlist).
    erewrite bind_run by reflexivity.
    erewrite bind_run by reflexivity.
    fold total. unfold mbind at 1. unfold M_bind.
    rewrite (slides_loop_app _ _ _ _ _ _ _ _ Hloop).
    simpl slides_loop. unfold mbind at 1. unfold M_bind at 1.
    rewrite narrate_slide_ill_typed.
    + by rewrite app_nil_r.
    + by rewrite (heap_frame_slide_text _ _ _ Hframe).
  - split_and!.
    + intros i attempt prompt config r Hin.
      destruct (call_in_deck _ _ _ _ _ _ _ _ _ _ _ _ _ Hcalls Hin)
        as (Hi & _ & _ & slide & t & _ & Hpos & _).
      apply lookup_lt_Some in Hpos. unfold len. lia.
    + done.
    + intros slide Hin. rewrite Forall_forall in Htyped.
      destruct (Htyped slide Hin) as [t Ht].
      destruct (Hnarr slide t Hin Ht) as (v & Hv & _). by exists v.
Qed.

End PassContents.

(** ** Building a narrator *)

(** [__init__] raises [ImportError] when no SDK was found, whatever the key;
    with an SDK it raises [ValueError] when the environment has no key or a
    key of blanks only; and a narrator that was built has the temperature
    and the style of the call, 0.7 and [engaging] when they are omitted, and
    an empty history. *)
Theorem init_outcomes (SDK_VERSION : option sdk_version)
    (env_key : option pystr) (temperature_arg : option pyfloat)
    (style_arg : option pystr) :
  let built := __init__ SDK_VERSION env_key temperature_arg style_arg in
  (SDK_VERSION = None → built = Raise ImportError)
  ∧ (is_Some SDK_VERSION →
     env_key = None ∨ (∃ key, env_key = Some key ∧ strip key = []) →
     built = Raise ValueError)
  ∧ (∀ narrator,
       built = Return narrator →
       is_Some SDK_VERSION
       ∧ (∃ key, env_key = Some key ∧ strip key ≠ [])
       ∧ temperature narrator = default (7 # 10)%Q temperature_arg
       ∧ style narrator = default (lit "engaging") style_arg
       ∧ conversation_history narrator = []).
Proof.
  unfold __init__, get_gemini_api_key. split_and!.
  - by intros ->.
  - intros [sdk ->] [->|(key & -> & Hblank)]; [done|].
    destruct key as [|c key]; [done|]. by rewrite Hblank.
  - intros narrator. destruct SDK_VERSION as [sdk|]; [|done].
    destruct env_key as [[|c key]|]; try done.
    destruct (strip (c :: key)) as [|c' key'] eqn:Hkey; [done|].
    intros [= <-]. split_and!; try done.
    exists (c :: key). by rewrite Hkey.
Qed.

(** ** Loading API keys *)

Lemma lines_from_line (body rest : pystr) :
  10%N ∉ body →
  ∀ line,
    config.lines_from line (body ++ 10%N :: rest)
    = (rev line ++ body ++ [10%N]) :: config.lines_from [] rest.
Proof.
  induction body as [|c body IH]; intros Hbody line; simpl.
  - done.
  - apply not_elem_of_cons in Hbody as [Hc Hbody].
    destruct (N.eqb_spec c 10) as [->|_]; [done|].
    rewrite (IH Hbody). simpl. by rewrite <- app_assoc.
Qed.

(** The text of a line is a body without line feed, and the line feed. *)
Lemma render_line_body (l : config_line) :
  plain_line l → ∃ body, render_line l = body ++ [10%N] ∧ 10%N ∉ body.
Proof.
  destruct l as [name value|remark|]; simpl.
  - intros (Hname & _ & Hvalue & _).
    exists (name ++ lit "=" ++ value). split.
    + by rewrite <- !app_assoc.
    + rewrite !not_elem_of_app. split_and!; try done.
      intros Hin. apply elem_of_cons in Hin as [Heq|Hin]; [done|].
      by apply elem_of_nil in Hin.
  - intros Hremark. exists (lit "#" ++ remark). split; [done|].
    rewrite not_elem_of_app. split; [|done].
    intros Hin. apply elem_of_cons in Hin as [Heq|Hin]; [done|].
    by apply elem_of_nil in Hin.
  - intros _. exists []. split; [done|apply not_elem_of_nil].
Qed.

Lemma file_lines_render (ls : list config_line) :
  Forall plain_line ls →
  config.file_lines (render_lines ls) = map render_line ls.
Proof.
  unfold config.file_lines, render_lines.
  induction 1 as [|l ls Hl _ IH]; [done|].
  simpl. destruct (render_line_body l Hl) as (body & -> & Hbody).
  rewrite <- app_assoc. simpl.
  by rewrite (lines_from_line _ _ Hbody), IH.
Qed.

Lemma find_sep_first (sep : N) (before after : pystr) :
  sep ∉ before →
  config.find_sep sep (before ++ sep :: after) = Some (before, after).
Proof.
  induction before as [|c before IH]; simpl; intros Hsep.
  - by rewrite N.eqb_refl.
  - apply not_elem_of_cons in Hsep as [Hc Hsep].
    destruct (N.eqb_spec c sep) as [->|_]; [done|].
    by rewrite (IH Hsep).
Qed.

(** The trimmed text of an assignment line. *)
Lemma strip_assignment (name value : pystr) :
  strip (name ++ 61%N :: value ++ [10%N]) = lstrip name ++ 61%N :: rstrip value.
Proof.
  unfold strip.
  rewrite (lstrip_app_nonspace name _ 61) by done.
  rewrite (rstrip_app_nonspace (lstrip name) _ 61) by done.
  by rewrite rstrip_snoc_space.
Qed.

Lemma scan_lines_assignment (key_name name value : pystr)
    (rest : list pystr) :
  61%N ∉ name → startswith (lit "#") name = false →
  config.scan_lines key_name (render_line (Assignment name value) :: rest)
  = if bool_decide (strip name = key_name)
    then Some (config.Returns (strip value))
    else config.scan_lines key_name rest.
Proof.
  intros Hname Hhash.
  change (render_line (Assignment name value))
    with (name ++ 61%N :: value ++ [10%N]).
  cbn [config.scan_lines]. rewrite strip_assignment.
  assert (truthy (lstrip name ++ 61%N :: rstrip value) = true) as ->.
  { by destruct (lstrip name). }
  assert (startswith (lit "#") (name ++ 61%N :: value ++ [10%N]) = false)
    as ->.
  { destruct name as [|c name]; [done|exact Hhash]. }
  assert (contains (lit "=") (name ++ 61%N :: value ++ [10%N]) = true) as ->.
  { apply contains_occurs. by exists name, (value ++ [10%N]). }
  cbn [andb negb]. unfold config.split_once.
  rewrite find_sep_first.
  - by rewrite strip_lstrip, strip_rstrip.
  - destruct (lstrip_split name) as (blanks & Hsplit & _).
    intros Hin. apply Hname. rewrite Hsplit. apply elem_of_app. by right.
Qed.

Lemma scan_lines_comment (key_name remark : pystr) (rest : list pystr) :
  config.scan_lines key_name (render_line (Comment remark) :: rest)
  = config.scan_lines key_name rest.
Proof.
  change (render_line (Comment remark)) with (35%N :: remark ++ [10%N]).
  cbn [config.scan_lines].
  assert (startswith (lit "#") (35%N :: remark ++ [10%N]) = true) as -> by done.
  by rewrite andb_false_r.
Qed.

Lemma scan_lines_render (key_name : pystr) (ls : list config_line) :
  Forall plain_line ls →
  config.scan_lines key_name (map render_line ls)
  = config.Returns ∘ strip <$> first_assignment key_name ls.
Proof.
  induction 1 as [|l ls Hl _ IH]; [done|].
  destruct l as [name value|remark|]; cbn [map first_assignment].
  - destruct Hl as (_ & Hname & _ & Hhash).
    rewrite (scan_lines_assignment _ _ _ _ Hname Hhash).
    by destruct (bool_decide (strip name = key_name)).
  - by rewrite scan_lines_comment.
  - exact IH.
Qed.

(** Reading a configuration file back.  When the environment does not give
    the key, the key is looked up in the file, where a line is an
    assignment [name=value], a comment or a blank line: the result is the
    trimmed value of the first assignment whose name, trimmed, is the key,
    and [ValueError] when there is none. *)
Theorem get_api_key_reads_config_file (environ : gmap pystr pystr)
    (path : pystr → config.path_state) (key_name file_name : pystr)
    (ls : list config_line) :
  environ !! key_name = None ∨ environ !! key_name = Some [] →
  file_name ≠ [] →
  path file_name = config.TextFile (render_lines ls) →
  Forall plain_line ls →
  config.get_api_key environ path key_name (Some file_name)
  = match first_assignment key_name ls with
    | Some value => config.Returns (strip value)
    | None => config.RaisesValueError
    end.
Proof.
  intros Henv Hname Hfile Hplain. unfold config.get_api_key.
  destruct (environ !! key_name) as [[|c api_key]|].
  2:{ by destruct Henv. }
  all: destruct file_name as [|c file_name]; [done|].
  all: rewrite Hfile, file_lines_render, scan_lines_render by done.
  all: by destruct (first_assignment key_name ls).
Qed.

(** The environment comes first, and the two accessors read nothing else.
    A key that the environment gives, and that is not empty, is returned as
    it is, whatever the configuration file holds, even one that cannot be
    read.  [get_google_api_key] returns the variable [GOOGLE_API_KEY] and
    raises [ValueError] without it; [get_deepl_api_key] never raises and
    returns [None] without [DEEPL_API_KEY]; and the key the narrator loads
    is the one [get_google_api_key] returns, trimmed. *)
Theorem api_keys_from_environment (environ : gmap pystr pystr)
    (path : pystr → config.path_state) :
  (∀ key_name config_file c api_key,
     environ !! key_name = Some (c :: api_key) →
     config.get_api_key environ path key_name config_file
     = config.Returns (c :: api_key))
  ∧ config.get_google_api_key environ path
    = match environ !! lit "GOOGLE_API_KEY" with
      | Some (c :: api_key) => config.Returns (c :: api_key)
      | _ => config.RaisesValueError
      end
  ∧ config.get_deepl_api_key environ path
    = config.Returns
        match environ !! lit "DEEPL_API_KEY" with
        | Some (c :: api_key) => Some (c :: api_key)
        | _ => None
        end
  ∧ get_gemini_api_key (environ !! lit "GOOGLE_API_KEY")
    = match config.get_google_api_key environ path with
      | config.Returns api_key => Some (strip api_key)
      | _ => None
      end.
Proof.
  unfold config.get_deepl_api_key, config.get_google_api_key,
    config.get_api_key, get_gemini_api_key.
  split_and!.
  - by intros key_name config_file c api_key ->.
  - by destruct (environ !! lit "GOOGLE_API_KEY") as [[|c api_key]|].
  - by destruct (environ !! lit "DEEPL_API_KEY") as [[|c api_key]|].
  - by destruct (environ !! lit "GOOGLE_API_KEY") as [[|c api_key]|].
Qed.

(** ** What [get_api_key] can return *)

Lemma find_sep_inv (sep : N) (s before after : pystr) :
  config.find_sep sep s = Some (before, after) →
  s = before ++ sep :: after ∧ sep ∉ before.
Proof.
  revert before. induction s as [|c s IH]; intros before; simpl; [done|].
  destruct (N.eqb_spec c sep) as [->|Hne].
  - intros [= <- <-]. split; [done|apply not_elem_of_nil].
  - destruct (config.find_sep sep s) as [[b a]|]; [|done].
    intros [= <- <-]. destruct (IH b eq_refl) as [-> Hb].
    split; [done|]. apply not_elem_of_cons. by split.
Qed.

Lemma find_sep_none (sep : N) (s : pystr) :
  config.find_sep sep s = None → sep ∉ s.
Proof.
  induction s as [|c s IH]; simpl; [intros _; apply not_elem_of_nil|].
  destruct (N.eqb_spec c sep) as [->|Hne]; [done|].
  destruct (config.find_sep sep s) as [[b a]|]; [done|].
  intros _. apply not_elem_of_cons. split; [done|by apply IH].
Qed.

(** Trimming drops blanks only. *)
Lemma lstrip_keeps (c : N) (s : pystr) :
  isspace c = false → c ∈ s → c ∈ lstrip s.
Proof.
  intros Hc Hin. destruct (lstrip_split s) as (blanks & Hs & Hblanks).
  rewrite Hs in Hin. apply elem_of_app in Hin as [Hin|Hin]; [|done].
  rewrite Forall_forall in Hblanks. specialize (Hblanks c Hin). congruence.
Qed.

Lemma elem_of_rev (c : N) (s : pystr) : c ∈ rev s ↔ c ∈ s.
Proof. rewrite !list_elem_of_In. symmetry. apply in_rev. Qed.

Lemma strip_keeps (c : N) (s : pystr) :
  isspace c = false → c ∈ s → c ∈ strip s.
Proof.
  intros Hc Hin. unfold strip, rstrip.
  apply elem_of_rev. apply lstrip_keeps; [done|].
  apply elem_of_rev. by apply lstrip_keeps.
Qed.

(** The loop over the lines is left by [return] only, with the trimmed value
    of a line that assigns the key; the unpacking of [split('=', 1)] never
    fails. *)
Lemma scan_lines_sound (key_name : pystr) (lines : list pystr) o :
  config.scan_lines key_name lines = Some o →
  ∃ line name value,
    line ∈ lines
    ∧ startswith (lit "#") line = false
    ∧ strip line = name ++ 61%N :: value
    ∧ (61%N ∉ name)
    ∧ strip name = key_name
    ∧ o = config.Returns (strip value).
Proof.
  induction lines as [|line rest IH]; [done|]. cbn [config.scan_lines].
  assert (∀ o', config.scan_lines key_name rest = Some o' →
                o' = o →
                ∃ line0 name value,
                  line0 ∈ line :: rest
                  ∧ startswith (lit "#") line0 = false
                  ∧ strip line0 = name ++ 61%N :: value
                  ∧ (61%N ∉ name)
                  ∧ strip name = key_name
                  ∧ o = config.Returns (strip value)) as Hrest.
  { intros o' Ho' ->.
    destruct (IH Ho') as (line0 & name & value & Hin & Hrest).
    exists line0, name, value. split; [by right|done]. }
  destruct (truthy (strip line)); cbn [andb]; [|by eauto].
  destruct (startswith (lit "#") line) eqn:Hhash; cbn [negb]; [by eauto|].
  destruct (contains (lit "=") line) eqn:Heq; [|by eauto].
  unfold config.split_once.
  destruct (config.find_sep 61 (strip line)) as [[name value]|] eqn:Hsep.
  - destruct (bool_decide (strip name = key_name)) eqn:Hname; [|by eauto].
    intros [= <-]. apply bool_decide_eq_true in Hname.
    destruct (find_sep_inv _ _ _ _ Hsep) as [Hline Hnot].
    exists line, name, value. split_and!; try done. by left.
  - intros _. exfalso. apply find_sep_none in Hsep. apply Hsep.
    apply strip_keeps; [done|].
    apply contains_occurs in Heq as (before & after & ->).
    apply elem_of_app. right. by left.
Qed.

(** What [get_api_key] can give, for any environment and any file.  A value
    it returns is the value of the environment, which is then not empty, or
    else the trimmed value of a line of the configuration file that is no
    comment and assigns the key.  It raises [ValueError] only when the
    environment does not give the key, and lets an [OSError] through only
    when it was given a file that exists and cannot be read. *)
Theorem get_api_key_sound (environ : gmap pystr pystr)
    (path : pystr → config.path_state) (key_name : pystr)
    (config_file : option pystr) :
  let unset :=
    environ !! key_name = None ∨ environ !! key_name = Some [] in
  match config.get_api_key environ path key_name config_file with
  | config.Returns api_key =>
      (environ !! key_name = Some api_key ∧ api_key ≠ [])
      ∨ (unset
         ∧ ∃ file_name content line name value,
             config_file = Some file_name
             ∧ path file_name = config.TextFile content
             ∧ line ∈ config.file_lines content
             ∧ startswith (lit "#") line = false
             ∧ strip line = name ++ 61%N :: value
             ∧ (61%N ∉ name)
             ∧ strip name = key_name
             ∧ api_key = strip value)
  | config.RaisesValueError => unset
  | config.RaisesOSError =>
      unset
      ∧ ∃ file_name,
          config_file = Some file_name
          ∧ path file_name = config.Unreadable
  end.
Proof.
  unfold config.get_api_key.
  destruct (environ !! key_name) as [[|c api_key]|] eqn:Henv; simpl.
  2:{ left. by split. }
  all: destruct config_file as [[|d file_name]|]; simpl; try by auto.
  all: destruct (path (d :: file_name)) as [|content|] eqn:Hpath; simpl;
         try by auto.
  all: try (split; [by auto|]; by exists (d :: file_name)).
  all: destruct (config.scan_lines key_name (config.file_lines content))
         as [o|] eqn:Hscan; [|by auto].
  all: destruct (scan_lines_sound _ _ _ Hscan)
         as (line & name & value & Hin & Hhash & Hline & Hnot & Hname & ->).
  all: right; split; [by auto|].
  all: by exists (d :: file_name), content, line, name, value.
Qed.

(** ** Enrichment levels *)

Lemma level_key_cases (key : pystr) :
  (∃ l, key = enrichment_config.value l)
  ∨ (∀ l, key ≠ enrichment_config.value l).
Proof.
  destruct (decide (key ∈ level_keys)) as [Hin|Hout].
  - left. unfold level_keys in Hin.
    repeat (apply elem_of_cons in Hin as [->|Hin];
            [first [ by exists enrichment_config.NONE
                   | by exists enrichment_config.MINIMAL
                   | by exists enrichment_config.NORMAL
                   | by exists enrichment_config.DETAILED
                   | by exists enrichment_config.ACADEMIC ]|]).
    by apply elem_of_nil in Hin.
  - right. intros l ->. apply Hout. unfold level_keys.
    destruct l; simpl; repeat first [ by left | right ].
Qed.

Lemma lookup_level (l : enrichment_config.EnrichmentLevel) :
  alist_get enrichment_config.ENRICHMENT_LEVELS (enrichment_config.value l)
  = Some (config_of l)
  ∧ alist_get enrichment_config.ENRICHMENT_PROMPTS
      (enrichment_config.value l)
    = Some (prompt_of l).
Proof. by destruct l. Qed.

Lemma lookup_other_key (key : pystr) :
  (∀ l, key ≠ enrichment_config.value l) →
  alist_get enrichment_config.ENRICHMENT_LEVELS key = None
  ∧ alist_get enrichment_config.ENRICHMENT_PROMPTS key = None.
Proof.
  intros Hother.
  unfold enrichment_config.ENRICHMENT_LEVELS,
    enrichment_config.ENRICHMENT_PROMPTS, alist_get.
  rewrite !bool_decide_eq_false_2; [done|..].
  all: intros Heq; symmetry in Heq.
  all: first [ exact (Hother enrichment_config.NONE Heq)
             | exact (Hother enrichment_config.MINIMAL Heq)
             | exact (Hother enrichment_config.NORMAL Heq)
             | exact (Hother enrichment_config.DETAILED Heq)
             | exact (Hother enrichment_config.ACADEMIC Heq) ].
Qed.

Lemma enrichment_lookup_cases (lower : pystr → pystr) (level : pystr) :
  ∃ l,
    enrichment_config.get_enrichment_level_config lower level = config_of l
    ∧ enrichment_config.get_enrichment_prompt lower level = prompt_of l.
Proof.
  unfold enrichment_config.get_enrichment_level_config,
    enrichment_config.get_enrichment_prompt.
  destruct (level_key_cases (lower level)) as [[l Hl]|Hother].
  - exists l. rewrite Hl. by destruct (lookup_level l) as [-> ->].
  - exists enrichment_config.NORMAL.
    by destruct (lookup_other_key _ Hother) as [-> ->].
Qed.

(** The two lookups of the enrichment module never fail and always agree.
    The two tables have the keys of the enumeration, in its order; for any
    level the configuration and the template come from the same entry, the
    one whose key is the lowercased level, and from the entry [normal] when
    there is no such key. *)
Theorem enrichment_lookups_agree (lower : pystr → pystr) (level : pystr) :
  map fst enrichment_config.ENRICHMENT_LEVELS
  = map enrichment_config.value all_levels
  ∧ map fst enrichment_config.ENRICHMENT_PROMPTS
    = map enrichment_config.value all_levels
  ∧ ∃ l,
      enrichment_config.get_enrichment_level_config lower level = config_of l
      ∧ enrichment_config.get_enrichment_prompt lower level = prompt_of l
      ∧ (lower level = enrichment_config.value l
         ∨ (l = enrichment_config.NORMAL
            ∧ ∀ l', lower level ≠ enrichment_config.value l')).
Proof.
  split; [done|]. split; [done|].
  unfold enrichment_config.get_enrichment_level_config,
    enrichment_config.get_enrichment_prompt.
  destruct (level_key_cases (lower level)) as [[l Hl]|Hother].
  - exists l. rewrite Hl.
    destruct (lookup_level l) as [-> ->]. split_and!; try done. by left.
  - exists enrichment_config.NORMAL.
    destruct (lookup_other_key _ Hother) as [-> ->].
    split_and!; try done. by right.
Qed.

Lemma ascii_key (l : enrichment_config.EnrichmentLevel) :
  is_ascii (enrichment_config.value l)
  ∧ map ascii_lower (enrichment_config.value l) = enrichment_config.value l.
Proof.
  split; [|by destruct l].
  destruct l; repeat constructor.
Qed.

(** The lookups ignore the case of the level: with [str.lower] lowering the
    ASCII letters of an ASCII string, a level spelled in any mix of cases
    gets the configuration and the template of its lowercase key, and a
    level that is no key in lowercase gets those of [normal]. *)
Theorem enrichment_lookup_ignores_case (lower : pystr → pystr)
    (level : pystr) :
  (∀ s, is_ascii s → lower s = map ascii_lower s) →
  is_ascii level →
  (∀ l,
     map ascii_lower level = enrichment_config.value l →
     enrichment_config.get_enrichment_level_config lower level = config_of l
     ∧ enrichment_config.get_enrichment_prompt lower level = prompt_of l)
  ∧ ((∀ l, map ascii_lower level ≠ enrichment_config.value l) →
     enrichment_config.get_enrichment_level_config lower level
     = enrichment_config.config_normal
     ∧ enrichment_config.get_enrichment_prompt lower level
       = enrichment_config.prompt_normal).
Proof.
  intros Hlower Hascii.
  unfold enrichment_config.get_enrichment_level_config,
    enrichment_config.get_enrichment_prompt.
  rewrite (Hlower level Hascii). split.
  - intros l ->. by destruct (lookup_level l) as [-> ->].
  - intros Hother. by destruct (lookup_other_key _ Hother) as [-> ->].
Qed.

(** The levels are ordered as the table lists them: each level allows what
    the level before it allows, more extra sentences, and a temperature at
    least as high. *)
Theorem enrichment_levels_ordered (j : nat)
    (c1 c2 : enrichment_config.LevelConfig) :
  map snd enrichment_config.ENRICHMENT_LEVELS !! j = Some c1 →
  map snd enrichment_config.ENRICHMENT_LEVELS !! S j = Some c2 →
  allows_more c1 c2.
Proof.
  intros H1 H2.
  do 5 (destruct j as [|j];
        [injection H1 as <-; try injection H2 as <-; try done;
         unfold allows_more; simpl; split_and!; try done;
         unfold Qle; simpl; lia|]).
  done.
Qed.

(** [format_prompt] never raises, and it puts its arguments into the
    template as they are: the result is the slide text under the heading
    [Slide Content:], between pieces of text that depend on the level only
    and hold no brace, followed, in the templates that have the fields, by
    the previous context and the presentation topic, each replaced by its
    default when it is empty.  A brace in an argument is not read as a
    field.  The previous context is used exactly by the levels whose
    configuration sets [add_context]. *)
Theorem format_prompt_fills_template (lower : pystr → pystr)
    (level : pystr) :
  ∃ (a b c d : pystr) (uses_context uses_topic : bool),
    (∀ slide_text previous_context presentation_topic,
       enrichment_config.format_prompt lower level slide_text
         previous_context presentation_topic
       = enrichment_config.Formatted
           (a ++ slide_text ++ b
            ++ (if uses_context then context_or_default previous_context
                else [])
            ++ c
            ++ (if uses_topic then topic_or_default presentation_topic
                else [])
            ++ d))
    ∧ (lit "Slide Content:" ++ nl) `suffix_of` a
    ∧ brace_free (a ++ b ++ c ++ d) = true
    ∧ uses_context
      = enrichment_config.add_context
          (enrichment_config.get_enrichment_level_config lower level)
    ∧ (uses_topic = true → uses_context = true).
Proof.
  destruct (enrichment_lookup_cases lower level) as (l & Hconfig & Hprompt).
  unfold enrichment_config.format_prompt. rewrite Hprompt, Hconfig.
  pose (p := pieces (prompt_of l)).
  exists (p.1.1.1.1.1), (p.1.1.1.1.2), (p.1.1.1.2), (p.1.1.2), (p.1.2),
    (p.2).
  destruct l; split_and!; try by vm_compute.
  all: try (intros slide_text previous_context presentation_topic;
            unfold context_or_default, topic_or_default;
            vm_compute; reflexivity).
  all: exists (take (length (p.1.1.1.1.1) - 15) (p.1.1.1.1.1)).
  all: vm_compute; reflexivity.
Qed.

Lemma lookup_own_key (lower : pystr → pystr)
    (l : enrichment_config.EnrichmentLevel) :
  (∀ s, is_ascii s → lower s = map ascii_lower s) →
  enrichment_config.get_enrichment_level_config lower
    (enrichment_config.value l)
  = config_of l.
Proof.
  intros Hlower. unfold enrichment_config.get_enrichment_level_config.
  destruct (ascii_key l) as [Hascii Hsame].
  rewrite (Hlower _ Hascii), Hsame.
  by destruct (lookup_level l) as [-> _].
Qed.

(** The options of the dropdown are the levels, in the order of the table:
    each option has the key of a level, and shows the name and the
    description of the configuration that looking its key up gives back. *)
Theorem dropdown_options_match_levels (lower : pystr → pystr) :
  (∀ s, is_ascii s → lower s = map ascii_lower s) →
  map fst enrichment_config.get_dropdown_options = level_keys
  ∧ ∀ key display,
      (key, display) ∈ enrichment_config.get_dropdown_options →
      let config :=
        enrichment_config.get_enrichment_level_config lower key in
      key ∈ level_keys
      ∧ display
        = enrichment_config.name config ++ lit " - "
          ++ enrichment_config.description config.
Proof.
  intros Hlower. split; [done|].
  intros key display Hin.
  assert (∃ l, key = enrichment_config.value l
               ∧ display
                 = enrichment_config.name (config_of l) ++ lit " - "
                   ++ enrichment_config.description (config_of l))
    as (l & -> & ->).
  { unfold enrichment_config.get_dropdown_options,
      enrichment_config.ENRICHMENT_LEVELS in Hin.
    cbn [enrichment_config.options_loop app] in Hin.
    repeat (apply elem_of_cons in Hin as [[= -> ->]|Hin];
            [first [ by exists enrichment_config.NONE
                   | by exists enrichment_config.MINIMAL
                   | by exists enrichment_config.NORMAL
                   | by exists enrichment_config.DETAILED
                   | by exists enrichment_config.ACADEMIC ]|]).
    by apply elem_of_nil in Hin. }
  simpl. rewrite (lookup_own_key lower l Hlower). split; [|done].
  unfold level_keys. destruct l; simpl; repeat first [ by left | right ].
Qed.

(** ** The theorems at work on the samples *)

Lemma sample_file_opens :
  sample_files (lit "deck.pptx") = pptx_reader.Returns sample_presentation.
Proof. reflexivity. Qed.

Lemma sample_records_extracted :
  pptx_reader.extract_text_from_pptx sample_files (lit "deck.pptx")
  = pptx_reader.Returns sample_records.
Proof. reflexivity. Qed.

Lemma extract_one_record_per_slide_witness :
  sample_files (lit "deck.pptx") = pptx_reader.Returns sample_presentation
  ∧ ∃ records,
      pptx_reader.extract_text_from_pptx sample_files (lit "deck.pptx")
      = pptx_reader.Returns records
      ∧ length records = 4%nat
      ∧ ∃ r, records !! 2%nat = Some r ∧ pptx_reader.slide_number r = 3.
Proof.
  split; [exact sample_file_opens|].
  destruct (extract_one_record_per_slide sample_files (lit "deck.pptx")
              sample_presentation sample_file_opens)
    as (records & Hextract & Hlen & Hrecords).
  exists records. split; [done|]. split; [done|].
  destruct (Hrecords 2%nat {| pptx_reader.shapes := [picture] |} eq_refl)
    as (r & Hr & Hnumber & _).
  by exists r.
Defined.

Lemma extract_text_trimmed_witness :
  pptx_reader.extract_text_from_pptx sample_files (lit "deck.pptx")
  = pptx_reader.Returns sample_records
  ∧ Forall (λ r, strip (pptx_reader.text r) = pptx_reader.text r)
      sample_records.
Proof.
  split; [exact sample_records_extracted|].
  eapply Forall_impl.
  - exact (extract_text_trimmed sample_files (lit "deck.pptx") sample_records
             sample_records_extracted).
  - by intros r (Hstrip & _).
Defined.

Lemma sample_records_held :
  holds_records (deck_heap (map pptx_reader.text sample_records)) 1%positive
    [2; 3; 4; 5]%positive sample_records.
Proof.
  split; [by vm_compute|].
  repeat constructor; eexists; by vm_compute.
Qed.

Lemma narrate_extracted_deck_witness :
  let w := start default_narrator (map pptx_reader.text sample_records)
             sample_script in
  pptx_reader.extract_text_from_pptx sample_files (lit "deck.pptx")
  = pptx_reader.Returns sample_records
  ∧ holds_records (heap w) 1%positive [2; 3; 4; 5]%positive sample_records
  ∧ ∃ w' evs,
      narrate_slides NEW scripted 1%positive true w
      = (Return 1%positive, w', evs)
      ∧ slide_field (heap w') 4%positive key_ai_narration = Some (VStr [])
      ∧ calls_for 3 evs = [].
Proof.
  split; [exact sample_records_extracted|].
  split; [exact sample_records_held|].
  destruct (narrate_extracted_deck NEW scripted sample_files
              (lit "deck.pptx") sample_records 1%positive true
              (start default_narrator (map pptx_reader.text sample_records)
                 sample_script)
              [2; 3; 4; 5]%positive sample_records_extracted
              sample_records_held)
    as (w' & evs & Hrun & Hslides).
  exists w', evs. split; [done|].
  destruct (Hslides 2%nat 4%positive
              (pptx_reader.slide_record 3 {| pptx_reader.shapes := [picture] |})
              eq_refl eq_refl)
    as (_ & _ & _ & _ & Htrivial & _).
  apply Htrivial. by vm_compute.
Defined.

Lemma retry_loop_outcome_witness :
  let r1 := Text (Some (lit " Good morning everyone. ")) in
  ∃ w',
    narrate_slide NEW scripted 2 3 false 2%positive
      (start default_narrator [lit "Hello world"]
         [Raises (lit "500 INTERNAL"); r1])
    = (Return tt, w',
       slide_events 2 3 false
         (_build_context_aware_prompt default_narrator (lit "Hello world") 2
            3 true)
         (Some (7 # 10)%Q) (Raises (lit "500 INTERNAL")) r1)
    ∧ slide_field (heap w') 2%positive key_ai_narration
      = Some (VStr (lit "Good morning everyone.")).
Proof.
  destruct (retry_loop_outcome NEW scripted 2%positive 2 3 false
              (lit "Hello world")
              (start default_narrator [lit "Hello world"]
                 [ Raises (lit "500 INTERNAL");
                   Text (Some (lit " Good morning everyone. ")) ])
              (Raises (lit "500 INTERNAL"))
              [Text (Some (lit " Good morning everyone. "))]
              (Text (Some (lit " Good morning everyone. "))) [])
    as (w' & Hrun & Hnarration & _);
    [by vm_compute|by vm_compute|reflexivity|reflexivity|].
  exists w'. split; [exact Hrun|exact Hnarration].
Defined.

Lemma pass_trace_segments_witness :
  well_typed_deck (deck_heap sample_texts) 1%positive sample_slides
  ∧ ∃ w' segs,
      narrate_slides NEW scripted 1%positive true
        (start default_narrator sample_texts sample_script)
      = (Return 1%positive, w', concat segs)
      ∧ length segs = 3%nat.
Proof.
  split; [exact sample_deck_well_typed|].
  destruct (pass_trace_segments NEW scripted 1%positive true
              (start default_narrator sample_texts sample_script)
              sample_slides sample_deck_well_typed)
    as (w' & segs & Hrun & Hlen & _).
  by exists w', segs.
Defined.

Lemma pass_cost_witness :
  well_typed_deck (deck_heap sample_texts) 1%positive sample_slides
  ∧ ∃ w' evs,
      narrate_slides NEW scripted 1%positive true
        (start default_narrator sample_texts sample_script)
      = (Return 1%positive, w', evs)
      ∧ (count is_call evs ≤ 6)%nat
      ∧ count (is_sleep (8 # 10)%Q) evs = count is_retried_call evs.
Proof.
  split; [exact sample_deck_well_typed|].
  destruct (pass_cost NEW scripted 1%positive true
              (start default_narrator sample_texts sample_script)
              sample_slides sample_deck_well_typed)
    as (w' & evs & Hrun & Hcalls & _ & Hpacing & _).
  by exists w', evs.
Defined.

Lemma narrations_are_trimmed_witness :
  well_typed_deck (deck_heap [lit "  Hello world  "]) 1%positive [2%positive]
  ∧ ∃ w' evs,
      narrate_slides NEW scripted 1%positive false
        (start default_narrator [lit "  Hello world  "] sample_script)
      = (Return 1%positive, w', evs)
      ∧ ∃ v, slide_field (heap w') 2%positive key_ai_narration
             = Some (VStr v)
             ∧ strip v = v.
Proof.
  split; [apply padded_deck_well_typed|].
  destruct (narrations_are_trimmed NEW scripted 1%positive false
              (start default_narrator [lit "  Hello world  "] sample_script)
              [2%positive] (padded_deck_well_typed _))
    as (w' & evs & Hrun & Hslides & _).
  exists w', evs. split; [done|].
  destruct (Hslides 2%positive (lit "  Hello world  "))
    as (v & Hv & Hstrip & _); [by left|by vm_compute|].
  by exists v.
Defined.

Lemma pass_prompts_carry_slide_text_witness :
  well_typed_deck (deck_heap sample_texts) 1%positive sample_slides
  ∧ ∃ w' evs,
      narrate_slides NEW (constant canned) 1%positive true
        (start default_narrator sample_texts tt)
      = (Return 1%positive, w', evs)
      ∧ ∀ i attempt prompt config r,
          EvGenerate i attempt prompt config r ∈ evs →
          (lit "Tone: " ++ prompt_style engaging) `suffix_of` prompt.
Proof.
  split; [exact sample_deck_well_typed|].
  destruct (pass_prompts_carry_slide_text NEW (constant canned) 1%positive
              true (start default_narrator sample_texts tt) sample_slides
              sample_deck_well_typed)
    as (w' & evs & Hrun & Hprompts).
  exists w', evs. split; [done|].
  intros i attempt prompt config r Hin.
  by destruct (Hprompts i attempt prompt config r Hin)
    as (slide & t & _ & _ & _ & _ & Htone).
Defined.

Lemma narrate_slides_ill_typed_witness :
  let w := {| self := default_narrator; heap := broken_heap; client := tt |} in
  heap w !! 1%positive = Some (OList ([2%positive] ++ 3%positive :: [4%positive]))
  ∧ heap w !! 3%positive = Some (ODict {[ key_text := VNone ]})
  ∧ ill_typed_slide (heap w) 3%positive
  ∧ ∃ w' evs,
      narrate_slides NEW (constant canned) 1%positive false w
      = (Raise AttributeError, w', evs)
      ∧ heap w' !! 4%positive = heap w !! 4%positive.
Proof.
  assert (Forall (λ slide, is_Some (slide_text broken_heap slide))
            [2%positive]) as Htyped.
  { repeat constructor. eexists. by vm_compute. }
  assert (ill_typed_slide broken_heap 3%positive) as Hbad.
  { unfold ill_typed_slide, broken_heap. rewrite lookup_insert_eq.
    exists VNone. split; [|done]. apply lookup_singleton_eq. }
  split; [by vm_compute|]. split; [apply lookup_insert_eq|].
  split; [exact Hbad|].
  destruct (narrate_slides_ill_typed NEW (constant canned) 1%positive false
              {| self := default_narrator; heap := broken_heap; client := tt |}
              [2%positive] 3%positive [4%positive])
    as (w' & evs & Hrun & _ & Hout & _);
    [by vm_compute|exact Htyped|exact Hbad|].
  exists w', evs. split; [done|].
  apply Hout. by intros [[=]|[]%elem_of_nil]%elem_of_cons.
Defined.

Lemma sample_config_plain : Forall plain_line sample_config.
Proof.
  repeat constructor; simpl; try done.
  all: try (intros Hin; vm_compute in Hin;
            repeat (apply elem_of_cons in Hin as [Heq|Hin]; [done|]);
            by apply elem_of_nil in Hin).
Qed.

Lemma get_api_key_reads_config_file_witness :
  (sample_environ !! lit "GOOGLE_API_KEY" = None
   ∨ sample_environ !! lit "GOOGLE_API_KEY" = Some [])
  ∧ lit "team.env" ≠ []
  ∧ sample_paths (lit "team.env")
    = config.TextFile (render_lines sample_config)
  ∧ Forall plain_line sample_config
  ∧ config.get_api_key sample_environ sample_paths (lit "GOOGLE_API_KEY")
      (Some (lit "team.env"))
    = config.Returns (lit "g-456=").
Proof.
  assert (sample_environ !! lit "GOOGLE_API_KEY" = None
          ∨ sample_environ !! lit "GOOGLE_API_KEY" = Some []) as Henv
    by (left; by vm_compute).
  split; [exact Henv|]. split; [done|]. split; [reflexivity|].
  split; [exact sample_config_plain|].
  rewrite (get_api_key_reads_config_file sample_environ sample_paths
             (lit "GOOGLE_API_KEY") (lit "team.env") sample_config Henv);
    [by vm_compute|done|reflexivity|exact sample_config_plain].
Defined.

Lemma ascii_lower_law (s : pystr) :
  is_ascii s → map ascii_lower s = map ascii_lower s.
Proof. done. Qed.

Lemma enrichment_lookup_ignores_case_witness :
  (∀ s, is_ascii s → map ascii_lower s = map ascii_lower s)
  ∧ is_ascii (lit "DeTaILed")
  ∧ enrichment_config.get_enrichment_level_config (map ascii_lower)
      (lit "DeTaILed")
    = enrichment_config.config_detailed.
Proof.
  assert (is_ascii (lit "DeTaILed")) as Hascii by (by repeat constructor).
  split; [exact ascii_lower_law|]. split; [exact Hascii|].
  destruct (enrichment_lookup_ignores_case (map ascii_lower) (lit "DeTaILed")
              ascii_lower_law Hascii) as [Hkeys _].
  by destruct (Hkeys enrichment_config.DETAILED eq_refl).
Defined.

Lemma enrichment_levels_ordered_witness :
  map snd enrichment_config.ENRICHMENT_LEVELS !! 1%nat
  = Some enrichment_config.config_minimal
  ∧ map snd enrichment_config.ENRICHMENT_LEVELS !! 2%nat
    = Some enrichment_config.config_normal
  ∧ allows_more enrichment_config.config_minimal
      enrichment_config.config_normal.
Proof.
  split; [reflexivity|]. split; [reflexivity|].
  exact (enrichment_levels_ordered 1 enrichment_config.config_minimal
           enrichment_config.config_normal eq_refl eq_refl).
Defined.

Lemma dropdown_options_match_levels_witness :
  (∀ s, is_ascii s → map ascii_lower s = map ascii_lower s)
  ∧ map fst enrichment_config.get_dropdown_options = level_keys.
Proof.
  split; [exact ascii_lower_law|].
  by destruct (dropdown_options_match_levels (map ascii_lower)
                 ascii_lower_law).
Defined.

Lemma history_in_slide_order_witness :
  well_typed_deck (deck_heap sample_texts) 1%positive sample_slides
  ∧ ∃ w' evs,
      narrate_slides NEW scripted 1%positive true
        (start default_narrator sample_texts sample_script)
      = (Return 1%positive, w', evs)
      ∧ (length (conversation_history (self w')) ≤ 3)%nat.
Proof.
  split; [exact sample_deck_well_typed|].
  destruct (history_in_slide_order NEW scripted 1%positive true
              (start default_narrator sample_texts sample_script)
              sample_slides sample_deck_well_typed)
    as (w' & evs & Hrun & _ & _ & Hlength).
  exists w', evs. split; [done|]. by rewrite length_map in Hlength.
Defined.
